(** * Flappy Bird (flappybird.py): game loop, collision and scoring

    A shallow embedding of the classes [Player], [Obstacle], [Scoreboard],
    [Game] and [Application] of [src/flappybird.py], followed by the
    properties of the game loop stated against it.

    Modelling choices, in the order of the file:
    - Python floats (and the doubles held by the Tk canvas) are IEEE 754
      binary64 values, taken from the Standard Library's [SpecFloat]:
      every arithmetic operation and comparison of the source is the
      correctly rounded one.
    - Python exceptions are explicit: every method that can raise returns a
      [result].
    - The Tk canvas is a store from item ids to rectangles.  It is one
      shared object in the program ([Game._canvas], [Player._canvas] and
      [Obstacle._canvas] alias [Application.game_canvas]); here it is a
      single field of the game state that every method threads through.
    - [random.randrange] reads from an entropy supply given to each tick.
    - [Canvas.find_overlapping] is a parameter of the development.
    - [window.after] is explicit: a tick returns, beside the application,
      the [Game] object whose [run_game] it has armed again.  That object
      is [self], also when [check_restart] has just replaced the
      application's game; [run_game_of] is the tick of such a replaced
      game. *)

From Stdlib Require Import ZArith SpecFloat.
From stdpp Require Import base option list gmap strings pretty.

Open Scope Z_scope.

(** ** Floats: binary64 *)

Module Float.

Definition prec : Z := 53.
Definition emax : Z := 1024.

Definition t : Type := spec_float.

(** An integer converted to a float, as Python does when an [int] meets a
    [float] and as Tcl does when it reads a coordinate. *)
Definition of_int (z : Z) : t := binary_normalize prec emax z 0 false.

Definition add : t -> t -> t := SFadd prec emax.
Definition mul : t -> t -> t := SFmul prec emax.
Definition div : t -> t -> t := SFdiv prec emax.
Definition eqb : t -> t -> bool := SFeqb.
Definition ltb : t -> t -> bool := SFltb.
Definition leb : t -> t -> bool := SFleb.
(** [a >= b] and [a > b] of the source. *)
Definition geb (a b : t) : bool := SFleb b a.
Definition gtb (a b : t) : bool := SFltb b a.

(** The literal [0.1]: 0x1.999999999999ap-4. *)
Definition lit_0_1 : t := S754_finite false 7205759403792794 (-56).
(** The literal [1.6]: 0x1.999999999999ap+0. *)
Definition lit_1_6 : t := S754_finite false 7205759403792794 (-52).
Definition lit_0_5 : t := S754_finite false 4503599627370496 (-53).
(** [-8.0] *)
Definition lit_m8_0 : t := S754_finite true 4503599627370496 (-49).

End Float.

(** ** Python: exceptions and list operations *)

Inductive exn : Type :=
| IndexError
| ValueError
| TypeError.

(** The outcome of a method call.  [OutOfFuel] is not a Python outcome: it
    is what a loop of the model returns when its step budget is used up, and
    [Game._manage_pipes] is shown never to return it. *)
Inductive result (A : Type) : Type :=
| Return (a : A)
| Raise (e : exn)
| OutOfFuel.

Arguments Return {A} a.
Arguments Raise {A} e.
Arguments OutOfFuel {A}.

Definition bind {A B : Type} (m : result A) (k : A -> result B) : result B :=
  match m with
  | Return a => k a
  | Raise e => Raise e
  | OutOfFuel => OutOfFuel
  end.

#[global] Instance result_ret : MRet result := @Return.
#[global] Instance result_bind : MBind result := fun A B k m => bind m k.

(** [try: body  except IndexError: handler] *)
Definition try_except_IndexError {A : Type} (body handler : result A) : result A :=
  match body with
  | Raise IndexError => handler
  | r => r
  end.

Module Py.

(** [l[i]] for a non-negative literal index. *)
Definition index {A : Type} (l : list A) (i : nat) : result A :=
  match l !! i with
  | Some a => Return a
  | None => Raise IndexError
  end.

(** [l.remove(x)]: drops the first element equal to [x]; [ValueError]
    when there is none. *)
Fixpoint remove {A : Type} (eq : A -> A -> bool) (x : A) (l : list A)
  : result (list A) :=
  match l with
  | [] => Raise ValueError
  | y :: l' =>
      if eq x y then Return l'
      else l'' ← remove eq x l'; Return (y :: l'')
  end.

(** [l.pop()]: drops the last element; [IndexError] on the empty list. *)
Definition pop {A : Type} (l : list A) : result (A * list A) :=
  match reverse l with
  | [] => Raise IndexError
  | a :: r => Return (a, reverse r)
  end.

(** Star-unpacking of [l] into a call with four positional parameters;
    [TypeError] when [l] does not have four elements. *)
Definition unpack4 {A : Type} (l : list A) : result (A * A * A * A) :=
  match l with
  | [a; b; c; d] => Return (a, b, c, d)
  | _ => Raise TypeError
  end.

(** [random.randrange(start, stop)]: [start + k] with [0 <= k < stop -
    start], where [k] is the generator's choice, read off the entropy [e];
    [ValueError] on an empty range. *)
Definition randrange (start stop : Z) (e : Z) : result Z :=
  if stop <=? start then Raise ValueError
  else Return (start + e mod (stop - start)).

End Py.

(** ** The Tk canvas

    Only rectangle items occur.  An item is its four coordinates, kept as
    Tk keeps them: [create_rectangle] and [move] store the corners with the
    lower coordinate first on both axes.  Item ids are handed out in
    increasing order from 1 and never reused. *)

Module Canvas.

Record rect : Type := Rect { x1 : Float.t; y1 : Float.t; x2 : Float.t; y2 : Float.t }.

Record t : Type := Make { items : gmap nat rect; next_id : nat }.

(** [Canvas(window, ...)] *)
Definition new : t := {| items := ∅; next_id := 1 |}.

Definition normalize (r : rect) : rect :=
  let '(ya, yb) := if Float.gtb (y1 r) (y2 r) then (y2 r, y1 r) else (y1 r, y2 r) in
  let '(xa, xb) := if Float.gtb (x1 r) (x2 r) then (x2 r, x1 r) else (x1 r, x2 r) in
  Rect xa ya xb yb.

Definition create_rectangle (c : t) (a b a' b' : Z) : nat * t :=
  let r := normalize (Rect (Float.of_int a) (Float.of_int b)
                           (Float.of_int a') (Float.of_int b')) in
  (next_id c, {| items := <[next_id c := r]> (items c); next_id := S (next_id c) |}).

Definition translate (dx dy : Float.t) (r : rect) : rect :=
  normalize (Rect (Float.add (x1 r) dx) (Float.add (y1 r) dy)
                  (Float.add (x2 r) dx) (Float.add (y2 r) dy)).

(** [canvas.move(item, dx, dy)]; nothing happens when no item has the id. *)
Definition move (c : t) (i : nat) (dx dy : Float.t) : t :=
  match items c !! i with
  | Some r => {| items := <[i := translate dx dy r]> (items c); next_id := next_id c |}
  | None => c
  end.

(** [canvas.coords(item)]: the four coordinates, or the empty list when no
    item has the id. *)
Definition coords (c : t) (i : nat) : list Float.t :=
  match items c !! i with
  | Some r => [x1 r; y1 r; x2 r; y2 r]
  | None => []
  end.

(** [canvas.delete(...)] with the ids of the items to delete.  Both calls
    of the source delete nothing: [check_restart] passes no argument, and
    [_manage_pipes] passes an [Obstacle] object, which is neither the id
    nor the tag of an item. *)
Definition delete (c : t) (ids : list nat) : t :=
  {| items := foldr (fun i m => base.delete i m) (items c) ids; next_id := next_id c |}.

End Canvas.

(** [canvas.find_overlapping(x1, y1, x2, y2)]: the ids of the items that
    overlap the given rectangle.  Tk's overlap test is not part of the
    program; the development holds for every such function. *)
Class FindOverlapping : Type :=
  find_overlapping : Canvas.t -> Float.t -> Float.t -> Float.t -> Float.t -> list nat.

(** A key press or a mouse click, as tkinter delivers it.  A key event has no
    button number and a button event no key symbol (tkinter then holds the
    string [??] in the field). *)
Record Event : Type := { keysym : option string; num : option Z }.

(** ** class Player *)

Module Player.

Definition _BIRD_WIDTH : Z := 40.
Definition _BIRD_HEIGHT : Z := 40.

Definition TOP_Y : nat := 1.
Definition RIGHT_X : nat := 2.
Definition BOTTOM_Y : nat := 3.

Definition _ACCELERATION : Z := 5.
Definition _JUMP_TIME : Float.t := Float.lit_1_6.
Definition _FALL_TIME : Float.t := Float.lit_0_1.

Record t : Type := Make {
  player_rectangle : nat;
  _control_key : string;
  _control_button : Z;
  _y_velocity : Float.t;
  _movement_stack : list string
}.

Definition set_velocity (p : t) (v : Float.t) : t :=
  Make (player_rectangle p) (_control_key p) (_control_button p) v (_movement_stack p).

Definition set_stack (p : t) (s : list string) : t :=
  Make (player_rectangle p) (_control_key p) (_control_button p) (_y_velocity p) s.

Definition __init__ (canvas : Canvas.t) (x y : Z) (control_key : string)
  (control_button : Z) : Canvas.t * t :=
  let '(r, canvas) :=
    Canvas.create_rectangle canvas x y (x + _BIRD_HEIGHT) (y + _BIRD_WIDTH) in
  (canvas, Make r control_key control_button (Float.of_int 0) []).

Definition _fall (canvas : Canvas.t) (p : t) : Canvas.t * t :=
  let v := Float.add (_y_velocity p)
             (Float.mul (Float.of_int _ACCELERATION) _FALL_TIME) in
  (Canvas.move canvas (player_rectangle p) (Float.of_int 0) v, set_velocity p v).

Definition _flap (canvas : Canvas.t) (p : t) : result (Canvas.t * t) :=
  let v := Float.mul (Float.of_int (- _ACCELERATION)) _JUMP_TIME in
  let canvas := Canvas.move canvas (player_rectangle p) (Float.of_int 0) v in
  s ← Py.remove String.eqb "True"%string (_movement_stack p);
  Return (canvas, set_stack (set_velocity p v) s).

(** The three tests are three separate [if] statements: each one reads the
    stack as the previous one left it. *)
Definition move (canvas : Canvas.t) (p : t) : result (Canvas.t * t) :=
  let '(canvas, p) :=
    if (length (_movement_stack p) =? 0)%nat then _fall canvas p else (canvas, p) in
  '(canvas, p) ←
    (if (length (_movement_stack p) =? 1)%nat then _flap canvas p
     else Return (canvas, p));
  if (1 <? length (_movement_stack p))%nat then
    '(_, s) ← Py.pop (_movement_stack p);
    Return (canvas, set_stack p s)
  else Return (canvas, p).

Definition event_entered (p : t) (event : Event) : t :=
  if bool_decide (keysym event = Some (_control_key p))
     || bool_decide (num event = Some (_control_button p))
  then set_stack p (_movement_stack p ++ ["True"%string])
  else p.

Definition get_coordinates (canvas : Canvas.t) (p : t) : list Float.t :=
  Canvas.coords canvas (player_rectangle p).

End Player.

(** ** class Obstacle *)

Module Obstacle.

Definition _OBSTACLE_WIDTH : Z := 70.
Definition _OBSTACLE_GAP : Z := 150.
Definition _MOVEMENT_SPEED : Z := -2.

Definition _LEFT_X : nat := 0.
Definition RIGHT_X : nat := 2.

Definition _SCREEN_WIDTH : Z := 360.
Definition _SCREEN_HEIGHT : Z := 640.

Record t : Type := Make {
  _top_rectangle : nat;
  _bottom_rectangle : nat;
  top_obstacle_position : list Float.t;
  bottom_obstacle_position : list Float.t;
  halfway : bool;
  off_screen : bool
}.

(** Object identity.  [Obstacle] defines no [__eq__], so [list.remove]
    compares obstacles by identity.  Two obstacles are the same object
    exactly when they own the same canvas rectangle: [__init__] is the only
    writer of [_top_rectangle] and the canvas never hands out an id twice. *)
Definition is_ (a b : t) : bool := (_top_rectangle a =? _top_rectangle b)%nat.

Definition __init__ (canvas : Canvas.t) (x y : Z) : Canvas.t * t :=
  let '(top_rectangle, canvas) :=
    Canvas.create_rectangle canvas x (y - _OBSTACLE_GAP)
      (x + _OBSTACLE_WIDTH) (y - _SCREEN_HEIGHT) in
  let '(bottom_rectangle, canvas) :=
    Canvas.create_rectangle canvas x y (x + _OBSTACLE_WIDTH) (y + _SCREEN_HEIGHT) in
  (canvas, Make top_rectangle bottom_rectangle
             (Canvas.coords canvas top_rectangle)
             (Canvas.coords canvas bottom_rectangle) false false).

Definition _check_obstacle_positions (o : t) : result t :=
  right_x ← Py.index (bottom_obstacle_position o) RIGHT_X;
  let off := if Float.leb right_x (Float.of_int 0) then true else off_screen o in
  left_x ← Py.index (bottom_obstacle_position o) _LEFT_X;
  let half :=
    Float.eqb left_x (Float.div (Float.of_int _SCREEN_WIDTH) (Float.of_int 2)) in
  Return (Make (_top_rectangle o) (_bottom_rectangle o) (top_obstacle_position o)
            (bottom_obstacle_position o) half off).

Definition move_obstacle (canvas : Canvas.t) (o : t) : result (Canvas.t * t) :=
  let canvas := Canvas.move canvas (_top_rectangle o)
                  (Float.of_int _MOVEMENT_SPEED) (Float.of_int 0) in
  let canvas := Canvas.move canvas (_bottom_rectangle o)
                  (Float.of_int _MOVEMENT_SPEED) (Float.of_int 0) in
  let o := Make (_top_rectangle o) (_bottom_rectangle o)
             (Canvas.coords canvas (_top_rectangle o))
             (Canvas.coords canvas (_bottom_rectangle o))
             (halfway o) (off_screen o) in
  o ← _check_obstacle_positions o;
  Return (canvas, o).

End Obstacle.

(** ** class Scoreboard *)

Module Scoreboard.

Definition _POINT_WORTH : Z := 1.

(** [_text] is the number shown by the label widget. *)
Record t : Type := Make { score : Z; _text : Z }.

Definition __init__ : t := Make 0 0.

Definition increase_score (s : t) : t :=
  let score := score s + _POINT_WORTH in
  Make score score.

End Scoreboard.

(** ** class Game

    [_canvas] is the canvas object that the player and the obstacles draw
    on.  The fields [_application] and [_window] carry no game state and are
    left out; [run_game], which calls back into the application, follows the
    class [Application] below. *)

Module Game.

Definition _DISTANCE_BETWEEN_OBSTACLES : Z := 80.
Definition _MIN_RANGE_OF_PIPES : Z := 200.
Definition _MAX_RANGE_OF_PIPES : Z := 600.

Definition _SCREEN_WIDTH : Z := 360.
Definition _SCREEN_HEIGHT : Z := 640.

Record t : Type := Make {
  _canvas : Canvas.t;
  _player : Player.t;
  _obstacles : list Obstacle.t;
  _scoreboard : Scoreboard.t;
  score : Z
}.

Definition set_canvas (g : t) (c : Canvas.t) : t :=
  Make c (_player g) (_obstacles g) (_scoreboard g) (score g).

Definition set_player (g : t) (p : Player.t) : t :=
  Make (_canvas g) p (_obstacles g) (_scoreboard g) (score g).

Definition set_obstacles (g : t) (l : list Obstacle.t) : t :=
  Make (_canvas g) (_player g) l (_scoreboard g) (score g).

(** [Game(application)], on the application's (new) canvas. *)
Definition __init__ (canvas : Canvas.t) : t :=
  let '(canvas, player) := Player.__init__ canvas 40 300 "space" 1 in
  Make canvas player [] Scoreboard.__init__ 0.

Definition _event_entered (g : t) (event : Event) : t :=
  set_player g (Player.event_entered (_player g) event).

(** The first loop of [_manage_pipes]: [move_obstacle] on every obstacle. *)
Fixpoint move_obstacles (canvas : Canvas.t) (l : list Obstacle.t)
  : result (Canvas.t * list Obstacle.t) :=
  match l with
  | [] => Return (canvas, [])
  | o :: l =>
      '(canvas, o) ← Obstacle.move_obstacle canvas o;
      '(canvas, l) ← move_obstacles canvas l;
      Return (canvas, o :: l)
  end.

(** The second loop of [_manage_pipes].  The list is appended to and
    removed from while it is iterated, so the loop is the list iterator
    spelled out: [i] is the iterator's position, and each round reads the
    element at [i] of the list as it is then, or stops when [i] is past
    the end.  [n] counts the calls of [random.randrange] made so far in the
    tick. *)
Fixpoint _manage_pipes_loop (fuel : nat) (entropy : nat -> Z) (n i : nat) (g : t)
  : result t :=
  match fuel with
  | O => OutOfFuel
  | S fuel =>
      match _obstacles g !! i with
      | None => Return g
      | Some obstacle =>
          '(n, g) ←
            (if Obstacle.halfway obstacle then
               y ← Py.randrange _MIN_RANGE_OF_PIPES _MAX_RANGE_OF_PIPES (entropy n);
               let '(canvas, new_obstacle) :=
                 Obstacle.__init__ (_canvas g)
                   (_SCREEN_WIDTH + _DISTANCE_BETWEEN_OBSTACLES) y in
               Return (S n, set_obstacles (set_canvas g canvas)
                              (_obstacles g ++ [new_obstacle]))
             else Return (n, g));
          g ←
            (if Obstacle.off_screen obstacle then
               let canvas := Canvas.delete (_canvas g) [] in
               l ← Py.remove Obstacle.is_ obstacle (_obstacles g);
               Return (set_obstacles (set_canvas g canvas) l)
             else Return g);
          _manage_pipes_loop fuel entropy n (S i) g
      end
  end.

(** Every round of the second loop either moves past an element that
    spawns nothing, or uses up one [halfway] flag (the spawned obstacle is
    not [halfway]): twice the length of the list, plus the last look at the
    end of the list, bounds the number of rounds. *)
Definition _manage_pipes (entropy : nat -> Z) (g : t) : result t :=
  '(canvas, l) ← move_obstacles (_canvas g) (_obstacles g);
  let g := set_obstacles (set_canvas g canvas) l in
  '(n, g) ←
    (if (length (_obstacles g) =? 0)%nat then
       y ← Py.randrange _MIN_RANGE_OF_PIPES _MAX_RANGE_OF_PIPES (entropy 0%nat);
       let '(canvas, obstacle) := Obstacle.__init__ (_canvas g) _SCREEN_WIDTH y in
       Return (1%nat, set_obstacles (set_canvas g canvas) (_obstacles g ++ [obstacle]))
     else Return (0%nat, g));
  _manage_pipes_loop (2 * length (_obstacles g) + 1) entropy n 0 g.

Section Collisions.
Context `{FindOverlapping}.

(** [item in canvas.find_overlapping( *position)] *)
Definition overlapping (canvas : Canvas.t) (item : nat) (position : list Float.t)
  : result bool :=
  '(a, b, c, d) ← Py.unpack4 position;
  Return (bool_decide (item ∈ find_overlapping canvas a b c d)).

(** The value returned is [Some true] for [True], [Some false] for
    [False] and [None] for [None], which the function returns by falling
    off its end when there is no collision. *)
Definition manage_collisions (g : t) : result (option bool) :=
  try_except_IndexError
    (obstacle ← Py.index (_obstacles g) 0;
     let rectangle := Player.player_rectangle (_player g) in
     hit ← overlapping (_canvas g) rectangle (Obstacle.bottom_obstacle_position obstacle);
     hit ← (if (hit : bool) then Return true
            else overlapping (_canvas g) rectangle (Obstacle.top_obstacle_position obstacle)
            : result bool);
     if (hit : bool) then Return (Some true)
     else
       bottom_y ← Py.index (Player.get_coordinates (_canvas g) (_player g)) Player.BOTTOM_Y;
       out ← (if Float.geb bottom_y (Float.of_int _SCREEN_HEIGHT) then Return true
              else
                top_y ← Py.index (Player.get_coordinates (_canvas g) (_player g)) Player.TOP_Y;
                Return (Float.leb top_y (Float.of_int 0))
              : result bool);
       if (out : bool) then Return (Some true) else Return None)
    (Return (Some false)).

End Collisions.

Definition _manage_score (g : t) : result t :=
  obstacle ← Py.index (_obstacles g) 0;
  player_right ← Py.index (Player.get_coordinates (_canvas g) (_player g)) Player.RIGHT_X;
  obstacle_right ← Py.index (Obstacle.bottom_obstacle_position obstacle) Obstacle.RIGHT_X;
  if Float.eqb player_right obstacle_right then
    let scoreboard := Scoreboard.increase_score (_scoreboard g) in
    Return (Make (_canvas g) (_player g) (_obstacles g) scoreboard
              (Scoreboard.score scoreboard))
  else Return g.

End Game.

(** Truth value of what [manage_collisions] returns. *)
Definition truthy (v : option bool) : bool := default false v.

(** ** class Application

    The widgets are reduced to what the game loop reads and writes: which of
    the menu frame and the game canvas is packed, and the text of the score
    label.  [game_canvas] is the canvas of [game_object]: [__init__] and
    [check_restart] create the two together. *)

Module Application.

Record t : Type := Make {
  game_object : Game.t;
  menu_packed : bool;
  canvas_packed : bool;
  _score : string
}.

Definition game_canvas (a : t) : Canvas.t := Game._canvas (game_object a).

Definition set_game (a : t) (g : Game.t) : t :=
  Make g (menu_packed a) (canvas_packed a) (_score a).

Definition __init__ : t := Make (Game.__init__ Canvas.new) true false "".

Section Restart.
Context `{FindOverlapping}.

Definition check_restart (a : t) : result t :=
  collision ← Game.manage_collisions (game_object a);
  if truthy collision then
    let old_canvas := Canvas.delete (game_canvas a) [] in
    Return (Make (Game.__init__ Canvas.new) true false
              ("Score: " +:+ pretty (Game.score (game_object a))))
  else Return a.

End Restart.

End Application.

(** ** Game.run_game

    [run_game] ends with [self._window.after(self._REFRESH_SPEED,
    self.run_game)]: it arms the next tick of [self], whether or not
    [check_restart] has just replaced the application's game.  So a tick
    returns the application together with [self], the [Game] object whose
    [run_game] is armed again.

    [run_game] is the tick of the game on screen: [self] is the
    application's [game_object], and what the tick does to [self] the
    application sees.  When [check_restart] has made a new game, the [self]
    returned is no longer the application's [game_object]; its later ticks
    are [run_game_of], the tick of a game that the application has
    replaced, and the application's new game does not tick before
    [_play_game] calls its [run_game].  A tick reads the entropy that
    [random.randrange] consumes during it. *)

Section RunGame.
Context `{FindOverlapping}.

Definition run_game (entropy : nat -> Z) (a : Application.t)
  : result (Game.t * Application.t) :=
  let g := Application.game_object a in
  '(canvas, player) ← Player.move (Game._canvas g) (Game._player g);
  let g := Game.set_player (Game.set_canvas g canvas) player in
  g ← Game._manage_pipes entropy g;
  _ ← Game.manage_collisions g;
  g ← Game._manage_score g;
  a ← Application.check_restart (Application.set_game a g);
  Return (g, a).

Definition run_game_of (entropy : nat -> Z) (self : Game.t) (a : Application.t)
  : result (Game.t * Application.t) :=
  '(canvas, player) ← Player.move (Game._canvas self) (Game._player self);
  let self := Game.set_player (Game.set_canvas self canvas) player in
  self ← Game._manage_pipes entropy self;
  _ ← Game.manage_collisions self;
  self ← Game._manage_score self;
  a ← Application.check_restart a;
  Return (self, a).

(** [Application._play_game]: the Play button. *)
Definition _play_game (entropy : nat -> Z) (a : Application.t)
  : result (Game.t * Application.t) :=
  let a := Application.Make (Application.game_object a) false true (Application._score a) in
  run_game entropy a.

End RunGame.

(** ** Sessions

    [game_tick] is the part of [run_game] that works on the game itself
    (everything before [check_restart]); [deliver] hands the input events
    that arrived since the last tick to the handler bound by
    [Game.__init__]; [session_run] is the life of one [Game] object under a
    sequence of ticks, each with the events that precede it and the entropy
    it reads. *)

Section Session.
Context `{FindOverlapping}.

Definition game_tick (entropy : nat -> Z) (g : Game.t) : result Game.t :=
  '(canvas, player) ← Player.move (Game._canvas g) (Game._player g);
  let g := Game.set_player (Game.set_canvas g canvas) player in
  g ← Game._manage_pipes entropy g;
  _ ← Game.manage_collisions g;
  Game._manage_score g.

Definition deliver (events : list Event) (g : Game.t) : Game.t :=
  foldl Game._event_entered g events.

Fixpoint session_run (inputs : list (list Event * (nat -> Z))) (g : Game.t)
  : result Game.t :=
  match inputs with
  | [] => Return g
  | (events, entropy) :: inputs =>
      g ← game_tick entropy (deliver events g);
      session_run inputs g
  end.

End Session.

(** [n] consecutive calls of [_manage_pipes]: the obstacle stream on its
    own. *)
Fixpoint stream_run (entropies : list (nat -> Z)) (g : Game.t) : result Game.t :=
  match entropies with
  | [] => Return g
  | entropy :: entropies => g ← Game._manage_pipes entropy g; stream_run entropies g
  end.

(** [n] ticks of the entity on its own. *)
Fixpoint player_run (n : nat) (canvas : Canvas.t) (p : Player.t)
  : result (Canvas.t * Player.t) :=
  match n with
  | O => Return (canvas, p)
  | S n => '(canvas, p) ← Player.move canvas p; player_run n canvas p
  end.

(** [n] ticks of one obstacle pair on its own. *)
Fixpoint obstacle_run (n : nat) (canvas : Canvas.t) (o : Obstacle.t)
  : result (Canvas.t * Obstacle.t) :=
  match n with
  | O => Return (canvas, o)
  | S n => '(canvas, o) ← Obstacle.move_obstacle canvas o; obstacle_run n canvas o
  end.

(** What a tick shows of the entity: its bounding box and its velocity. *)
Definition observe (cp : Canvas.t * Player.t) : list Float.t * Float.t :=
  (Player.get_coordinates cp.1 cp.2, Player._y_velocity cp.2).

(** ** Geometry of the rectangles the game creates *)

Definition box (a b a' b' : Z) : Canvas.rect :=
  Canvas.Rect (Float.of_int a) (Float.of_int b) (Float.of_int a') (Float.of_int b').

Definition rect_coords (r : Canvas.rect) : list Float.t :=
  [Canvas.x1 r; Canvas.y1 r; Canvas.x2 r; Canvas.y2 r].

(** The two barriers of a pair whose left edge is at [x] and whose gap
    centre is [y]. *)
Definition top_box (x y : Z) : Canvas.rect := box x (y - 640) (x + 70) (y - 150).
Definition bottom_box (x y : Z) : Canvas.rect := box x y (x + 70) (y + 640).

(** Two rectangles share a point. *)
Definition intersects (r s : Canvas.rect) : bool :=
  Float.leb (Canvas.x1 r) (Canvas.x2 s) && Float.leb (Canvas.x1 s) (Canvas.x2 r)
  && Float.leb (Canvas.y1 r) (Canvas.y2 s) && Float.leb (Canvas.y1 s) (Canvas.y2 r).

(** ** The obstacle stream in outline

    The left edges and the flags of the pairs of the stream, and
    [_manage_pipes] on them.  The game is shown to follow this outline, which
    depends on nothing but the number of ticks. *)

Module Stream.

Record pair : Type := Pair { x : Z; halfway : bool; off_screen : bool }.

Definition move_pair (a : pair) : pair :=
  let x := x a - 2 in
  Pair x (x =? 180) (if x + 70 <=? 0 then true else off_screen a).

Fixpoint loop (fuel : nat) (i : nat) (s : list pair) : option (list pair) :=
  match fuel with
  | O => None
  | S fuel =>
      match s !! i with
      | None => Some s
      | Some a =>
          let s := if halfway a then s ++ [Pair 440 false false] else s in
          let s := if off_screen a then delete i s else s in
          loop fuel (S i) s
      end
  end.

Definition tick (s : list pair) : option (list pair) :=
  let s := move_pair <$> s in
  let s := if (length s =? 0)%nat then s ++ [Pair 360 false false] else s in
  loop (2 * length s + 1) 0 s.

(** The outline after [n] ticks of a new session. *)
Fixpoint after (n : nat) : option (list pair) :=
  match n with
  | O => Some []
  | S n => after n ≫= tick
  end.

(** From tick 91 on the outline repeats every 130 ticks. *)
Definition fold_tick (n : nat) : nat :=
  if (n <? 221)%nat then n else (91 + (n - 91) mod 130)%nat.

End Stream.

(** An obstacle of the game and the pair of the outline that stands for it:
    both rectangles are on the canvas where the outline says, the cached
    positions are the rectangles' coordinates, and the gap centre [y] is one
    that [randrange] can return. *)
Definition represents_with (y : Z) (c : Canvas.t) (o : Obstacle.t) (a : Stream.pair) : Prop :=
  200 ≤ y < 600 ∧
  Canvas.items c !! Obstacle._top_rectangle o = Some (top_box (Stream.x a) y) ∧
  Canvas.items c !! Obstacle._bottom_rectangle o = Some (bottom_box (Stream.x a) y) ∧
  Obstacle.top_obstacle_position o = rect_coords (top_box (Stream.x a) y) ∧
  Obstacle.bottom_obstacle_position o = rect_coords (bottom_box (Stream.x a) y) ∧
  Obstacle.halfway o = Stream.halfway a ∧
  Obstacle.off_screen o = Stream.off_screen a.

Definition represents (c : Canvas.t) (o : Obstacle.t) (a : Stream.pair) : Prop :=
  ∃ y : Z, represents_with y c o a.

(** The canvas items of a list of obstacles. *)
Definition rectangles (l : list Obstacle.t) : list nat :=
  l ≫= (fun o => [Obstacle._top_rectangle o; Obstacle._bottom_rectangle o]).

(** A game state as the program builds it: every obstacle is represented,
    no two objects share a canvas item, the canvas has not yet handed out
    the ids from [next_id] on, the entity's rectangle keeps its horizontal
    extent, the movement stack holds nothing but the string [True], and the
    game's score is the scoreboard's. *)
Record well_formed (g : Game.t) (s : list Stream.pair) : Prop := {
  wf_stream : Forall2 (represents (Game._canvas g)) (Game._obstacles g) s;
  wf_distinct :
    NoDup (Player.player_rectangle (Game._player g) :: rectangles (Game._obstacles g));
  wf_fresh : ∀ i, is_Some (Canvas.items (Game._canvas g) !! i) →
                  (i < Canvas.next_id (Game._canvas g))%nat;
  wf_player : ∃ t b, Canvas.items (Game._canvas g) !! Player.player_rectangle (Game._player g)
                     = Some (Canvas.Rect (Float.of_int 40) t (Float.of_int 80) b);
  wf_stack : ∃ m, Player._movement_stack (Game._player g) = replicate m "True"%string;
  wf_score : Game.score g = Scoreboard.score (Game._scoreboard g)
}.

(** The left edges for which the float arithmetic of a tick has been
    evaluated. *)
Definition in_range (s : list Stream.pair) : Prop :=
  Forall (fun a => -100 ≤ Stream.x a < 500) s.


(** Checking a property of every integer of a range by evaluation. *)
Fixpoint forall_range (lo : Z) (n : nat) (P : Z -> bool) : bool :=
  match n with
  | O => true
  | S n => P lo && forall_range (lo + 1) n P
  end.

(** [g'] differs from [g] in the obstacle stream only: the entity, its
    rectangle on the canvas and the score are the same. *)
Definition stream_only (g g' : Game.t) : Prop :=
  Game._player g' = Game._player g ∧
  Game._scoreboard g' = Game._scoreboard g ∧
  Game.score g' = Game.score g ∧
  Canvas.items (Game._canvas g') !! Player.player_rectangle (Game._player g)
  = Canvas.items (Game._canvas g) !! Player.player_rectangle (Game._player g).

(** What is checked of the outline at every tick by evaluation: the left
    edges are in range, no pair that is off screen has been left in the
    stream, the stream is not empty once a tick has run, and the next tick
    is defined. *)
Definition steady (n : nat) : bool :=
  match Stream.after n with
  | Some s =>
      forallb (fun a => (-100 <=? Stream.x a) && (Stream.x a <? 500)
                        && negb (Stream.off_screen a)) s
      && ((n =? 0)%nat || (0 <? length s)%nat)
      && bool_decide (is_Some (Stream.tick s))
  | None => false
  end.

(** The game with one more point. *)
Definition scored (g : Game.t) : Game.t :=
  Game.Make (Game._canvas g) (Game._player g) (Game._obstacles g)
    (Scoreboard.increase_score (Game._scoreboard g))
    (Scoreboard.score (Scoreboard.increase_score (Game._scoreboard g))).

(** The points a tick awards when it leaves the stream with outline [s]:
    one when the nearest pair's left edge is at 10, its right edge then
    being at 80, where the entity's right edge is. *)
Definition points (s : list Stream.pair) : Z :=
  match s with
  | a :: _ => if Stream.x a =? 10 then 1 else 0
  | [] => 0
  end.

#[global] Instance spec_float_eq_dec : EqDecision spec_float.
Proof. solve_decision. Defined.

#[global] Instance pair_eq_dec : EqDecision Stream.pair.
Proof. solve_decision. Defined.

(** An obstacle as [Obstacle.__init__] returns it, on rectangles that the
    canvas had not handed out when its next id was [n]. *)
Definition created (n : nat) (o : Obstacle.t) : Prop :=
  (∃ c x y, o = (Obstacle.__init__ c x y).2) ∧ (n ≤ Obstacle._top_rectangle o)%nat.

(** [o'] is [o] after one [move_obstacle]. *)
Definition moved (o o' : Obstacle.t) : Prop :=
  ∃ c c', Obstacle.move_obstacle c o = Return (c', o').

(** A concrete overlap test to run the game with: the items whose rectangle
    shares a point with the given one. *)
Definition rectangle_overlap : FindOverlapping :=
  fun canvas a b a' b' =>
    (map_to_list (Canvas.items canvas)) ≫=
      (fun ir => if intersects ir.2 (Canvas.Rect a b a' b') then [ir.1] else []).

(** ** Concrete inputs *)

(** [z / 2] as a float. *)
Definition of_halves (z : Z) : Float.t := binary_normalize Float.prec Float.emax z (-1) false.

(** The space bar and the left mouse button. *)
Definition space_key : Event := {| keysym := Some "space"%string; num := None |}.
Definition left_click : Event := {| keysym := None; num := Some 1 |}.

(** A tick before which no event arrives and in which [randrange] returns
    its lower bound. *)
Definition quiet_tick : list Event * (nat -> Z) := ([], fun _ => 0).

(** The application when a game has ended: the menu is packed, the score
    label shows the final score, and a new game waits on a new canvas. *)
Definition terminated (final_score : Z) : Application.t :=
  Application.Make (Game.__init__ Canvas.new) true false ("Score: " +:+ pretty final_score).

(** The cached boxes of [o] are those of a pair whose left edge is at [x]
    and whose gap centre is [y]. *)
Definition at_position (o : Obstacle.t) (x y : Z) : Prop :=
  Obstacle.top_obstacle_position o = rect_coords (top_box x y) ∧
  Obstacle.bottom_obstacle_position o = rect_coords (bottom_box x y).

(** The rounds that the second loop of [_manage_pipes] has yet to make for
    the pairs in [l]: one for every pair, and one more for the pair that a
    [halfway] pair makes it create. *)
Fixpoint rounds (l : list Obstacle.t) : nat :=
  match l with
  | [] => 0
  | o :: l => (if Obstacle.halfway o then 2 else 1) + rounds l
  end.

(** The identities of the pairs of the stream. *)
Definition tops (g : Game.t) : list nat := Obstacle._top_rectangle <$> Game._obstacles g.

(** Checked of the outline by evaluation: when the nearest pair is not off
    screen after its move, it is the nearest pair after the tick, two to the
    left. *)
Definition head_moves (s : list Stream.pair) : bool :=
  match s, Stream.tick s with
  | a :: _, Some (a' :: _) =>
      implb (negb (Stream.off_screen (Stream.move_pair a))) (Stream.x a' =? Stream.x a - 2)
  | _, _ => true
  end.

(** ** The identities of the pairs, in outline

    [Stream] with the identity of every pair beside it: [ids] are the
    canvas ids of the top rectangles of the pairs of the stream, in the
    order of the stream, and [next] is the id that the canvas hands out
    next.  A pair that [_manage_pipes] creates takes the two ids from
    [next] on. *)

Module Ids.

Definition t : Type := list Stream.pair * (list nat * nat).

Fixpoint loop (fuel : nat) (i : nat) (s : list Stream.pair) (ids : list nat) (next : nat)
  : option t :=
  match fuel with
  | O => None
  | S fuel =>
      match s !! i with
      | None => Some (s, (ids, next))
      | Some a =>
          let '(s, (ids, next)) :=
            if Stream.halfway a
            then (s ++ [Stream.Pair 440 false false], (ids ++ [next], S (S next)))
            else (s, (ids, next)) in
          let '(s, ids) :=
            if Stream.off_screen a then (delete i s, delete i ids) else (s, ids) in
          loop fuel (S i) s ids next
      end
  end.

Definition tick (s : list Stream.pair) (ids : list nat) (next : nat) : option t :=
  let s := Stream.move_pair <$> s in
  let '(s, (ids, next)) :=
    if (length s =? 0)%nat
    then (s ++ [Stream.Pair 360 false false], (ids ++ [next], S (S next)))
    else (s, (ids, next)) in
  loop (2 * length s + 1) 0 s ids next.

(** The outline and the identities after [n] ticks of a new game, whose
    entity has taken id 1. *)
Fixpoint after (n : nat) : option t :=
  match n with
  | O => Some ([], ([], 2%nat))
  | S n => '(s, (ids, next)) ← after n; tick s ids next
  end.

(** The identities [k] later. *)
Definition shift (k : nat) (r : t) : t :=
  (r.1, ((fun i => (i + k)%nat) <$> r.2.1, (r.2.2 + k)%nat)).

End Ids.

(** The identities in closed form.  The pairs of a game are numbered from 0
    in the order of their creation; pair [j] has the rectangles [2 j + 2]
    and [2 j + 3]. *)
Definition ids (n : nat) : list nat :=
  if (n =? 0)%nat then []
  else if (n <? 91)%nat then [2%nat]
  else
    let j := ((n - 91) / 130)%nat in
    let m := ((n - 91) mod 130)%nat in
    (if (m <? 125)%nat then [(2 * j + 2)%nat] else []) ++ [(2 * j + 4)%nat].

(** The id that the canvas of a game hands out next, after [n] ticks. *)
Definition next_id_after (n : nat) : nat :=
  if (n =? 0)%nat then 2
  else if (n <? 91)%nat then 4
  else (2 * ((n - 91) / 130) + 6)%nat.

(** Checked of the outline by evaluation. *)
Definition ids_match (n : nat) : bool :=
  bool_decide (snd <$> Ids.after n = Some (ids n, next_id_after n)).

(** ** The stream and the score as functions of the tick *)

(** The left edges of the pairs of the stream after [n] ticks of a game,
    nearest pair first.  The first pair is created at 360 on tick 1 and
    moves 2 to the left on every later tick; the tick that puts it at 180
    (tick 91) creates the next pair at 440, and so on every 130 ticks; a
    pair leaves the stream on the tick that puts its left edge at -70. *)
Definition positions (n : nat) : list Z :=
  if (n =? 0)%nat then []
  else if (n <? 91)%nat then [362 - 2 * Z.of_nat n]
  else
    let m := Z.of_nat ((n - 91) mod 130) in
    (if m <? 125 then [180 - 2 * m] else []) ++ [440 - 2 * m].

(** The ticks that award a point: tick 176 and every 130th tick after it. *)
Definition scoring (n : nat) : bool :=
  (130 <=? n - 46)%nat && ((n - 46) mod 130 =? 0)%nat.

(** The score after [n] ticks. *)
Definition score_after (n : nat) : Z := Z.of_nat ((n - 46) / 130).

(** Checked of the outline by evaluation: the left edges are [positions],
    a pair is [halfway] exactly at 180, and the tick awards a point exactly
    when it is a [scoring] tick. *)
Definition outline_matches (n : nat) : bool :=
  match Stream.after n with
  | Some s =>
      bool_decide (Stream.x <$> s = positions n)
      && forallb (fun a => Bool.eqb (Stream.halfway a) (Stream.x a =? 180)) s
      && (points s =? (if scoring n then 1 else 0))
  | None => false
  end.

(** ** The life of a pair

    The pairs of a game are numbered from 0 in the order of their creation.
    Pair [j] is created on tick [spawn_tick j] with its left edge at
    [spawn_x j], and its top rectangle is the canvas item [pair_id j].  It
    makes one move on each later tick, and [lifetime j] is the number of
    the move that puts its right edge at 0. *)
Definition spawn_tick (j : nat) : nat := if (j =? 0)%nat then 1 else (130 * j - 39)%nat.
Definition spawn_x (j : nat) : Z := if (j =? 0)%nat then 360 else 440.
Definition lifetime (j : nat) : nat := Z.to_nat ((spawn_x j + 70) / 2).
Definition pair_id (j : nat) : nat := (2 * j + 2)%nat.

(** Tick [n] is in the life of pair [j]: the pair has been created and has
    not yet made the move that puts its right edge at 0. *)
Definition alive (j n : nat) : Prop := (spawn_tick j ≤ n < spawn_tick j + lifetime j)%nat.

(** The left edge of pair [j] after tick [n]. *)
Definition pair_at (j n : nat) : Z := spawn_x j - 2 * (Z.of_nat n - Z.of_nat (spawn_tick j)).

(** ** The entity on its own

    The life of a [Player] alone on a canvas: before each tick the events
    that arrived since the last one are handed to [event_entered], and the
    tick is one call of [move]. *)
Fixpoint player_session (inputs : list (list Event)) (canvas : Canvas.t) (p : Player.t)
  : result (Canvas.t * Player.t) :=
  match inputs with
  | [] => Return (canvas, p)
  | events :: inputs =>
      '(canvas, p) ← Player.move canvas (foldl Player.event_entered p events);
      player_session inputs canvas p
  end.

(** The entity of a new game, on a canvas of its own. *)
Definition new_player : Canvas.t * Player.t := Player.__init__ Canvas.new 40 300 "space" 1.

(** An event that is neither the space bar nor the left mouse button. *)
Definition ignored (event : Event) : Prop :=
  keysym event ≠ Some "space"%string ∧ num event ≠ Some 1.

(** [n (n + 1) / 2] *)
Definition triangle (n : nat) : Z := Z.of_nat n * (Z.of_nat n + 1) / 2.

(** The space bar or the left mouse button. *)
Definition control (event : Event) : Prop :=
  keysym event = Some "space"%string ∨ num event = Some 1.

(** The entity alone after [n] ticks without a boost: it has fallen
    [n (n + 1) / 4] and its velocity is [n / 2]. *)
Definition fallen (n : nat) : bool :=
  match player_run n new_player.1 new_player.2 with
  | Return (c, p) =>
      bool_decide (Player.get_coordinates c p
                   = [Float.of_int 40; of_halves (600 + triangle n);
                      Float.of_int 80; of_halves (680 + triangle n)])
      && bool_decide (Player._y_velocity p = of_halves (Z.of_nat n))
      && bool_decide (Player._movement_stack p = [])
  | _ => false
  end.

(** The entity alone after [n] ticks with one boost before each: it has
    risen [8 n] and its velocity is -8 once it has moved. *)
Definition risen (n : nat) : bool :=
  match player_session (replicate n [space_key]) new_player.1 new_player.2 with
  | Return (c, p) =>
      bool_decide (Player.get_coordinates c p
                   = [Float.of_int 40; Float.of_int (300 - 8 * Z.of_nat n);
                      Float.of_int 80; Float.of_int (340 - 8 * Z.of_nat n)])
      && bool_decide (Player._y_velocity p = Float.of_int (if (n =? 0)%nat then 0 else -8))
      && bool_decide (Player._movement_stack p = [])
  | _ => false
  end.
(** The canvas [c'] has the items of [c] and one item for every id that
    was handed out in between: no item is deleted, and no id is handed out
    without an item. *)
Definition keeps (c c' : Canvas.t) : Prop :=
  (Canvas.next_id c ≤ Canvas.next_id c')%nat ∧
  ∀ i, is_Some (Canvas.items c' !! i)
       ↔ is_Some (Canvas.items c !! i) ∨ (Canvas.next_id c ≤ i < Canvas.next_id c')%nat.
(** * Properties *)

(** ** Evaluation over a range of integers *)

Lemma forall_range_spec (P : Z -> bool) (n : nat) (lo : Z) :
  forall_range lo n P = true → ∀ z, lo ≤ z < lo + Z.of_nat n → P z = true.
Proof.
  revert lo. induction n as [|n IH]; intros lo Hall z Hz; [lia|].
  simpl in Hall. apply andb_prop in Hall as [Hlo Hrest].
  destruct (decide (z = lo)) as [->|Hne]; [done|].
  apply (IH (lo + 1)); [done | lia].
Qed.

(** Proves [Q z] for the integer [z] of the context from bounds on [z], by
    evaluating [Q] on the [n] integers from [lo] on. *)
Ltac by_range lo n :=
  match goal with
  | z : Z |- _ =>
      pattern z;
      match goal with
      | |- ?Q z =>
          let P := constr:(fun z' : Z => bool_decide (Q z')) in
          apply (bool_decide_eq_true_1 (Q z));
          apply (forall_range_spec P n lo); [vm_compute; reflexivity | lia]
      end
  end.

(** ** Float arithmetic on the coordinates of the game

    All of it is exact: the coordinates of the obstacles are small
    integers. *)

Lemma add_speed (x : Z) :
  -100 ≤ x < 600 → Float.add (Float.of_int x) (Float.of_int (-2)) = Float.of_int (x - 2).
Proof. intros Hx. by_range (-100) 700%nat. Qed.

Lemma add_zero (v : Z) :
  -500 ≤ v < 1300 → Float.add (Float.of_int v) (Float.of_int 0) = Float.of_int v.
Proof. intros Hv. by_range (-500) 1800%nat. Qed.

Lemma width_ordered (x : Z) :
  -102 ≤ x < 600 → Float.gtb (Float.of_int x) (Float.of_int (x + 70)) = false.
Proof. intros Hx. by_range (-102) 702%nat. Qed.

Lemma top_ordered (y : Z) :
  200 ≤ y < 600 → Float.gtb (Float.of_int (y - 640)) (Float.of_int (y - 150)) = false.
Proof. intros Hy. by_range 200 400%nat. Qed.

Lemma top_swapped (y : Z) :
  200 ≤ y < 600 → Float.gtb (Float.of_int (y - 150)) (Float.of_int (y - 640)) = true.
Proof. intros Hy. by_range 200 400%nat. Qed.

Lemma bottom_ordered (y : Z) :
  200 ≤ y < 600 → Float.gtb (Float.of_int y) (Float.of_int (y + 640)) = false.
Proof. intros Hy. by_range 200 400%nat. Qed.

Lemma gap_open (y : Z) :
  200 ≤ y < 600 → Float.leb (Float.of_int y) (Float.of_int (y - 150)) = false.
Proof. intros Hy. by_range 200 400%nat. Qed.

Lemma eq_midpoint (x : Z) :
  -102 ≤ x < 600 →
  Float.eqb (Float.of_int x)
    (Float.div (Float.of_int Obstacle._SCREEN_WIDTH) (Float.of_int 2)) = (x =? 180).
Proof. intros Hx. by_range (-102) 702%nat. Qed.

Lemma le_zero (v : Z) :
  -102 ≤ v < 700 → Float.leb (Float.of_int v) (Float.of_int 0) = (v <=? 0).
Proof. intros Hv. by_range (-102) 802%nat. Qed.

Lemma eq_player_right (v : Z) :
  -102 ≤ v < 700 → Float.eqb (Float.of_int 80) (Float.of_int v) = (80 =? v).
Proof. intros Hv. by_range (-102) 802%nat. Qed.

(** The literals are the doubles nearest to 1/10 and to 16/10: the distance
    is below half a unit in the last place. *)
Lemma literals_nearest :
  Float.lit_0_1 = S754_finite false 7205759403792794 (-56) ∧
  (2 * 7205759403792794 - 1) * 10 < 2 ^ 57 < (2 * 7205759403792794 + 1) * 10 ∧
  Float.lit_1_6 = S754_finite false 7205759403792794 (-52) ∧
  (2 * 7205759403792794 - 1) * 10 < 16 * 2 ^ 53 < (2 * 7205759403792794 + 1) * 10 ∧
  valid_binary Float.prec Float.emax Float.lit_0_1 = true ∧
  valid_binary Float.prec Float.emax Float.lit_1_6 = true.
Proof. repeat split; try reflexivity; vm_compute; reflexivity. Qed.

(** ** Rectangles *)

Lemma translate_top (x y : Z) :
  -100 ≤ x < 500 → 200 ≤ y < 600 →
  Canvas.translate (Float.of_int Obstacle._MOVEMENT_SPEED) (Float.of_int 0) (top_box x y)
  = top_box (x - 2) y.
Proof.
  intros Hx Hy. unfold Canvas.translate, Canvas.normalize, top_box, box,
    Obstacle._MOVEMENT_SPEED. simpl.
  rewrite !add_speed, !add_zero by lia.
  replace (x + 70 - 2) with (x - 2 + 70) by lia.
  by rewrite top_ordered, width_ordered by lia.
Qed.

Lemma translate_bottom (x y : Z) :
  -100 ≤ x < 500 → 200 ≤ y < 600 →
  Canvas.translate (Float.of_int Obstacle._MOVEMENT_SPEED) (Float.of_int 0) (bottom_box x y)
  = bottom_box (x - 2) y.
Proof.
  intros Hx Hy. unfold Canvas.translate, Canvas.normalize, bottom_box, box,
    Obstacle._MOVEMENT_SPEED. simpl.
  rewrite !add_speed, !add_zero by lia.
  replace (x + 70 - 2) with (x - 2 + 70) by lia.
  by rewrite bottom_ordered, width_ordered by lia.
Qed.

Lemma normalize_top (x y : Z) :
  -100 ≤ x < 500 → 200 ≤ y < 600 →
  Canvas.normalize (box x (y - Obstacle._OBSTACLE_GAP) (x + Obstacle._OBSTACLE_WIDTH)
                      (y - Obstacle._SCREEN_HEIGHT)) = top_box x y.
Proof.
  intros Hx Hy. unfold Canvas.normalize, top_box, box. simpl.
  by rewrite top_swapped, width_ordered by lia.
Qed.

Lemma normalize_bottom (x y : Z) :
  -100 ≤ x < 500 → 200 ≤ y < 600 →
  Canvas.normalize (box x y (x + Obstacle._OBSTACLE_WIDTH) (y + Obstacle._SCREEN_HEIGHT))
  = bottom_box x y.
Proof.
  intros Hx Hy. unfold Canvas.normalize, bottom_box, box. simpl.
  by rewrite bottom_ordered, width_ordered by lia.
Qed.

(** The barriers of a pair share no point: the top barrier ends 150 above
    the line where the bottom barrier starts. *)
Lemma barriers_apart (x y : Z) :
  200 ≤ y < 600 → intersects (top_box x y) (bottom_box x y) = false.
Proof.
  intros Hy. unfold intersects, top_box, bottom_box, box. simpl.
  rewrite gap_open by lia. by rewrite !andb_false_r.
Qed.

(** ** The result monad *)

Lemma bind_Return {A B : Type} (a : A) (k : A -> result B) : (Return a ≫= k) = k a.
Proof. reflexivity. Qed.

Lemma bind_Raise {A B : Type} (e : exn) (k : A -> result B) : (Raise e ≫= k) = Raise e.
Proof. reflexivity. Qed.

(** ** One obstacle *)

Lemma canvas_delete_nil (c : Canvas.t) : Canvas.delete c [] = c.
Proof. by destruct c. Qed.

Lemma coords_lookup (c : Canvas.t) (i : nat) (r : Canvas.rect) :
  Canvas.items c !! i = Some r → Canvas.coords c i = rect_coords r.
Proof. intros Hi. unfold Canvas.coords. by rewrite Hi. Qed.

(** A represented obstacle moves as its pair of the outline does, and
    touches no other item of the canvas. *)
Lemma move_obstacle_represents_with (y : Z) (c : Canvas.t) (o : Obstacle.t)
  (a : Stream.pair) :
  represents_with y c o a → -100 ≤ Stream.x a < 500 →
  Obstacle._top_rectangle o ≠ Obstacle._bottom_rectangle o →
  ∃ c' o',
    Obstacle.move_obstacle c o = Return (c', o') ∧
    represents_with y c' o' (Stream.move_pair a) ∧
    Obstacle._top_rectangle o' = Obstacle._top_rectangle o ∧
    Obstacle._bottom_rectangle o' = Obstacle._bottom_rectangle o ∧
    Canvas.next_id c' = Canvas.next_id c ∧
    (∀ i, i ≠ Obstacle._top_rectangle o → i ≠ Obstacle._bottom_rectangle o →
          Canvas.items c' !! i = Canvas.items c !! i) ∧
    (∀ i, is_Some (Canvas.items c' !! i) ↔ is_Some (Canvas.items c !! i)).
Proof.
  intros (Hy & Htop & Hbot & Hpt & Hpb & Hh & Hoff) Hx Hne.
  set (c1 := Canvas.move c (Obstacle._top_rectangle o)
               (Float.of_int Obstacle._MOVEMENT_SPEED) (Float.of_int 0)).
  set (c2 := Canvas.move c1 (Obstacle._bottom_rectangle o)
               (Float.of_int Obstacle._MOVEMENT_SPEED) (Float.of_int 0)).
  assert (Hc1 : Canvas.items c1
                = <[Obstacle._top_rectangle o := top_box (Stream.x a - 2) y]> (Canvas.items c)).
  { unfold c1, Canvas.move. rewrite Htop. simpl. by rewrite translate_top. }
  assert (Hc2 : Canvas.items c2
                = <[Obstacle._bottom_rectangle o := bottom_box (Stream.x a - 2) y]>
                    (<[Obstacle._top_rectangle o := top_box (Stream.x a - 2) y]> (Canvas.items c))).
  { unfold c2, Canvas.move. rewrite Hc1, lookup_insert_ne, Hbot by done. simpl.
    by rewrite translate_bottom. }
  assert (Hn : Canvas.next_id c2 = Canvas.next_id c).
  { unfold c2, c1, Canvas.move. rewrite Htop. simpl.
    rewrite lookup_insert_ne, Hbot by done. done. }
  assert (Ht2 : Canvas.items c2 !! Obstacle._top_rectangle o
                = Some (top_box (Stream.x a - 2) y)).
  { rewrite Hc2, lookup_insert_ne, lookup_insert_eq by done. done. }
  assert (Hb2 : Canvas.items c2 !! Obstacle._bottom_rectangle o
                = Some (bottom_box (Stream.x a - 2) y)).
  { by rewrite Hc2, lookup_insert_eq. }
  eexists c2, _. split; [|split; [|split; [|split; [|split; [|split]]]]].
  - unfold Obstacle.move_obstacle. fold c1. fold c2.
    unfold Obstacle._check_obstacle_positions.
    cbn [Obstacle.bottom_obstacle_position].
    rewrite (coords_lookup _ _ _ Hb2). reflexivity.
  - unfold represents_with, Stream.move_pair.
    cbn [Obstacle._top_rectangle Obstacle._bottom_rectangle Obstacle.top_obstacle_position
         Obstacle.bottom_obstacle_position Obstacle.halfway Obstacle.off_screen
         Stream.x Stream.halfway Stream.off_screen].
    rewrite (coords_lookup _ _ _ Ht2).
    cbn [bottom_box box Canvas.x1 Canvas.x2].
    rewrite eq_midpoint, le_zero by lia. rewrite Hoff. done.
  - done.
  - done.
  - done.
  - intros i Hi1 Hi2. by rewrite Hc2, !lookup_insert_ne.
  - intros i. rewrite Hc2.
    destruct (decide (i = Obstacle._bottom_rectangle o)) as [->|?];
      [rewrite lookup_insert_eq, Hbot; by split|rewrite lookup_insert_ne by done].
    destruct (decide (i = Obstacle._top_rectangle o)) as [->|?];
      [rewrite lookup_insert_eq, Htop; by split|by rewrite lookup_insert_ne].
Qed.

Lemma move_obstacle_represents (c : Canvas.t) (o : Obstacle.t) (a : Stream.pair) :
  represents c o a → -100 ≤ Stream.x a < 500 →
  Obstacle._top_rectangle o ≠ Obstacle._bottom_rectangle o →
  ∃ c' o',
    Obstacle.move_obstacle c o = Return (c', o') ∧
    represents c' o' (Stream.move_pair a) ∧
    Obstacle._top_rectangle o' = Obstacle._top_rectangle o ∧
    Obstacle._bottom_rectangle o' = Obstacle._bottom_rectangle o ∧
    Canvas.next_id c' = Canvas.next_id c ∧
    (∀ i, i ≠ Obstacle._top_rectangle o → i ≠ Obstacle._bottom_rectangle o →
          Canvas.items c' !! i = Canvas.items c !! i) ∧
    (∀ i, is_Some (Canvas.items c' !! i) ↔ is_Some (Canvas.items c !! i)).
Proof.
  intros [y Hrep] Hx Hne.
  destruct (move_obstacle_represents_with y c o a Hrep Hx Hne)
    as (c' & o' & Hmove & Hrep' & Hrest).
  exists c', o'. split; [done|]. split; [by exists y|done].
Qed.

(** ** All obstacles *)

Lemma rectangles_cons (o : Obstacle.t) (l : list Obstacle.t) :
  rectangles (o :: l)
  = Obstacle._top_rectangle o :: Obstacle._bottom_rectangle o :: rectangles l.
Proof. reflexivity. Qed.

Lemma rectangles_app (l k : list Obstacle.t) :
  rectangles (l ++ k) = rectangles l ++ rectangles k.
Proof. unfold rectangles. apply bind_app. Qed.

Lemma represents_frame (c c' : Canvas.t) (o : Obstacle.t) (a : Stream.pair) :
  represents c o a →
  Canvas.items c' !! Obstacle._top_rectangle o = Canvas.items c !! Obstacle._top_rectangle o →
  Canvas.items c' !! Obstacle._bottom_rectangle o
  = Canvas.items c !! Obstacle._bottom_rectangle o →
  represents c' o a.
Proof.
  intros (y & Hy & Htop & Hbot & Hrest) Ht Hb. exists y.
  unfold represents_with. rewrite Ht, Hb. done.
Qed.

Lemma represents_frame_list (c c' : Canvas.t) (l : list Obstacle.t) (s : list Stream.pair) :
  Forall2 (represents c) l s →
  (∀ i, i ∈ rectangles l → Canvas.items c' !! i = Canvas.items c !! i) →
  Forall2 (represents c') l s.
Proof.
  induction 1 as [|o a l s Ho Hl IH]; intros Hframe; [constructor|].
  rewrite rectangles_cons in Hframe. constructor.
  - apply (represents_frame c); [done | apply Hframe; rewrite !elem_of_cons; auto..].
  - apply IH. intros i Hi. apply Hframe. rewrite !elem_of_cons. auto.
Qed.

Lemma move_obstacles_represents (c : Canvas.t) (l : list Obstacle.t) (s : list Stream.pair) :
  Forall2 (represents c) l s →
  in_range s →
  NoDup (rectangles l) →
  ∃ c' l',
    Game.move_obstacles c l = Return (c', l') ∧
    Forall2 (represents c') l' (Stream.move_pair <$> s) ∧
    rectangles l' = rectangles l ∧
    Canvas.next_id c' = Canvas.next_id c ∧
    (∀ i, i ∉ rectangles l → Canvas.items c' !! i = Canvas.items c !! i) ∧
    (∀ i, is_Some (Canvas.items c' !! i) ↔ is_Some (Canvas.items c !! i)).
Proof.
  revert c s. induction l as [|o l IH]; intros c s Hrep Hrange Hnd.
  - apply Forall2_nil_inv_l in Hrep as ->. exists c, []. simpl.
    repeat split; done.
  - apply Forall2_cons_inv_l in Hrep as (a & s' & Ho & Hl & ->).
    apply Forall_cons in Hrange as [Ha Hrange].
    rewrite rectangles_cons in Hnd.
    apply NoDup_cons in Hnd as [Htop Hnd]. apply NoDup_cons in Hnd as [Hbot Hnd].
    assert (Hne : Obstacle._top_rectangle o ≠ Obstacle._bottom_rectangle o).
    { intros Heq. apply Htop. rewrite Heq. apply elem_of_cons. by left. }
    destruct (move_obstacle_represents c o a Ho Ha Hne) as
      (c1 & o1 & Hmove & Ho1 & Ht1 & Hb1 & Hn1 & Hframe1 & Hdom1).
    assert (Hl1 : Forall2 (represents c1) l s').
    { apply (represents_frame_list c); [done|].
      intros i Hi. apply Hframe1; intros ->; [apply Htop; apply elem_of_cons; by right|done]. }
    destruct (IH c1 s' Hl1 Hrange Hnd) as (c' & l' & Hmoves & Hl' & Hrect & Hn & Hframe & Hdom).
    exists c', (o1 :: l'). split.
    { cbn [Game.move_obstacles]. rewrite Hmove, bind_Return, Hmoves. done. }
    split; [|split; [|split; [|split]]].
    + constructor; [|done].
      apply (represents_frame c1); [done|apply Hframe..].
      * rewrite Ht1. intros Hin. apply Htop, elem_of_cons. by right.
      * by rewrite Hb1.
    + rewrite !rectangles_cons. by rewrite Ht1, Hb1, Hrect.
    + congruence.
    + intros i Hi. rewrite rectangles_cons, !not_elem_of_cons in Hi.
      destruct Hi as (? & ? & ?). rewrite Hframe by done. by apply Hframe1.
    + intros i. by rewrite Hdom, Hdom1.
Qed.

(** ** Spawning and removing *)

Lemma randrange_pipes (e : Z) :
  ∃ y, 200 ≤ y < 600 ∧
    Py.randrange Game._MIN_RANGE_OF_PIPES Game._MAX_RANGE_OF_PIPES e = Return y ∧
    y = 200 + e mod 400.
Proof.
  exists (200 + e mod 400). split; [|split; reflexivity].
  pose proof (Z.mod_pos_bound e 400). lia.
Qed.

Lemma obstacle_init (c : Canvas.t) (x y : Z) :
  -100 ≤ x < 500 → 200 ≤ y < 600 →
  Obstacle.__init__ c x y
  = (Canvas.Make (<[S (Canvas.next_id c) := bottom_box x y]>
                    (<[Canvas.next_id c := top_box x y]> (Canvas.items c)))
       (S (S (Canvas.next_id c))),
     Obstacle.Make (Canvas.next_id c) (S (Canvas.next_id c))
       (rect_coords (top_box x y)) (rect_coords (bottom_box x y)) false false).
Proof.
  intros Hx Hy. unfold Obstacle.__init__, Canvas.create_rectangle.
  fold (box x (y - Obstacle._OBSTACLE_GAP) (x + Obstacle._OBSTACLE_WIDTH)
          (y - Obstacle._SCREEN_HEIGHT)).
  fold (box x y (x + Obstacle._OBSTACLE_WIDTH) (y + Obstacle._SCREEN_HEIGHT)).
  rewrite normalize_top, normalize_bottom by done.
  cbn [Canvas.next_id Canvas.items]. unfold Canvas.coords. cbn [Canvas.items].
  rewrite lookup_insert_eq, lookup_insert_ne, lookup_insert_eq by lia. done.
Qed.

(** [l.remove(o)] for the obstacle at position [i] of a list of distinct
    objects drops position [i]. *)
Lemma remove_at (l : list Obstacle.t) (i : nat) (o : Obstacle.t) :
  NoDup (Obstacle._top_rectangle <$> l) → l !! i = Some o →
  Py.remove Obstacle.is_ o l = Return (delete i l).
Proof.
  revert i. induction l as [|o' l IH]; intros i Hnd Hi; [done|].
  rewrite fmap_cons in Hnd. apply NoDup_cons in Hnd as [Hnotin Hnd].
  destruct i as [|i]; simpl in Hi.
  - injection Hi as ->. simpl. unfold Obstacle.is_. by rewrite Nat.eqb_refl.
  - simpl. unfold Obstacle.is_ at 1.
    destruct (Nat.eqb_spec (Obstacle._top_rectangle o) (Obstacle._top_rectangle o'))
      as [Heq|Hne].
    + exfalso. apply Hnotin. rewrite <- Heq.
      apply list_elem_of_fmap. exists o. split; [done|].
      by apply list_elem_of_lookup_2 with i.
    + by rewrite (IH i Hnd Hi).
Qed.

Lemma tops_sublist (l : list Obstacle.t) :
  (Obstacle._top_rectangle <$> l) `sublist_of` rectangles l.
Proof.
  induction l as [|o l IH]; [constructor|].
  rewrite rectangles_cons, fmap_cons. constructor. by constructor.
Qed.

Lemma represents_is_Some (c : Canvas.t) (l : list Obstacle.t) (s : list Stream.pair) (i : nat) :
  Forall2 (represents c) l s → i ∈ rectangles l → is_Some (Canvas.items c !! i).
Proof.
  induction 1 as [|o a l s (y & _ & Ht & Hb & _) _ IH]; [by intros ?%elem_of_nil|].
  rewrite rectangles_cons, !elem_of_cons. intros [->|[->|Hi]]; eauto.
Qed.

Lemma stream_only_refl (g : Game.t) : stream_only g g.
Proof. done. Qed.

Lemma stream_only_trans (g1 g2 g3 : Game.t) :
  stream_only g1 g2 → stream_only g2 g3 → stream_only g1 g3.
Proof.
  intros (Hp & Hs & Hn & Hc) (Hp' & Hs' & Hn' & Hc'). rewrite Hp in Hc'.
  repeat split; congruence.
Qed.

Lemma player_below_next (g : Game.t) (s : list Stream.pair) :
  well_formed g s →
  (Player.player_rectangle (Game._player g) < Canvas.next_id (Game._canvas g))%nat.
Proof. intros Hwf. destruct (wf_player g s Hwf) as (t & b & Hp). apply Hwf. eauto. Qed.

Lemma rectangles_below_next (g : Game.t) (s : list Stream.pair) (i : nat) :
  well_formed g s → i ∈ rectangles (Game._obstacles g) →
  (i < Canvas.next_id (Game._canvas g))%nat.
Proof.
  intros Hwf Hi. apply Hwf. eapply represents_is_Some; [apply Hwf|done].
Qed.

(** Appending a new pair keeps the game well formed. *)
Lemma well_formed_spawn (g : Game.t) (s : list Stream.pair) (x y : Z) :
  well_formed g s → -100 ≤ x < 500 → 200 ≤ y < 600 →
  ∀ c' o, Obstacle.__init__ (Game._canvas g) x y = (c', o) →
  let g' := Game.set_obstacles (Game.set_canvas g c') (Game._obstacles g ++ [o]) in
  well_formed g' (s ++ [Stream.Pair x false false]) ∧ stream_only g g'.
Proof.
  intros Hwf Hx Hy c' o Hinit. rewrite obstacle_init in Hinit by done.
  injection Hinit as <- <-. intros g'.
  set (n := Canvas.next_id (Game._canvas g)).
  pose proof (player_below_next g s Hwf) as Hpn. fold n in Hpn.
  assert (Hold : ∀ i, (i < n)%nat →
            (<[S n := bottom_box x y]> (<[n := top_box x y]> (Canvas.items (Game._canvas g))))
              !! i = Canvas.items (Game._canvas g) !! i).
  { intros i Hi. rewrite !lookup_insert_ne by lia. done. }
  split; [split|].
  - cbn. apply Forall2_app.
    + apply (represents_frame_list (Game._canvas g)); [apply Hwf|].
      intros i Hi. cbn. apply Hold. by apply (rectangles_below_next g s).
    + constructor; [|constructor]. exists y. unfold represents_with. cbn.
      rewrite lookup_insert_ne, !lookup_insert_eq by lia. done.
  - cbn. rewrite rectangles_app. change (?a :: ?l ++ ?k) with ((a :: l) ++ k).
    apply NoDup_app. split; [apply Hwf|]. split.
    + intros i Hi. cbn. rewrite !elem_of_cons, elem_of_nil.
      assert (i < n)%nat; [|lia].
      apply elem_of_cons in Hi as [->|Hi]; [done|by apply (rectangles_below_next g s)].
    + cbn. apply NoDup_cons. split; [rewrite elem_of_cons, elem_of_nil; lia|].
      apply NoDup_singleton.
  - intros i. cbn. fold n.
    destruct (decide (i = S n)) as [->|?]; [lia|rewrite lookup_insert_ne by done].
    destruct (decide (i = n)) as [->|?]; [lia|rewrite lookup_insert_ne by done].
    intros Hi. apply (wf_fresh g s Hwf) in Hi. fold n in Hi. lia.
  - cbn. fold n. rewrite Hold by done. apply Hwf.
  - apply Hwf.
  - apply Hwf.
  - repeat split; try done. cbn. fold n. by rewrite Hold.
Qed.

(** Removing the obstacle at position [i] keeps the game well formed. *)
Lemma well_formed_remove (g : Game.t) (s : list Stream.pair) (i : nat) (o : Obstacle.t) :
  well_formed g s → Game._obstacles g !! i = Some o →
  Py.remove Obstacle.is_ o (Game._obstacles g) = Return (delete i (Game._obstacles g)) ∧
  well_formed (Game.set_obstacles g (delete i (Game._obstacles g))) (delete i s).
Proof.
  intros Hwf Hi.
  assert (Hnd : NoDup (rectangles (Game._obstacles g))).
  { pose proof (wf_distinct g s Hwf) as Hnd. by apply NoDup_cons in Hnd as [_ Hnd]. }
  split.
  - apply remove_at; [|done]. exact (sublist_NoDup _ _ Hnd (tops_sublist _)).
  - assert (Hsub : rectangles (delete i (Game._obstacles g))
                     `sublist_of` rectangles (Game._obstacles g)).
    { unfold rectangles. apply bind_sublist, sublist_delete. }
    split; cbn.
    + apply Forall2_delete, Hwf.
    + pose proof (wf_distinct g s Hwf) as Hd.
      refine (sublist_NoDup _ _ Hd _). by apply sublist_skip.
    + apply Hwf.
    + apply Hwf.
    + apply Hwf.
    + apply Hwf.
Qed.

(** ** The stream follows its outline *)

Lemma manage_pipes_loop_outline (entropy : nat -> Z) (fuel : nat) :
  ∀ (n i : nat) (g : Game.t) (s s' : list Stream.pair),
    well_formed g s → Stream.loop fuel i s = Some s' →
    ∃ g', Game._manage_pipes_loop fuel entropy n i g = Return g' ∧
          well_formed g' s' ∧ stream_only g g'.
Proof.
  induction fuel as [|fuel IH]; intros n i g s s' Hwf Hloop; [done|].
  cbn [Stream.loop] in Hloop. cbn [Game._manage_pipes_loop].
  destruct (s !! i) as [a|] eqn:Hs.
  - destruct (Forall2_lookup_r _ _ _ _ _ (wf_stream g s Hwf) Hs) as (o & Ho & Hrep).
    rewrite Ho.
    assert (Hflags : Obstacle.halfway o = Stream.halfway a ∧
                     Obstacle.off_screen o = Stream.off_screen a).
    { destruct Hrep as (y & _ & _ & _ & _ & _ & Hh & Hf). done. }
    destruct Hflags as [-> ->].
    set (s1 := if Stream.halfway a then s ++ [Stream.Pair 440 false false] else s) in Hloop.
    assert (Hstep1 : ∃ n1 g1,
      (if Stream.halfway a then
         y ← Py.randrange Game._MIN_RANGE_OF_PIPES Game._MAX_RANGE_OF_PIPES (entropy n);
         let '(canvas, new_obstacle) :=
           Obstacle.__init__ (Game._canvas g)
             (Game._SCREEN_WIDTH + Game._DISTANCE_BETWEEN_OBSTACLES) y in
         Return (S n, Game.set_obstacles (Game.set_canvas g canvas)
                        (Game._obstacles g ++ [new_obstacle]))
       else Return (n, g)) = Return (n1, g1) ∧
      well_formed g1 s1 ∧ stream_only g g1 ∧ Game._obstacles g1 !! i = Some o).
    { unfold s1. destruct (Stream.halfway a).
      - destruct (randrange_pipes (entropy n)) as (y & Hy & -> & _).
        rewrite bind_Return.
        destruct (Obstacle.__init__ (Game._canvas g)
                    (Game._SCREEN_WIDTH + Game._DISTANCE_BETWEEN_OBSTACLES) y)
          as [c' o'] eqn:Hinit.
        destruct (well_formed_spawn g s 440 y Hwf ltac:(lia) Hy c' o' Hinit) as [Hwf1 Hso].
        eexists _, _. split; [reflexivity|]. split; [done|]. split; [done|].
        cbn. rewrite lookup_app_l; [done|]. by apply lookup_lt_Some with o.
      - by exists n, g. }
    destruct Hstep1 as (n1 & g1 & -> & Hwf1 & Hso1 & Ho1).
    rewrite bind_Return. cbn beta iota.
    set (s2 := if Stream.off_screen a then delete i s1 else s1) in Hloop.
    assert (Hstep2 : ∃ g2,
      (if Stream.off_screen a then
         l ← Py.remove Obstacle.is_ o (Game._obstacles g1);
         Return (Game.set_obstacles
                   (Game.set_canvas g1 (Canvas.delete (Game._canvas g1) [])) l)
       else Return g1) = Return g2 ∧
      well_formed g2 s2 ∧ stream_only g1 g2).
    { unfold s2. destruct (Stream.off_screen a).
      - destruct (well_formed_remove g1 s1 i o Hwf1 Ho1) as [-> Hwf2].
        eexists. split; [reflexivity|]. rewrite canvas_delete_nil.
        split; [|done]. by destruct g1.
      - by exists g1. }
    destruct Hstep2 as (g2 & -> & Hwf2 & Hso2).
    rewrite bind_Return.
    destruct (IH n1 (S i) g2 s2 s' Hwf2 Hloop) as (g' & Hrun & Hwf' & Hso').
    exists g'. split; [done|]. split; [done|].
    eauto using stream_only_trans.
  - injection Hloop as <-.
    assert (Hnone : Game._obstacles g !! i = None).
    { apply lookup_ge_None. rewrite (Forall2_length _ _ _ (wf_stream g s Hwf)).
      by apply lookup_ge_None. }
    rewrite Hnone. by exists g.
Qed.

Ltac game_fields :=
  cbn [Game._canvas Game._player Game._obstacles Game._scoreboard Game.score
       Game.set_canvas Game.set_player Game.set_obstacles].

Lemma manage_pipes_outline (entropy : nat -> Z) (g : Game.t) (s s' : list Stream.pair) :
  well_formed g s → in_range s → Stream.tick s = Some s' →
  ∃ g', Game._manage_pipes entropy g = Return g' ∧ well_formed g' s' ∧ stream_only g g'.
Proof.
  intros Hwf Hrange Htick. unfold Game._manage_pipes.
  pose proof (wf_distinct g s Hwf) as Hnd. apply NoDup_cons in Hnd as [Hpr Hnd].
  destruct (move_obstacles_represents _ _ _ (wf_stream g s Hwf) Hrange Hnd)
    as (c1 & l1 & -> & Hrep1 & Hrect1 & Hnext1 & Hframe1 & Hdom1).
  rewrite bind_Return. cbn beta iota zeta.
  set (g1 := Game.set_obstacles (Game.set_canvas g c1) l1).
  assert (Hwf1 : well_formed g1 (Stream.move_pair <$> s)).
  { split; unfold g1; game_fields.
    - done.
    - rewrite Hrect1. apply Hwf.
    - intros i Hi. rewrite Hnext1. by apply Hwf, Hdom1.
    - rewrite Hframe1 by done. apply Hwf.
    - apply Hwf.
    - apply Hwf. }
  assert (Hso1 : stream_only g g1).
  { repeat split; try done. unfold g1. game_fields. by apply Hframe1. }
  unfold Stream.tick in Htick.
  set (s1 := Stream.move_pair <$> s) in *.
  assert (Hlen1 : length (Game._obstacles g1) = length s1).
  { apply (Forall2_length _ _ _ (wf_stream _ _ Hwf1)). }
  rewrite Hlen1.
  set (s2 := if (length s1 =? 0)%nat then s1 ++ [Stream.Pair 360 false false] else s1) in Htick.
  assert (Hstep : ∃ n2 g2,
    (if (length s1 =? 0)%nat then
       y ← Py.randrange Game._MIN_RANGE_OF_PIPES Game._MAX_RANGE_OF_PIPES (entropy 0%nat);
       let '(canvas, obstacle) := Obstacle.__init__ (Game._canvas g1) Game._SCREEN_WIDTH y in
       Return (1%nat, Game.set_obstacles (Game.set_canvas g1 canvas)
                        (Game._obstacles g1 ++ [obstacle]))
     else Return (0%nat, g1)) = Return (n2, g2) ∧
    well_formed g2 s2 ∧ stream_only g1 g2).
  { unfold s2. destruct (length s1 =? 0)%nat.
    - destruct (randrange_pipes (entropy 0%nat)) as (y & Hy & -> & _).
      rewrite bind_Return.
      destruct (Obstacle.__init__ (Game._canvas g1) Game._SCREEN_WIDTH y)
        as [c' o'] eqn:Hinit.
      destruct (well_formed_spawn g1 s1 360 y Hwf1 ltac:(lia) Hy c' o' Hinit) as [Hwf2 Hso2].
      by eexists _, _.
    - by exists 0%nat, g1. }
  destruct Hstep as (n2 & g2 & -> & Hwf2 & Hso2).
  rewrite bind_Return. cbn beta iota.
  rewrite (Forall2_length _ _ _ (wf_stream _ _ Hwf2)).
  destruct (manage_pipes_loop_outline entropy _ n2 0 g2 s2 s' Hwf2 Htick)
    as (g' & Hloop & Hwf' & Hso').
  exists g'. split; [done|]. split; [done|].
  eauto using stream_only_trans.
Qed.

(** ** The second loop of [_manage_pipes] ends *)

Lemma rounds_app (l k : list Obstacle.t) : rounds (l ++ k) = (rounds l + rounds k)%nat.
Proof. induction l as [|o l IH]; [done|]. cbn. rewrite IH. lia. Qed.

Lemma rounds_le (l : list Obstacle.t) : (rounds l ≤ 2 * length l)%nat.
Proof. induction l as [|o l IH]; [done|]. cbn. destruct (Obstacle.halfway o); lia. Qed.

Lemma rounds_drop_le (l : list Obstacle.t) (i j : nat) :
  (i ≤ j)%nat → (rounds (drop j l) ≤ rounds (drop i l))%nat.
Proof.
  intros Hij. replace j with (i + (j - i))%nat by lia. rewrite <- drop_drop.
  generalize (drop i l) as k. generalize (j - i)%nat as d. clear.
  induction d as [|d IH]; intros k; [done|].
  destruct k as [|o k]; [done|]. cbn [drop rounds]. specialize (IH k). lia.
Qed.

(** [l.remove(o)] for the element at position [i] drops a position that is
    not behind [i]. *)
Lemma remove_before (l : list Obstacle.t) (i : nat) (o : Obstacle.t) :
  l !! i = Some o → ∃ j, (j ≤ i)%nat ∧ Py.remove Obstacle.is_ o l = Return (delete j l).
Proof.
  revert i. induction l as [|o' l IH]; intros i Hi; [done|].
  cbn [Py.remove]. destruct (Obstacle.is_ o o') eqn:His.
  - exists 0%nat. split; [lia|done].
  - destruct i as [|i]; cbn in Hi.
    + injection Hi as ->. unfold Obstacle.is_ in His. by rewrite Nat.eqb_refl in His.
    + destruct (IH i Hi) as (j & Hj & ->). exists (S j). split; [lia|done].
Qed.

Lemma drop_delete_before {A : Type} (l : list A) (i j : nat) :
  (j ≤ i)%nat → drop i (delete j l) = drop (S i) l.
Proof.
  revert i j. induction l as [|x l IH]; intros i j Hj; [by destruct j, i|].
  destruct j as [|j]; [done|]. destruct i as [|i]; [lia|].
  cbn. apply IH. lia.
Qed.

(** The loop never uses up its rounds: [OutOfFuel] is not an outcome of
    [_manage_pipes]. *)
Lemma manage_pipes_loop_ends (entropy : nat -> Z) (fuel : nat) :
  ∀ (n i : nat) (g : Game.t),
    (rounds (drop i (Game._obstacles g)) < fuel)%nat →
    Game._manage_pipes_loop fuel entropy n i g ≠ OutOfFuel.
Proof.
  induction fuel as [|fuel IH]; intros n i g Hfuel; [lia|].
  cbn [Game._manage_pipes_loop].
  destruct (Game._obstacles g !! i) as [o|] eqn:Ho; [|done].
  rewrite (drop_S _ _ _ Ho) in Hfuel. cbn [rounds] in Hfuel.
  assert (Hstep1 : ∃ n1 g1,
    (if Obstacle.halfway o then
       y ← Py.randrange Game._MIN_RANGE_OF_PIPES Game._MAX_RANGE_OF_PIPES (entropy n);
       let '(canvas, new_obstacle) :=
         Obstacle.__init__ (Game._canvas g)
           (Game._SCREEN_WIDTH + Game._DISTANCE_BETWEEN_OBSTACLES) y in
       Return (S n, Game.set_obstacles (Game.set_canvas g canvas)
                      (Game._obstacles g ++ [new_obstacle]))
     else Return (n, g)) = Return (n1, g1) ∧
    Game._obstacles g1 !! i = Some o ∧
    (rounds (drop (S i) (Game._obstacles g1)) < fuel)%nat).
  { destruct (Obstacle.halfway o).
    - destruct (randrange_pipes (entropy n)) as (y & Hy & -> & _). rewrite bind_Return.
      eexists _, _. split; [reflexivity|]. game_fields.
      pose proof (lookup_lt_Some _ _ _ Ho) as Hlt.
      split; [by rewrite lookup_app_l|].
      rewrite drop_app_le, rounds_app by lia. cbn. lia.
    - exists n, g. split; [done|]. split; [done|lia]. }
  destruct Hstep1 as (n1 & g1 & -> & Ho1 & Hfuel1). rewrite bind_Return. cbn beta iota.
  destruct (Obstacle.off_screen o).
  - destruct (remove_before _ _ _ Ho1) as (j & Hj & ->). rewrite !bind_Return.
    apply IH. game_fields. rewrite drop_delete_before by lia.
    pose proof (rounds_drop_le (Game._obstacles g1) (S i) (S (S i))). lia.
  - rewrite bind_Return. by apply IH.
Qed.

Lemma move_obstacles_ends (c : Canvas.t) (l : list Obstacle.t) :
  Game.move_obstacles c l ≠ OutOfFuel.
Proof.
  revert c. induction l as [|o l IH]; intros c; [done|].
  cbn [Game.move_obstacles].
  unfold Obstacle.move_obstacle, Obstacle._check_obstacle_positions, Py.index.
  cbn [Obstacle.bottom_obstacle_position].
  destruct (_ !! Obstacle.RIGHT_X); [|done]. rewrite bind_Return.
  destruct (_ !! Obstacle._LEFT_X); [|done]. rewrite !bind_Return. cbn beta iota.
  specialize (IH (Canvas.move
                    (Canvas.move c (Obstacle._top_rectangle o)
                       (Float.of_int Obstacle._MOVEMENT_SPEED) (Float.of_int 0))
                    (Obstacle._bottom_rectangle o)
                    (Float.of_int Obstacle._MOVEMENT_SPEED) (Float.of_int 0))).
  by destruct (Game.move_obstacles _ l) as [[? ?]| |].
Qed.

(** [_manage_pipes] returns or raises on every game: the rounds it allows
    its second loop are enough. *)
Theorem manage_pipes_ends (entropy : nat -> Z) (g : Game.t) :
  Game._manage_pipes entropy g ≠ OutOfFuel.
Proof.
  unfold Game._manage_pipes.
  pose proof (move_obstacles_ends (Game._canvas g) (Game._obstacles g)) as Hmove.
  destruct (Game.move_obstacles _ _) as [[c1 l1]| |]; [|done..].
  rewrite bind_Return. cbn beta iota zeta. game_fields.
  destruct l1 as [|o1 l1].
  - cbn [length Nat.eqb].
    destruct (randrange_pipes (entropy 0%nat)) as (y & Hy & -> & _). rewrite bind_Return.
    destruct (Obstacle.__init__ c1 Game._SCREEN_WIDTH y) as [c' o'] eqn:Hinit.
    rewrite bind_Return. cbn beta iota. game_fields.
    apply manage_pipes_loop_ends. game_fields. cbn [app drop].
    pose proof (rounds_le [o']). cbn [length] in *. lia.
  - cbn [length Nat.eqb]. rewrite bind_Return. cbn beta iota. game_fields.
    apply manage_pipes_loop_ends. game_fields. cbn [drop].
    pose proof (rounds_le (o1 :: l1)). lia.
Qed.

(** ** The outline at every tick *)

Lemma after_period (n : nat) : (91 ≤ n)%nat → Stream.after (n + 130) = Stream.after n.
Proof.
  induction 1 as [|n Hn IH]; [by vm_compute|].
  cbn [Nat.add Stream.after]. by rewrite IH.
Qed.

Lemma after_periods (q n : nat) :
  (91 ≤ n)%nat → Stream.after (n + q * 130) = Stream.after n.
Proof.
  intros Hn. induction q as [|q IH]; [by rewrite Nat.add_0_r|].
  replace (n + S q * 130)%nat with (n + q * 130 + 130)%nat by lia.
  rewrite after_period by lia. done.
Qed.

Lemma after_fold (n : nat) : Stream.after n = Stream.after (Stream.fold_tick n).
Proof.
  unfold Stream.fold_tick. destruct (Nat.ltb_spec n 221) as [|Hn]; [done|].
  rewrite <- (after_periods ((n - 91) / 130) (91 + (n - 91) mod 130)) by lia.
  f_equal. pose proof (Nat.div_mod_eq (n - 91) 130). lia.
Qed.

Lemma fold_tick_lt (n : nat) : (Stream.fold_tick n < 221)%nat.
Proof.
  unfold Stream.fold_tick. destruct (Nat.ltb_spec n 221); [done|].
  pose proof (Nat.mod_upper_bound (n - 91) 130). lia.
Qed.

Lemma fold_tick_zero (n : nat) : (Stream.fold_tick n =? 0)%nat = (n =? 0)%nat.
Proof.
  unfold Stream.fold_tick. destruct (Nat.ltb_spec n 221); [done|].
  destruct (Nat.eqb_spec (91 + (n - 91) mod 130) 0), (Nat.eqb_spec n 0); try done; lia.
Qed.

Lemma steady_always (n : nat) : steady n = true.
Proof.
  assert (Hall : forallb steady (seq 0 221) = true) by (vm_compute; reflexivity).
  rewrite forallb_forall in Hall.
  assert (Hfold : steady (Stream.fold_tick n) = true).
  { apply Hall, in_seq. pose proof (fold_tick_lt n). lia. }
  unfold steady in *. by rewrite <- after_fold, fold_tick_zero in Hfold.
Qed.

(** At every tick the outline is defined, in range, free of pairs that are
    off screen, not empty (after the first tick), and has a next tick. *)
Lemma outline_at (n : nat) :
  ∃ s, Stream.after n = Some s ∧ in_range s ∧
       Forall (fun a => Stream.off_screen a = false) s ∧
       (n ≠ 0%nat → s ≠ []) ∧ is_Some (Stream.tick s).
Proof.
  pose proof (steady_always n) as Hn. unfold steady in Hn.
  destruct (Stream.after n) as [s|]; [|done]. exists s.
  apply andb_prop in Hn as [Hn Htick]. apply andb_prop in Hn as [Hall Hne].
  rewrite forallb_forall in Hall.
  split; [done|]. split; [|split; [|split]].
  - apply Forall_forall. intros a Ha%list_elem_of_In. apply Hall in Ha.
    apply andb_prop in Ha as [Ha _]. apply andb_prop in Ha as [Hlo Hhi].
    apply Z.leb_le in Hlo. apply Z.ltb_lt in Hhi. done.
  - apply Forall_forall. intros a Ha%list_elem_of_In. apply Hall in Ha.
    apply andb_prop in Ha as [_ Ha]. by destruct (Stream.off_screen a).
  - intros Hn0 ->. apply orb_prop in Hne as [Hz|Hlen]; [|done].
    by apply Nat.eqb_eq in Hz.
  - by apply bool_decide_eq_true_1 in Htick.
Qed.

(** ** The entity *)

Lemma pop_snoc {A : Type} (l : list A) (a : A) : Py.pop (l ++ [a]) = Return (a, l).
Proof. unfold Py.pop. by rewrite reverse_snoc, reverse_involutive. Qed.

(** The three cases of [Player.move]. *)
Lemma move_fall (c : Canvas.t) (p : Player.t) :
  Player._movement_stack p = [] → Player.move c p = Return (Player._fall c p).
Proof.
  intros Hs. unfold Player.move. rewrite Hs.
  destruct (Player._fall c p) as [c' p'] eqn:Hfall.
  assert (Hs' : Player._movement_stack p' = []).
  { unfold Player._fall in Hfall. injection Hfall as _ <-. done. }
  cbn. rewrite Hs'. cbn. by rewrite Hs'.
Qed.

Lemma move_flap (c : Canvas.t) (p : Player.t) :
  Player._movement_stack p = ["True"%string] →
  Player.move c p
  = Return (Canvas.move c (Player.player_rectangle p) (Float.of_int 0)
              (Float.mul (Float.of_int (- Player._ACCELERATION)) Player._JUMP_TIME),
            Player.Make (Player.player_rectangle p) (Player._control_key p)
              (Player._control_button p)
              (Float.mul (Float.of_int (- Player._ACCELERATION)) Player._JUMP_TIME) []).
Proof.
  intros Hs. unfold Player.move, Player._flap. rewrite Hs.
  cbn -[Float.mul Float.of_int Canvas.move]. rewrite Hs.
  cbn -[Float.mul Float.of_int Canvas.move]. reflexivity.
Qed.

Lemma move_discard (c : Canvas.t) (p : Player.t) (l : list string) (a : string) :
  Player._movement_stack p = l ++ [a] → l ≠ [] →
  Player.move c p = Return (c, Player.set_stack p l).
Proof.
  intros Hs Hl. unfold Player.move. rewrite Hs.
  assert (Hlen : (2 ≤ length (l ++ [a]))%nat).
  { rewrite length_app. destruct l; [done|]. simpl. lia. }
  destruct (length (l ++ [a])) as [|[|n]] eqn:Hn; [lia..|].
  cbn. rewrite Hs, Hn. cbn. rewrite Hs, Hn, pop_snoc. done.
Qed.

Lemma float_player_x :
  Float.add (Float.of_int 40) (Float.of_int 0) = Float.of_int 40 ∧
  Float.add (Float.of_int 80) (Float.of_int 0) = Float.of_int 80 ∧
  Float.gtb (Float.of_int 40) (Float.of_int 80) = false.
Proof. by vm_compute. Qed.

(** Moving the entity's rectangle vertically keeps its horizontal extent. *)
Lemma move_player_rectangle (c : Canvas.t) (i : nat) (t b v : Float.t) :
  Canvas.items c !! i = Some (Canvas.Rect (Float.of_int 40) t (Float.of_int 80) b) →
  ∃ t' b',
    Canvas.move c i (Float.of_int 0) v
    = Canvas.Make (<[i := Canvas.Rect (Float.of_int 40) t' (Float.of_int 80) b']>
                     (Canvas.items c)) (Canvas.next_id c).
Proof.
  intros Hi. unfold Canvas.move, Canvas.translate, Canvas.normalize. rewrite Hi.
  cbn [Canvas.x1 Canvas.x2 Canvas.y1 Canvas.y2].
  destruct float_player_x as (-> & -> & ->).
  destruct (Float.gtb (Float.add t v) (Float.add b v)); eauto.
Qed.

(** A game stays well formed when the canvas changes at the entity's
    rectangle only, and that rectangle keeps its horizontal extent. *)
Lemma well_formed_player (g : Game.t) (s : list Stream.pair) (p' : Player.t)
  (t' b' : Float.t) :
  well_formed g s →
  Player.player_rectangle p' = Player.player_rectangle (Game._player g) →
  (∃ m, Player._movement_stack p' = replicate m "True"%string) →
  well_formed
    (Game.set_player
       (Game.set_canvas g
          (Canvas.Make (<[Player.player_rectangle (Game._player g) :=
                            Canvas.Rect (Float.of_int 40) t' (Float.of_int 80) b']>
                          (Canvas.items (Game._canvas g)))
             (Canvas.next_id (Game._canvas g)))) p') s.
Proof.
  intros Hwf Hrect Hstack.
  pose proof (wf_distinct g s Hwf) as Hnd. apply NoDup_cons in Hnd as [Hpr Hnd].
  split; game_fields; cbn [Canvas.items Canvas.next_id].
  - apply (represents_frame_list (Game._canvas g)); [apply Hwf|].
    intros i Hi. cbn [Canvas.items]. rewrite lookup_insert_ne; [done|].
    intros Heq. apply Hpr. by rewrite Heq.
  - rewrite Hrect. apply Hwf.
  - intros i. destruct (decide (i = Player.player_rectangle (Game._player g))) as [->|Hne].
    + intros _. by apply (player_below_next g s).
    + rewrite lookup_insert_ne by done. apply Hwf.
  - rewrite Hrect, lookup_insert_eq. eauto.
  - done.
  - apply Hwf.
Qed.

Lemma replicate_snoc_True (m : nat) :
  replicate (S m) "True"%string = replicate m "True"%string ++ ["True"%string].
Proof. induction m as [|m IH]; [done|]. cbn. by rewrite <- IH. Qed.

Lemma canvas_eta (c : Canvas.t) : Canvas.Make (Canvas.items c) (Canvas.next_id c) = c.
Proof. by destruct c. Qed.

Lemma player_move_well_formed (g : Game.t) (s : list Stream.pair) :
  well_formed g s →
  ∃ c' p',
    Player.move (Game._canvas g) (Game._player g) = Return (c', p') ∧
    well_formed (Game.set_player (Game.set_canvas g c') p') s ∧
    Canvas.next_id c' = Canvas.next_id (Game._canvas g).
Proof.
  intros Hwf. destruct (wf_stack g s Hwf) as (m & Hm).
  destruct (wf_player g s Hwf) as (t & b & Hp).
  destruct m as [|[|m]].
  - rewrite move_fall by done. unfold Player._fall.
    edestruct move_player_rectangle as (t' & b' & ->); [exact Hp|].
    eexists _, _. split; [done|]. split; [|done].
    apply well_formed_player; [done|done|]. by exists 0%nat.
  - rewrite move_flap by done.
    edestruct move_player_rectangle as (t' & b' & ->); [exact Hp|].
    eexists _, _. split; [done|]. split; [|done].
    apply well_formed_player; [done|done|]. by exists 0%nat.
  - rewrite replicate_snoc_True in Hm.
    rewrite (move_discard _ _ _ _ Hm) by done.
    eexists _, _. split; [done|]. split; [|done].
    rewrite <- (canvas_eta (Game._canvas g)) at 1.
    rewrite <- (insert_id _ _ _ Hp) at 1.
    apply well_formed_player; [done|done|]. by exists (S m).
Qed.

Lemma event_entered_well_formed (g : Game.t) (s : list Stream.pair) (event : Event) :
  well_formed g s → well_formed (Game._event_entered g event) s.
Proof.
  intros Hwf. destruct (wf_stack g s Hwf) as (m & Hm).
  unfold Game._event_entered, Player.event_entered.
  destruct (_ || _).
  - split; game_fields; try apply Hwf.
    exists (S m). cbn. rewrite Hm. symmetry. apply replicate_snoc_True.
  - by destruct g.
Qed.

Lemma deliver_well_formed (events : list Event) (g : Game.t) (s : list Stream.pair) :
  well_formed g s → well_formed (deliver events g) s.
Proof.
  revert g. induction events as [|ev events IH]; intros g Hwf; [done|].
  apply IH. by apply event_entered_well_formed.
Qed.

(** ** Collisions and score *)

Section Evaluator.
Context `{FindOverlapping}.

Lemma manage_collisions_empty (g : Game.t) :
  Game._obstacles g = [] → Game.manage_collisions g = Return (Some false).
Proof. intros Hl. unfold Game.manage_collisions. by rewrite Hl. Qed.

(** With a pair in the stream, an entity outside the vertical bounds is a
    collision, whatever the overlap test says. *)
Lemma manage_collisions_boundary (g : Game.t) (o : Obstacle.t) (l : list Obstacle.t)
  (x1 y1 x2 y2 : Float.t) :
  Game._obstacles g = o :: l →
  length (Obstacle.bottom_obstacle_position o) = 4%nat →
  length (Obstacle.top_obstacle_position o) = 4%nat →
  Player.get_coordinates (Game._canvas g) (Game._player g) = [x1; y1; x2; y2] →
  Float.geb y2 (Float.of_int Game._SCREEN_HEIGHT) = true
  ∨ Float.leb y1 (Float.of_int 0) = true →
  Game.manage_collisions g = Return (Some true).
Proof.
  intros Hl Hb Ht Hp Hout. unfold Game.manage_collisions, Game.overlapping.
  rewrite Hl, Hp. cbn -[Float.geb Float.leb Float.of_int].
  destruct (Obstacle.bottom_obstacle_position o) as [|a1 [|a2 [|a3 [|a4 [|]]]]]; try done.
  destruct (Obstacle.top_obstacle_position o) as [|b1 [|b2 [|b3 [|b4 [|]]]]]; try done.
  cbn -[Float.geb Float.leb Float.of_int].
  match goal with |- context [bool_decide ?P] => destruct (bool_decide P) end;
    cbn -[Float.geb Float.leb Float.of_int]; [done|].
  match goal with |- context [bool_decide ?P] => destruct (bool_decide P) end;
    cbn -[Float.geb Float.leb Float.of_int]; [done|].
  destruct (Float.geb y2 (Float.of_int Game._SCREEN_HEIGHT)) eqn:Hge;
    cbn -[Float.leb Float.of_int]; [done|].
  destruct Hout as [?| ->]; done.
Qed.

Lemma represents_positions (c : Canvas.t) (o : Obstacle.t) (a : Stream.pair) :
  represents c o a →
  length (Obstacle.bottom_obstacle_position o) = 4%nat ∧
  length (Obstacle.top_obstacle_position o) = 4%nat ∧
  Obstacle.bottom_obstacle_position o !! 0%nat = Some (Float.of_int (Stream.x a)) ∧
  Obstacle.bottom_obstacle_position o !! 2%nat = Some (Float.of_int (Stream.x a + 70)).
Proof. intros (y & _ & _ & _ & -> & -> & _). done. Qed.

Lemma player_coordinates (g : Game.t) (s : list Stream.pair) :
  well_formed g s →
  ∃ t b, Player.get_coordinates (Game._canvas g) (Game._player g)
         = [Float.of_int 40; t; Float.of_int 80; b].
Proof.
  intros Hwf. destruct (wf_player g s Hwf) as (t & b & Hp). exists t, b.
  unfold Player.get_coordinates, Canvas.coords. by rewrite Hp.
Qed.

(** In a well-formed game [manage_collisions] raises nothing. *)
Lemma manage_collisions_returns (g : Game.t) (s : list Stream.pair) :
  well_formed g s → ∃ v, Game.manage_collisions g = Return v.
Proof.
  intros Hwf. destruct (Game._obstacles g) as [|o l] eqn:Hl.
  { exists (Some false). by apply manage_collisions_empty. }
  pose proof (wf_stream g s Hwf) as Hrep. rewrite Hl in Hrep.
  apply Forall2_cons_inv_l in Hrep as (a & s' & Ho & _ & _).
  destruct (represents_positions _ _ _ Ho) as (Hb & Ht & _).
  destruct (player_coordinates g s Hwf) as (t & b & Hp).
  unfold Game.manage_collisions, Game.overlapping.
  rewrite Hl, Hp. cbn -[Float.geb Float.leb Float.of_int].
  destruct (Obstacle.bottom_obstacle_position o) as [|a1 [|a2 [|a3 [|a4 [|]]]]]; try done.
  destruct (Obstacle.top_obstacle_position o) as [|b1 [|b2 [|b3 [|b4 [|]]]]]; try done.
  cbn -[Float.geb Float.leb Float.of_int].
  match goal with |- context [bool_decide ?P] => destruct (bool_decide P) end;
    cbn -[Float.geb Float.leb Float.of_int]; [eauto|].
  match goal with |- context [bool_decide ?P] => destruct (bool_decide P) end;
    cbn -[Float.geb Float.leb Float.of_int]; [eauto|].
  destruct (Float.geb b (Float.of_int Game._SCREEN_HEIGHT));
    cbn -[Float.leb Float.of_int]; [eauto|].
  destruct (Float.leb t (Float.of_int 0)); eauto.
Qed.

End Evaluator.

Lemma manage_score_empty (g : Game.t) :
  Game._obstacles g = [] → Game._manage_score g = Raise IndexError.
Proof. intros Hl. unfold Game._manage_score. by rewrite Hl. Qed.

Lemma manage_score_nearest (g : Game.t) (o : Obstacle.t) (l : list Obstacle.t)
  (p q : Float.t) :
  Game._obstacles g = o :: l →
  Player.get_coordinates (Game._canvas g) (Game._player g) !! Player.RIGHT_X = Some p →
  Obstacle.bottom_obstacle_position o !! Obstacle.RIGHT_X = Some q →
  Game._manage_score g = Return (if Float.eqb p q then scored g else g).
Proof.
  intros Hl Hp Hq. unfold Game._manage_score, scored, Py.index.
  destruct g as [c pl obs sb sc]. cbn [Game._obstacles Game._canvas Game._player] in *.
  subst obs. cbn [lookup list_lookup]. rewrite bind_Return, Hp, bind_Return, Hq, bind_Return.
  by destruct (Float.eqb p q).
Qed.

Lemma scored_well_formed (g : Game.t) (s : list Stream.pair) :
  well_formed g s → well_formed (scored g) s.
Proof. intros Hwf. split; try apply Hwf. done. Qed.

(** In a well-formed game with a pair in the stream, [_manage_score] adds a
    point exactly when the nearest pair's left edge is at 10: its right
    edge is then at 80, where the entity's right edge is. *)
Lemma manage_score_well_formed (g : Game.t) (a : Stream.pair) (s : list Stream.pair) :
  well_formed g (a :: s) → in_range (a :: s) →
  Game._manage_score g = Return (if Stream.x a =? 10 then scored g else g).
Proof.
  intros Hwf Hrange. pose proof (wf_stream g _ Hwf) as Hrep.
  apply Forall2_cons_inv_r in Hrep as (o & l & Ho & _ & Hl).
  destruct (represents_positions _ _ _ Ho) as (_ & _ & _ & Hq).
  destruct (player_coordinates g _ Hwf) as (t & b & Hp).
  rewrite (manage_score_nearest g o l (Float.of_int 80)
             (Float.of_int (Stream.x a + 70)) Hl); [|by rewrite Hp|done].
  apply Forall_cons in Hrange as [Ha _].
  rewrite eq_player_right by lia.
  by destruct (Z.eqb_spec 80 (Stream.x a + 70)), (Z.eqb_spec (Stream.x a) 10); try lia.
Qed.

(** ** Sessions follow the outline *)

Lemma game_init :
  Game.__init__ Canvas.new
  = Game.Make (Canvas.Make (<[1%nat := box 40 300 80 340]> ∅) 2)
      (Player.Make 1 "space" 1 (Float.of_int 0) []) [] Scoreboard.__init__ 0.
Proof. by vm_compute. Qed.

Lemma game_init_well_formed : well_formed (Game.__init__ Canvas.new) [].
Proof.
  rewrite game_init. split; cbn.
  - constructor.
  - apply NoDup_singleton.
  - intros i. destruct (decide (i = 1%nat)) as [->|Hne]; [lia|].
    rewrite lookup_insert_ne, lookup_empty by done. by intros [? ?].
  - rewrite lookup_insert_eq. eauto.
  - by exists 0%nat.
  - done.
Qed.

Section Sessions.
Context `{FindOverlapping}.

(** One tick of a well-formed game at tick [n] of its outline: the tick
    returns, the game is at tick [n + 1], and the score has grown by the
    points of that tick. *)
Lemma game_tick_outline (entropy : nat -> Z) (g : Game.t) (n : nat) (s : list Stream.pair) :
  Stream.after n = Some s → well_formed g s →
  ∃ g' s', game_tick entropy g = Return g' ∧ Stream.after (S n) = Some s' ∧
           well_formed g' s' ∧ Game.score g' = Game.score g + points s'.
Proof.
  intros Hn Hwf.
  destruct (outline_at n) as (s0 & Hn0 & Hrange & _ & _ & [s' Htick]).
  rewrite Hn in Hn0. injection Hn0 as <-.
  destruct (outline_at (S n)) as (s1 & Hn1 & Hrange' & _ & Hne & _).
  assert (s1 = s') as ->.
  { cbn [Stream.after] in Hn1. rewrite Hn in Hn1.
    change (Stream.tick s = Some s1) in Hn1. congruence. }
  destruct (player_move_well_formed g s Hwf) as (c1 & p1 & Hmove & Hwf1 & _).
  destruct (manage_pipes_outline entropy _ s s' Hwf1 Hrange Htick)
    as (g2 & Hpipes & Hwf2 & Hso).
  destruct (manage_collisions_returns g2 s' Hwf2) as (v & Hv).
  destruct s' as [|a s']; [by destruct Hne|].
  pose proof (manage_score_well_formed g2 a s' Hwf2 Hrange') as Hscore.
  exists (if Stream.x a =? 10 then scored g2 else g2), (a :: s').
  split; [|split; [done|]].
  - unfold game_tick. rewrite Hmove, bind_Return. cbn beta iota zeta.
    rewrite Hpipes, bind_Return, Hv, bind_Return. done.
  - destruct Hso as (_ & Hsb & Hsc & _). cbn in Hsc.
    unfold points. destruct (Stream.x a =? 10).
    + split; [by apply scored_well_formed|].
      cbn. rewrite Hsb. cbn. rewrite (wf_score g s Hwf).
      unfold Scoreboard._POINT_WORTH. done.
    + split; [done|]. rewrite Hsc. lia.
Qed.

Lemma session_run_outline (inputs : list (list Event * (nat -> Z))) :
  ∀ (g : Game.t) (n : nat) (s : list Stream.pair),
    Stream.after n = Some s → well_formed g s →
    ∃ g' s', session_run inputs g = Return g' ∧
             Stream.after (n + length inputs) = Some s' ∧
             well_formed g' s' ∧ Game.score g ≤ Game.score g'.
Proof.
  induction inputs as [|[events entropy] inputs IH]; intros g n s Hn Hwf.
  - exists g, s. rewrite Nat.add_0_r. split; [done|]. split; [done|]. split; [done|lia].
  - pose proof (deliver_well_formed events g s Hwf) as Hwf0.
    destruct (game_tick_outline entropy _ n s Hn Hwf0) as (g1 & s1 & Htick & Hn1 & Hwf1 & Hsc).
    destruct (IH g1 (S n) s1 Hn1 Hwf1) as (g' & s' & Hrun & Hn' & Hwf' & Hle).
    exists g', s'. cbn [session_run length]. rewrite Htick, bind_Return.
    replace (n + S (length inputs))%nat with (S n + length inputs)%nat by lia.
    split; [done|]. split; [done|]. split; [done|].
    assert (Game.score (deliver events g) = Game.score g).
    { clear. revert g. induction events as [|ev events IH]; intros g; [done|].
      change (deliver (ev :: events) g) with (deliver events (Game._event_entered g ev)).
      by rewrite IH. }
    assert (0 ≤ points s1).
    { unfold points. destruct s1 as [|a ?]; [done|]. by destruct (Stream.x a =? 10). }
    lia.
Qed.

End Sessions.

(** ** One obstacle pair along its life *)

Lemma iter_move_pair (k : nat) (x : Z) (h f : bool) :
  Nat.iter (S k) Stream.move_pair (Stream.Pair x h f)
  = Stream.Pair (x - 2 * Z.of_nat (S k)) (x - 2 * Z.of_nat (S k) =? 180)
      (if x - 2 * Z.of_nat (S k) + 70 <=? 0 then true else f).
Proof.
  induction k as [|k IH].
  - cbn -[Z.of_nat]. unfold Stream.move_pair. cbn -[Z.of_nat].
    by replace (x - 2 * Z.of_nat 1) with (x - 2) by lia.
  - rewrite Nat.iter_succ, IH. unfold Stream.move_pair. cbn [Stream.x Stream.off_screen].
    replace (x - 2 * Z.of_nat (S k) - 2) with (x - 2 * Z.of_nat (S (S k))) by lia.
    f_equal.
    destruct (Z.leb_spec (x - 2 * Z.of_nat (S (S k)) + 70) 0),
             (Z.leb_spec (x - 2 * Z.of_nat (S k) + 70) 0); try done; lia.
Qed.

Lemma iter_move_pair_x (k : nat) (a : Stream.pair) :
  Stream.x (Nat.iter k Stream.move_pair a) = Stream.x a - 2 * Z.of_nat k.
Proof.
  induction k as [|k IH]; [cbn; lia|].
  rewrite Nat.iter_succ. unfold Stream.move_pair at 1. cbn [Stream.x]. lia.
Qed.

(** A represented pair after [k] ticks of its own. *)
Lemma obstacle_run_represents (y : Z) (k : nat) :
  ∀ (c : Canvas.t) (o : Obstacle.t) (a : Stream.pair),
    represents_with y c o a → Obstacle._top_rectangle o ≠ Obstacle._bottom_rectangle o →
    Stream.x a < 500 → -100 ≤ Stream.x a - 2 * Z.of_nat k + 2 →
    ∃ c' o', obstacle_run k c o = Return (c', o') ∧
             represents_with y c' o' (Nat.iter k Stream.move_pair a) ∧
             Obstacle._top_rectangle o' = Obstacle._top_rectangle o ∧
             Obstacle._bottom_rectangle o' = Obstacle._bottom_rectangle o.
Proof.
  induction k as [|k IH]; intros c o a Hrep Hne Hhi Hlo.
  - by exists c, o.
  - destruct (move_obstacle_represents_with y c o a Hrep ltac:(lia) Hne)
      as (c1 & o1 & Hmove & Hrep1 & Ht1 & Hb1 & _).
    destruct (IH c1 o1 (Stream.move_pair a) Hrep1) as (c' & o' & Hrun & Hrep' & Ht' & Hb');
      [congruence | cbn; lia | cbn; lia |].
    exists c', o'. cbn [obstacle_run]. rewrite Hmove, bind_Return.
    split; [done|]. rewrite Nat.iter_succ_r. split; [done|]. split; congruence.
Qed.

(** A new pair after [k] ticks of its own: where it is, and its flags. *)
Lemma new_obstacle_run (c : Canvas.t) (x y : Z) (k : nat) :
  -100 ≤ x - 2 * Z.of_nat k → x < 500 → 200 ≤ y < 600 →
  ∃ c' o',
    obstacle_run k (Obstacle.__init__ c x y).1 (Obstacle.__init__ c x y).2 = Return (c', o') ∧
    represents_with y c' o'
      (Stream.Pair (x - 2 * Z.of_nat k) ((0 <? Z.of_nat k) && (x - 2 * Z.of_nat k =? 180))
         ((0 <? Z.of_nat k) && (x - 2 * Z.of_nat k + 70 <=? 0))).
Proof.
  intros Hlo Hhi Hy. rewrite obstacle_init by lia. cbn [fst snd].
  set (c0 := Canvas.Make _ _). set (o0 := Obstacle.Make _ _ _ _ _ _).
  assert (Hrep : represents_with y c0 o0 (Stream.Pair x false false)).
  { unfold represents_with, c0, o0. cbn.
    rewrite lookup_insert_ne, !lookup_insert_eq by lia. done. }
  destruct (obstacle_run_represents y k c0 o0 _ Hrep) as (c' & o' & Hrun & Hrep' & _);
    [unfold o0; cbn; lia | cbn; lia | cbn; lia |].
  exists c', o'. split; [done|].
  destruct k as [|k].
  { cbn [Nat.iter] in Hrep'. by replace (x - 2 * Z.of_nat 0) with x by lia. }
  rewrite iter_move_pair in Hrep'.
  replace (0 <? Z.of_nat (S k)) with true by (symmetry; apply Z.ltb_lt; lia).
  cbn [andb]. by destruct (_ <=? 0).
Qed.

(** ** C9: the first ticks of the entity *)

(** C9.  The entity is created at (40, 300) with velocity 0, as [Game.__init__]
    does.  One tick with no boost pending sets the velocity to 5 * 0.1, which
    is the float 0.5, and moves the box down by 0.5; one tick with a boost
    pending sets the velocity to -5 * 1.6, which is the float -8.0, moves the
    box up by 8 and clears the boost. *)
Theorem C9_first_ticks :
  let c := (Player.__init__ Canvas.new 40 300 "space" 1).1 in
  let p := (Player.__init__ Canvas.new 40 300 "space" 1).2 in
  Game._player (Game.__init__ Canvas.new) = p ∧
  Game._canvas (Game.__init__ Canvas.new) = c ∧
  Player.get_coordinates c p = rect_coords (box 40 300 80 340) ∧
  Player._y_velocity p = Float.of_int 0 ∧
  Float.mul (Float.of_int 5) Float.lit_0_1 = of_halves 1 ∧
  Float.mul (Float.of_int (-5)) Float.lit_1_6 = Float.of_int (-8) ∧
  (∃ c1 p1,
      Player.move c p = Return (c1, p1) ∧
      Player._y_velocity p1 = of_halves 1 ∧
      Player.get_coordinates c1 p1
      = [Float.of_int 40; of_halves 601; Float.of_int 80; of_halves 681]) ∧
  (∃ c2 p2,
      Player.move c (Player.event_entered p space_key) = Return (c2, p2) ∧
      Player._y_velocity p2 = Float.of_int (-8) ∧
      Player.get_coordinates c2 p2 = rect_coords (box 40 292 80 332) ∧
      Player._movement_stack p2 = []).
Proof.
  cbv zeta. repeat split; try (vm_compute; reflexivity).
  - eexists _, _. split; [vm_compute; reflexivity|]. split; vm_compute; reflexivity.
  - eexists _, _. split; [vm_compute; reflexivity|]. repeat split; vm_compute; reflexivity.
Qed.

(** ** C10: a tick with more than one boost pending *)

(** C10.  With more than one boost pending, the tick neither falls nor
    boosts: the canvas, and so the entity's box, and the velocity are
    unchanged, and the stack loses exactly its last element. *)
Theorem C10_excess_boost_tick (c : Canvas.t) (p : Player.t) :
  (1 < length (Player._movement_stack p))%nat →
  ∃ s,
    Player.move c p = Return (c, Player.set_stack p s) ∧
    observe (c, Player.set_stack p s) = observe (c, p) ∧
    s = take (length (Player._movement_stack p) - 1) (Player._movement_stack p) ∧
    length s = (length (Player._movement_stack p) - 1)%nat.
Proof.
  intros Hlen.
  destruct (Player._movement_stack p) as [|x l] eqn:Hs using rev_ind; [cbn in Hlen; lia|].
  clear IHl. rewrite length_app in Hlen. cbn in Hlen.
  exists l. split; [|split; [done|split]].
  - apply (move_discard c p l x Hs). destruct l; [cbn in Hlen; lia|done].
  - rewrite length_app. cbn. rewrite Nat.add_sub, take_app_length. done.
  - rewrite length_app. cbn. lia.
Qed.

Lemma C10_witness :
  ∃ s,
    Player.move Canvas.new
      (Player.Make 1 "space" 1 (Float.of_int 0) ["True"; "True"; "True"]%string)
    = Return (Canvas.new,
              Player.set_stack
                (Player.Make 1 "space" 1 (Float.of_int 0) ["True"; "True"; "True"]%string) s) ∧
    length s = 2%nat.
Proof.
  destruct (C10_excess_boost_tick Canvas.new
              (Player.Make 1 "space" 1 (Float.of_int 0) ["True"; "True"; "True"]%string))
    as (s & Hmove & _ & _ & Hlen); [cbn; lia|].
  exists s. split; [exact Hmove|exact Hlen].
Defined.

(** ** C2: several boosts between two ticks *)

(** An event that the player's controls answer to. *)
Lemma event_entered_boost (p : Player.t) (event : Event) :
  keysym event = Some (Player._control_key p) ∨ num event = Some (Player._control_button p) →
  Player.event_entered p event
  = Player.set_stack p (Player._movement_stack p ++ ["True"%string]).
Proof.
  intros Hev. unfold Player.event_entered.
  destruct Hev as [Hk|Hn].
  - by rewrite (bool_decide_eq_true_2 _ Hk).
  - rewrite (bool_decide_eq_true_2 _ Hn). by rewrite orb_true_r.
Qed.

Lemma events_entered_boosts (events : list Event) :
  ∀ (p : Player.t) (m : nat),
    Player._movement_stack p = replicate m "True"%string →
    Forall (fun event => keysym event = Some (Player._control_key p)
                         ∨ num event = Some (Player._control_button p)) events →
    foldl Player.event_entered p events
    = Player.set_stack p (replicate (m + length events) "True"%string).
Proof.
  induction events as [|event events IH]; intros p m Hm Hall.
  - cbn. rewrite Nat.add_0_r, <- Hm. by destruct p.
  - apply Forall_cons in Hall as [Hev Hall]. cbn [foldl length].
    rewrite (event_entered_boost p event Hev), Hm, <- replicate_snoc_True.
    rewrite (IH _ (S m)); [|done|done].
    cbn. by replace (m + S (length events))%nat with (S (m + length events)) by lia.
Qed.

(** With more boosts pending than ticks, every tick drops one boost and
    changes nothing else. *)
Lemma player_run_discards (k : nat) :
  ∀ (n : nat) (c : Canvas.t) (p : Player.t),
    (k ≤ n)%nat →
    player_run k c (Player.set_stack p (replicate (S n) "True"%string))
    = Return (c, Player.set_stack p (replicate (S n - k) "True"%string)).
Proof.
  induction k as [|k IH]; intros n c p Hk; [done|].
  destruct n as [|n]; [lia|]. cbn [player_run].
  rewrite (move_discard c _ (replicate (S n) "True"%string) "True"%string);
    [|cbn [Player.set_stack Player._movement_stack]; apply replicate_snoc_True|done].
  rewrite bind_Return. cbn [Player.set_stack Player.player_rectangle Player._control_key
                             Player._control_button Player._y_velocity].
  apply (IH n c p). lia.
Qed.

Lemma player_run_one (c : Canvas.t) (p : Player.t) : player_run 1 c p = Player.move c p.
Proof. cbn. by destruct (Player.move c p) as [[? ?]| |]. Qed.

Lemma player_run_add (j k : nat) (c : Canvas.t) (p : Player.t) :
  player_run (j + k) c p = '(c, p) ← player_run j c p; player_run k c p.
Proof.
  revert c p. induction j as [|j IH]; intros c p; [done|].
  cbn [Nat.add player_run]. destruct (Player.move c p) as [[c' p']| |]; [|done..].
  rewrite !bind_Return. apply IH.
Qed.

(** C2, as amended.  [N] boost events delivered between two ticks are all put on
    the stack, on top of the [m] boosts that are pending already.  The
    first [m + N - 1] ticks that follow each drop one of them and change
    neither the entity's box nor its velocity; the tick after those is the
    tick of the entity with exactly one boost pending.  So one boost is
    applied, [m + N - 1] ticks late. *)
Theorem C2_boosts_delay (c : Canvas.t) (p : Player.t) (m : nat) (events : list Event) :
  Player._movement_stack p = replicate m "True"%string →
  Forall (fun event => keysym event = Some (Player._control_key p)
                       ∨ num event = Some (Player._control_button p)) events →
  (1 ≤ length events)%nat →
  let p' := foldl Player.event_entered p events in
  let late := (m + length events - 1)%nat in
  (∀ k, (k ≤ late)%nat →
        ∃ s, player_run k c p' = Return (c, Player.set_stack p s) ∧
             length s = (m + length events - k)%nat) ∧
  player_run (late + 1) c p' = Player.move c (Player.set_stack p ["True"%string]) ∧
  ∃ c' p'', Player.move c (Player.set_stack p ["True"%string]) = Return (c', p'') ∧
            Player._y_velocity p'' = Float.of_int (-8) ∧
            Player._movement_stack p'' = [].
Proof.
  intros Hm Hall Hlen p' late.
  assert (Hp' : p' = Player.set_stack p (replicate (m + length events) "True"%string)).
  { by apply events_entered_boosts. }
  assert (Htotal : (m + length events)%nat = S late) by (unfold late; lia).
  rewrite Hp', Htotal. split; [|split].
  - intros k Hk. exists (replicate (S late - k) "True"%string).
    split; [by apply player_run_discards|]. rewrite length_replicate. lia.
  - rewrite player_run_add, player_run_discards by done.
    rewrite bind_Return. replace (S late - late)%nat with 1%nat by lia.
    apply player_run_one.
  - rewrite move_flap by done. eexists _, _. split; [done|].
    split; [by vm_compute|done].
Qed.

Lemma C2_witness :
  player_run 3 (Player.__init__ Canvas.new 40 300 "space" 1).1
    (foldl Player.event_entered (Player.__init__ Canvas.new 40 300 "space" 1).2
       [space_key; left_click; space_key])
  = Player.move (Player.__init__ Canvas.new 40 300 "space" 1).1
      (Player.set_stack (Player.__init__ Canvas.new 40 300 "space" 1).2 ["True"%string]).
Proof.
  refine (proj1 (proj2 (C2_boosts_delay (Player.__init__ Canvas.new 40 300 "space" 1).1
            (Player.__init__ Canvas.new 40 300 "space" 1).2 0 [space_key; left_click; space_key]
            _ _ _))).
  - reflexivity.
  - repeat (apply Forall_cons; split); [left|right|left|apply Forall_nil]; reflexivity.
  - cbn. lia.
Defined.

(** C2, as stated, fails: with two boost events between two ticks the next
    tick leaves the entity where it is, with one boost event it moves the
    entity up by 8 with velocity -8. *)
Lemma C2_counterexample :
  let c := (Player.__init__ Canvas.new 40 300 "space" 1).1 in
  let p := (Player.__init__ Canvas.new 40 300 "space" 1).2 in
  ∃ two one,
    Player.move c (foldl Player.event_entered p [space_key; space_key]) = Return two ∧
    Player.move c (foldl Player.event_entered p [space_key]) = Return one ∧
    observe two = (rect_coords (box 40 300 80 340), Float.of_int 0) ∧
    observe one = (rect_coords (box 40 292 80 332), Float.of_int (-8)) ∧
    observe two ≠ observe one.
Proof.
  cbv zeta. eexists _, _.
  split; [vm_compute; reflexivity|]. split; [vm_compute; reflexivity|].
  split; [vm_compute; reflexivity|]. split; [vm_compute; reflexivity|].
  vm_compute. discriminate.
Qed.

(** ** Restart *)

Section Restarting.
Context `{FindOverlapping}.

Lemma check_restart_collision (a : Application.t) :
  Game.manage_collisions (Application.game_object a) = Return (Some true) →
  Application.check_restart a = Return (terminated (Game.score (Application.game_object a))).
Proof. intros Hc. unfold Application.check_restart. by rewrite Hc. Qed.

Lemma check_restart_no_collision (a : Application.t) (v : option bool) :
  Game.manage_collisions (Application.game_object a) = Return v → truthy v = false →
  Application.check_restart a = Return a.
Proof. intros Hc Hv. unfold Application.check_restart. by rewrite Hc, bind_Return, Hv. Qed.

(** A tick of the game on screen is a tick of that game, followed by
    [check_restart] on the application that holds it. *)
Lemma run_game_tick (entropy : nat -> Z) (a : Application.t) :
  run_game entropy a
  = g ← game_tick entropy (Application.game_object a);
    a ← Application.check_restart (Application.set_game a g);
    Return (g, a).
Proof.
  unfold run_game, game_tick.
  destruct (Player.move _ _) as [[c p]| |]; [|done..]. rewrite !bind_Return.
  cbn beta iota zeta.
  destruct (Game._manage_pipes _ _) as [g| |]; [|done..]. rewrite !bind_Return.
  destruct (Game.manage_collisions g) as [v| |]; [|done..]. by rewrite !bind_Return.
Qed.

(** A tick of a game that has been replaced is a tick of that game,
    followed by [check_restart] on the application as it is. *)
Lemma run_game_of_tick (entropy : nat -> Z) (self : Game.t) (a : Application.t) :
  run_game_of entropy self a
  = g ← game_tick entropy self; a ← Application.check_restart a; Return (g, a).
Proof.
  unfold run_game_of, game_tick.
  destruct (Player.move _ _) as [[c p]| |]; [|done..]. rewrite !bind_Return.
  cbn beta iota zeta.
  destruct (Game._manage_pipes _ _) as [g| |]; [|done..]. rewrite !bind_Return.
  destruct (Game.manage_collisions g) as [v| |]; [|done..]. by rewrite !bind_Return.
Qed.

End Restarting.

(** ** The order of the stream *)

Lemma remove_sublist {A : Type} (eq : A -> A -> bool) (x : A) (l l' : list A) :
  Py.remove eq x l = Return l' → l' `sublist_of` l.
Proof.
  revert l'. induction l as [|y l IH]; intros l' Hrem; [done|].
  cbn in Hrem. destruct (eq x y).
  - injection Hrem as <-. by apply sublist_cons.
  - destruct (Py.remove eq x l) as [l''| |]; [|done..].
    rewrite bind_Return in Hrem. injection Hrem as <-. by apply sublist_skip, IH.
Qed.

Lemma sublist_Forall {A : Type} (P : A -> Prop) (l k : list A) :
  l `sublist_of` k → Forall P k → Forall P l.
Proof.
  intros Hsub Hk. apply Forall_forall. intros x Hx.
  rewrite Forall_forall in Hk. apply Hk. by apply (elem_of_sublist l).
Qed.

Lemma obstacle_init_ids (c : Canvas.t) (x y : Z) :
  Obstacle._top_rectangle (Obstacle.__init__ c x y).2 = Canvas.next_id c ∧
  Canvas.next_id (Obstacle.__init__ c x y).1 = S (S (Canvas.next_id c)).
Proof. done. Qed.

(** What the second loop leaves is what it found, less the removed pairs and
    in the same order, followed by the pairs it created, whose rectangles
    are new on the canvas. *)
Lemma manage_pipes_loop_order (entropy : nat -> Z) (fuel : nat) :
  ∀ (n i : nat) (g g' : Game.t),
    Game._manage_pipes_loop fuel entropy n i g = Return g' →
    ∃ kept new, Game._obstacles g' = kept ++ new ∧
                kept `sublist_of` Game._obstacles g ∧
                Forall (created (Canvas.next_id (Game._canvas g))) new ∧
                (Canvas.next_id (Game._canvas g) ≤ Canvas.next_id (Game._canvas g'))%nat.
Proof.
  induction fuel as [|fuel IH]; intros n i g g' Hloop; [done|].
  cbn [Game._manage_pipes_loop] in Hloop.
  destruct (Game._obstacles g !! i) as [o|] eqn:Ho.
  - assert (Hstep1 : ∃ n1 g1 new1,
      (if Obstacle.halfway o then
         y ← Py.randrange Game._MIN_RANGE_OF_PIPES Game._MAX_RANGE_OF_PIPES (entropy n);
         let '(canvas, new_obstacle) :=
           Obstacle.__init__ (Game._canvas g)
             (Game._SCREEN_WIDTH + Game._DISTANCE_BETWEEN_OBSTACLES) y in
         Return (S n, Game.set_obstacles (Game.set_canvas g canvas)
                        (Game._obstacles g ++ [new_obstacle]))
       else Return (n, g)) = Return (n1, g1) ∧
      Game._obstacles g1 = Game._obstacles g ++ new1 ∧
      Forall (created (Canvas.next_id (Game._canvas g))) new1 ∧
      (Canvas.next_id (Game._canvas g) ≤ Canvas.next_id (Game._canvas g1))%nat).
    { destruct (Obstacle.halfway o).
      - destruct (randrange_pipes (entropy n)) as (y & Hy & -> & _). rewrite bind_Return.
        pose proof (obstacle_init_ids (Game._canvas g)
                      (Game._SCREEN_WIDTH + Game._DISTANCE_BETWEEN_OBSTACLES) y) as [Hid Hnext].
        destruct (Obstacle.__init__ (Game._canvas g)
                    (Game._SCREEN_WIDTH + Game._DISTANCE_BETWEEN_OBSTACLES) y)
          as [c' o'] eqn:Hinit.
        cbn [fst snd] in Hid, Hnext.
        eexists _, _, [o']. split; [reflexivity|]. split; [done|]. game_fields.
        split; [|lia]. constructor; [|done]. split; [|lia].
        eexists _, _, _. by rewrite Hinit.
      - exists n, g, []. rewrite app_nil_r. by repeat split. }
    destruct Hstep1 as (n1 & g1 & new1 & Hstep1 & Hl1 & Hnew1 & Hnext1).
    rewrite Hstep1, bind_Return in Hloop. cbn beta iota in Hloop.
    assert (Hstep2 : ∃ g2,
      (if Obstacle.off_screen o then
         l ← Py.remove Obstacle.is_ o (Game._obstacles g1);
         Return (Game.set_obstacles
                   (Game.set_canvas g1 (Canvas.delete (Game._canvas g1) [])) l)
       else Return g1) = Return g2 ∧
      Game._obstacles g2 `sublist_of` Game._obstacles g1 ∧
      Canvas.next_id (Game._canvas g2) = Canvas.next_id (Game._canvas g1)).
    { destruct (Obstacle.off_screen o); [|by exists g1].
      destruct (Py.remove Obstacle.is_ o (Game._obstacles g1)) as [l2| |] eqn:Hrem; [|done..].
      eexists. split; [done|]. split; [by apply remove_sublist in Hrem|done]. }
    destruct Hstep2 as (g2 & Hstep2 & Hl2 & Hnext2).
    rewrite Hstep2, bind_Return in Hloop.
    destruct (IH _ _ _ _ Hloop) as (kept & new & Hl' & Hkept & Hnew & Hnext).
    assert (Hsplit : kept `sublist_of` Game._obstacles g ++ new1).
    { rewrite <- Hl1. by transitivity (Game._obstacles g2). }
    apply sublist_app_r in Hsplit as (k1 & k2 & -> & Hk1 & Hk2).
    exists k1, (k2 ++ new). split; [by rewrite Hl', app_assoc|]. split; [done|].
    split; [|lia]. apply Forall_app. split; [by apply (sublist_Forall _ _ new1)|].
    eapply Forall_impl; [exact Hnew|]. intros o' [Hc Hid]. split; [done|lia].
  - injection Hloop as <-. exists (Game._obstacles g), []. rewrite app_nil_r.
    by repeat split.
Qed.

Lemma move_obstacles_moved (c : Canvas.t) (l : list Obstacle.t) :
  ∀ c' l', Game.move_obstacles c l = Return (c', l') →
           Forall2 moved l l' ∧ Canvas.next_id c' = Canvas.next_id c.
Proof.
  revert c. induction l as [|o l IH]; intros c c' l' Hmove.
  - injection Hmove as <- <-. split; [constructor|done].
  - cbn [Game.move_obstacles] in Hmove.
    destruct (Obstacle.move_obstacle c o) as [[c1 o1]| |] eqn:Ho; [|done..].
    rewrite bind_Return in Hmove.
    destruct (Game.move_obstacles c1 l) as [[c2 l2]| |] eqn:Hl; [|done..].
    rewrite bind_Return in Hmove. injection Hmove as <- <-.
    destruct (IH c1 c2 l2 Hl) as [Hmoved Hnext].
    split; [constructor; [by exists c, c1|done]|].
    rewrite Hnext. clear - Ho.
    unfold Obstacle.move_obstacle, Obstacle._check_obstacle_positions, Py.index in Ho.
    cbn [Obstacle.bottom_obstacle_position] in Ho.
    destruct (_ !! Obstacle.RIGHT_X); [|done]. rewrite bind_Return in Ho.
    destruct (_ !! Obstacle._LEFT_X); [|done]. rewrite !bind_Return in Ho.
    injection Ho as <- _. unfold Canvas.move.
    by repeat (destruct (_ !! _); cbn [Canvas.next_id Canvas.items]).
Qed.

(** A stream tick keeps the order of the stream: the pairs it leaves are
    the pairs it found, moved, less the removed ones and in the same order,
    followed by the new pairs. *)
Lemma manage_pipes_order (entropy : nat -> Z) (g g' : Game.t) :
  Game._manage_pipes entropy g = Return g' →
  ∃ c1 before,
    Game.move_obstacles (Game._canvas g) (Game._obstacles g) = Return (c1, before) ∧
    Forall2 moved (Game._obstacles g) before ∧
    ∃ kept new,
    Game._obstacles g' = kept ++ new ∧
    kept `sublist_of` before ∧
    Forall (created (Canvas.next_id (Game._canvas g))) new ∧
    (Canvas.next_id (Game._canvas g) ≤ Canvas.next_id (Game._canvas g'))%nat.
Proof.
  unfold Game._manage_pipes. intros Hpipes.
  destruct (Game.move_obstacles _ _) as [[c1 l1]| |] eqn:Hmove; [|done..].
  rewrite bind_Return in Hpipes. cbn beta iota zeta in Hpipes.
  cbn [Game._obstacles Game.set_obstacles Game.set_canvas Game._canvas] in Hpipes.
  exists c1, l1. split; [done|]. apply move_obstacles_moved in Hmove as [Hmoved Hnext1].
  split; [done|]. rewrite <- Hnext1.
  destruct l1 as [|o1 l1].
  - cbn [length Nat.eqb] in Hpipes.
    destruct (randrange_pipes (entropy 0%nat)) as (y & Hy & Hrand & _).
    rewrite Hrand, bind_Return in Hpipes.
    pose proof (obstacle_init_ids c1 Game._SCREEN_WIDTH y) as [Hid Hnext].
    destruct (Obstacle.__init__ c1 Game._SCREEN_WIDTH y) as [c' o'] eqn:Hinit.
    cbn [fst snd] in Hid, Hnext.
    rewrite bind_Return in Hpipes. cbn beta iota in Hpipes.
    apply manage_pipes_loop_order in Hpipes as (kept & new & Hl' & Hkept & Hnew & Hnext').
    cbn [Game._obstacles Game.set_obstacles Game.set_canvas Game._canvas app] in *.
    exists [], (kept ++ new). split; [done|]. split; [done|]. split; [|lia].
    apply Forall_app. split.
    + apply (sublist_Forall _ _ [o']); [done|].
      constructor; [|done]. split; [|lia]. eexists _, _, _. by rewrite Hinit.
    + eapply Forall_impl; [exact Hnew|]. intros o [Hc Hid']. split; [done|lia].
  - cbn [length Nat.eqb] in Hpipes. rewrite bind_Return in Hpipes. cbn beta iota in Hpipes.
    apply manage_pipes_loop_order in Hpipes as (kept & new & Hl' & Hkept & Hnew & Hnext').
    cbn [Game._obstacles Game.set_obstacles Game.set_canvas Game._canvas] in *.
    by exists kept, new.
Qed.

(** ** C5, C7 and C8: one pair from its creation on *)

(** After every move the flag [halfway] is the test of the left edge against
    half the screen width, and nothing else. *)
Lemma move_obstacle_halfway (c c' : Canvas.t) (o o' : Obstacle.t) :
  Obstacle.move_obstacle c o = Return (c', o') →
  ∃ left_x,
    Obstacle.bottom_obstacle_position o' !! Obstacle._LEFT_X = Some left_x ∧
    Obstacle.halfway o'
    = Float.eqb left_x (Float.div (Float.of_int Obstacle._SCREEN_WIDTH) (Float.of_int 2)).
Proof.
  unfold Obstacle.move_obstacle, Obstacle._check_obstacle_positions, Py.index.
  cbn [Obstacle.bottom_obstacle_position].
  destruct (_ !! Obstacle.RIGHT_X) as [r|]; [|done]. rewrite bind_Return.
  destruct (_ !! Obstacle._LEFT_X) as [lx|] eqn:Hleft; [|done]. rewrite !bind_Return.
  intros [= <- <-]. exists lx. by split.
Qed.

(** C5, as amended.  The flag [halfway] of a pair is true on the one tick
    on which the move puts the pair's left edge at 180, and false on every
    other tick of the pair's life, also after the edge has passed 180: for a
    pair created at 360 it is tick 90, for a pair created at 440 tick 130. *)
Theorem C5_halfway_only_at_midpoint (c : Canvas.t) (x y : Z) (k : nat) :
  x = 360 ∨ x = 440 → 200 ≤ y < 600 → 2 * Z.of_nat k ≤ x + 70 →
  ∃ c' o',
    obstacle_run k (Obstacle.__init__ c x y).1 (Obstacle.__init__ c x y).2 = Return (c', o') ∧
    Obstacle.bottom_obstacle_position o' !! Obstacle._LEFT_X
    = Some (Float.of_int (x - 2 * Z.of_nat k)) ∧
    (Obstacle.halfway o' = true ↔ x - 2 * Z.of_nat k = 180).
Proof.
  intros Hx Hy Hk.
  destruct (new_obstacle_run c x y k) as (c' & o' & Hrun & Hrep); [lia..|].
  exists c', o'. split; [done|].
  destruct (represents_positions c' o' _ (ex_intro _ y Hrep)) as (_ & _ & Hleft & _).
  split; [done|].
  destruct Hrep as (_ & _ & _ & _ & _ & -> & _). cbn [Stream.halfway].
  rewrite andb_true_iff, Z.ltb_lt, Z.eqb_eq. lia.
Qed.

Lemma C5_witness :
  ∃ c' o',
    obstacle_run 90 (Obstacle.__init__ Canvas.new 360 300).1
      (Obstacle.__init__ Canvas.new 360 300).2 = Return (c', o') ∧
    Obstacle.bottom_obstacle_position o' !! Obstacle._LEFT_X = Some (Float.of_int 180) ∧
    Obstacle.halfway o' = true.
Proof.
  destruct (C5_halfway_only_at_midpoint Canvas.new 360 300 90) as (c' & o' & Hrun & Hleft & Hhalf).
  - left. reflexivity.
  - lia.
  - lia.
  - exists c', o'. split; [exact Hrun|]. split; [exact Hleft|].
    apply Hhalf. reflexivity.
Defined.

(** C5, as stated, fails: one tick after its left edge has reached 180 the
    pair is at 178, past the midpoint, and its flag is false again. *)
Lemma C5_counterexample :
  ∃ c90 o90 c91 o91,
    obstacle_run 90 (Obstacle.__init__ Canvas.new 360 300).1
      (Obstacle.__init__ Canvas.new 360 300).2 = Return (c90, o90) ∧
    Obstacle.bottom_obstacle_position o90 !! Obstacle._LEFT_X = Some (Float.of_int 180) ∧
    Obstacle.halfway o90 = true ∧
    obstacle_run 91 (Obstacle.__init__ Canvas.new 360 300).1
      (Obstacle.__init__ Canvas.new 360 300).2 = Return (c91, o91) ∧
    Obstacle.bottom_obstacle_position o91 !! Obstacle._LEFT_X = Some (Float.of_int 178) ∧
    Float.leb (Float.of_int 178) (Float.of_int 180) = true ∧
    Obstacle.halfway o91 = false.
Proof.
  eexists _, _, _, _.
  split; [vm_compute; reflexivity|]. split; [vm_compute; reflexivity|].
  split; [vm_compute; reflexivity|]. split; [vm_compute; reflexivity|].
  split; [vm_compute; reflexivity|]. split; vm_compute; reflexivity.
Qed.

(** C7.  On every tick of the life of a pair created with a gap centre [y]
    of the spawn range, the two barriers are on the canvas with the same
    horizontal extent, the top barrier from [y - 640] to [y - 150] and the
    bottom barrier from [y] to [y + 640]; the cached positions are these
    rectangles, and the rectangles share no point. *)
Theorem C7_barriers_never_overlap (c : Canvas.t) (x y : Z) (k : nat) :
  x = 360 ∨ x = 440 → 200 ≤ y < 600 → 2 * Z.of_nat k ≤ x + 70 →
  ∃ c' o' top_barrier bottom_barrier,
    obstacle_run k (Obstacle.__init__ c x y).1 (Obstacle.__init__ c x y).2 = Return (c', o') ∧
    Canvas.items c' !! Obstacle._top_rectangle o' = Some top_barrier ∧
    Canvas.items c' !! Obstacle._bottom_rectangle o' = Some bottom_barrier ∧
    Obstacle.top_obstacle_position o' = rect_coords top_barrier ∧
    Obstacle.bottom_obstacle_position o' = rect_coords bottom_barrier ∧
    top_barrier = box (x - 2 * Z.of_nat k) (y - 640) (x - 2 * Z.of_nat k + 70) (y - 150) ∧
    bottom_barrier = box (x - 2 * Z.of_nat k) y (x - 2 * Z.of_nat k + 70) (y + 640) ∧
    intersects top_barrier bottom_barrier = false.
Proof.
  intros Hx Hy Hk.
  destruct (new_obstacle_run c x y k) as (c' & o' & Hrun & Hrep); [lia..|].
  destruct Hrep as (_ & Htop & Hbot & Hpt & Hpb & _).
  cbn [Stream.x] in *.
  exists c', o', (top_box (x - 2 * Z.of_nat k) y), (bottom_box (x - 2 * Z.of_nat k) y).
  repeat split; try done. by apply barriers_apart.
Qed.

Lemma C7_witness :
  ∃ c' o' top_barrier bottom_barrier,
    obstacle_run 10 (Obstacle.__init__ Canvas.new 440 200).1
      (Obstacle.__init__ Canvas.new 440 200).2 = Return (c', o') ∧
    Obstacle.top_obstacle_position o' = rect_coords top_barrier ∧
    Obstacle.bottom_obstacle_position o' = rect_coords bottom_barrier ∧
    top_barrier = box 420 (-440) 490 50 ∧
    bottom_barrier = box 420 200 490 840 ∧
    intersects top_barrier bottom_barrier = false.
Proof.
  destruct (C7_barriers_never_overlap Canvas.new 440 200 10)
    as (c' & o' & tb & bb & Hrun & _ & _ & Htop & Hbot & -> & -> & Hapart).
  - right. reflexivity.
  - lia.
  - lia.
  - exists c', o', (box 420 (-440) 490 50), (box 420 200 490 840).
    split; [exact Hrun|]. split; [exact Htop|]. split; [exact Hbot|].
    split; [reflexivity|]. split; [reflexivity|]. exact Hapart.
Defined.

(** ** Sessions from a new game *)

Section FromNewGame.
Context `{FindOverlapping}.

Lemma session_reachable (inputs : list (list Event * (nat -> Z))) (g : Game.t) :
  session_run inputs (Game.__init__ Canvas.new) = Return g →
  ∃ s, Stream.after (length inputs) = Some s ∧ well_formed g s.
Proof.
  intros Hrun.
  destruct (session_run_outline inputs _ 0 [] eq_refl game_init_well_formed)
    as (g0 & s & Hrun0 & Hs & Hwf & _).
  rewrite Hrun in Hrun0. injection Hrun0 as <-. by exists s.
Qed.

Lemma session_returns (inputs : list (list Event * (nat -> Z))) :
  ∃ g, session_run inputs (Game.__init__ Canvas.new) = Return g.
Proof.
  destruct (session_run_outline inputs _ 0 [] eq_refl game_init_well_formed)
    as (g & _ & Hrun & _).
  by exists g.
Qed.

Lemma session_run_app (inputs more : list (list Event * (nat -> Z))) (g : Game.t) :
  session_run (inputs ++ more) g = g' ← session_run inputs g; session_run more g'.
Proof.
  revert g. induction inputs as [|[events entropy] inputs IH]; intros g; [done|].
  cbn [app session_run].
  destruct (game_tick entropy (deliver events g)) as [g1| |]; [|done..].
  rewrite !bind_Return. apply IH.
Qed.

(** In a session the score never goes down. *)
Lemma session_score_monotone (inputs more : list (list Event * (nat -> Z))) (g g' : Game.t) :
  session_run inputs (Game.__init__ Canvas.new) = Return g →
  session_run more g = Return g' →
  Game.score g ≤ Game.score g'.
Proof.
  intros Hrun Hmore. destruct (session_reachable inputs g Hrun) as (s & Hs & Hwf).
  destruct (session_run_outline more g _ s Hs Hwf) as (g1 & _ & Hrun1 & _ & _ & Hle).
  rewrite Hmore in Hrun1. by injection Hrun1 as <-.
Qed.

(** In a session no pair that is off screen is left in the stream when a
    tick ends, every pair of the stream has its barriers apart, and the
    entity's right edge stays at 80. *)
Lemma session_stream (inputs : list (list Event * (nat -> Z))) (g : Game.t) :
  session_run inputs (Game.__init__ Canvas.new) = Return g →
  Forall (fun o => Obstacle.off_screen o = false ∧
                   ∃ x y, 200 ≤ y < 600 ∧ at_position o x y ∧
                          intersects (top_box x y) (bottom_box x y) = false)
    (Game._obstacles g) ∧
  Player.get_coordinates (Game._canvas g) (Game._player g) !! Player.RIGHT_X
  = Some (Float.of_int 80).
Proof.
  intros Hrun. destruct (session_reachable inputs g Hrun) as (s & Hs & Hwf).
  destruct (outline_at (length inputs)) as (s' & Hs' & _ & Hoff & _).
  rewrite Hs in Hs'. injection Hs' as <-.
  split.
  - pose proof (wf_stream g s Hwf) as Hrep. clear Hs Hwf Hrun.
    induction Hrep as [|o a l s' Ho _ IH]; [constructor|].
    apply Forall_cons in Hoff as [Ha Hoff]. constructor; [|by apply IH].
    destruct Ho as (y & Hy & _ & _ & Hpt & Hpb & _ & Hf).
    split; [congruence|]. exists (Stream.x a), y.
    split; [done|]. split; [done|]. by apply barriers_apart.
  - destruct (player_coordinates g s Hwf) as (t & b & ->). done.
Qed.

End FromNewGame.

(** ** Following one pair through a session *)

Lemma head_moves_always (n : nat) (s : list Stream.pair) :
  Stream.after n = Some s → head_moves s = true.
Proof.
  assert (Hall : forallb (fun m => match Stream.after m with
                                   | Some s => head_moves s
                                   | None => true
                                   end) (seq 0 221) = true) by (vm_compute; reflexivity).
  rewrite forallb_forall in Hall. rewrite after_fold. intros Hs.
  assert (Hin : In (Stream.fold_tick n) (seq 0 221)).
  { apply in_seq. pose proof (fold_tick_lt n). lia. }
  apply Hall in Hin. by rewrite Hs in Hin.
Qed.

Lemma moved_top (o o' : Obstacle.t) :
  moved o o' → Obstacle._top_rectangle o' = Obstacle._top_rectangle o.
Proof.
  intros (c & c' & Hmove).
  unfold Obstacle.move_obstacle, Obstacle._check_obstacle_positions, Py.index in Hmove.
  cbn [Obstacle.bottom_obstacle_position] in Hmove.
  destruct (_ !! Obstacle.RIGHT_X); [|done]. rewrite bind_Return in Hmove.
  destruct (_ !! Obstacle._LEFT_X); [|done]. rewrite !bind_Return in Hmove.
  by injection Hmove as _ <-.
Qed.

Lemma moved_tops (l l' : list Obstacle.t) :
  Forall2 moved l l' → Obstacle._top_rectangle <$> l' = Obstacle._top_rectangle <$> l.
Proof.
  induction 1 as [|o o' l l' Ho _ IH]; [done|].
  rewrite !fmap_cons, IH. f_equal. by apply moved_top.
Qed.

Lemma created_not_old (n i : nat) (new : list Obstacle.t) :
  Forall (created n) new → (i < n)%nat → i ∉ Obstacle._top_rectangle <$> new.
Proof.
  intros Hnew Hi (o & -> & Ho)%list_elem_of_fmap.
  rewrite Forall_forall in Hnew. destruct (Hnew o Ho) as [_ Hle]. lia.
Qed.

Section Tracking.
Context `{FindOverlapping}.

(** One tick of a session, seen from the pairs: a pair that is not in the
    stream does not come back, and the nearest pair either stays the
    nearest pair, two to the left, or leaves the stream. *)
Lemma game_tick_track (entropy : nat -> Z) (g g' : Game.t) (n : nat) (s : list Stream.pair) :
  Stream.after n = Some s → well_formed g s → game_tick entropy g = Return g' →
  ∃ s', Stream.after (S n) = Some s' ∧ well_formed g' s' ∧
        (Canvas.next_id (Game._canvas g) ≤ Canvas.next_id (Game._canvas g'))%nat ∧
        (∀ i, (i < Canvas.next_id (Game._canvas g))%nat → i ∉ tops g → i ∉ tops g') ∧
        (∀ o l a t, Game._obstacles g = o :: l → s = a :: t →
           (∃ o' l' a' t', Game._obstacles g' = o' :: l' ∧ s' = a' :: t' ∧
                           Obstacle._top_rectangle o' = Obstacle._top_rectangle o ∧
                           Stream.x a' = Stream.x a - 2)
           ∨ Obstacle._top_rectangle o ∉ tops g').
Proof.
  intros Hn Hwf Htick.
  destruct (outline_at n) as (s0 & Hn0 & Hrange & _ & _ & [s' Hs']).
  rewrite Hn in Hn0. injection Hn0 as <-.
  destruct (outline_at (S n)) as (s1 & Hn1 & Hrange' & Hoff' & Hne & _).
  assert (s1 = s') as ->.
  { cbn [Stream.after] in Hn1. rewrite Hn in Hn1.
    change (Stream.tick s = Some s1) in Hn1. congruence. }
  destruct (player_move_well_formed g s Hwf) as (cm & pm & Hmove & Hwfm & Hnextm).
  set (gm := Game.set_player (Game.set_canvas g cm) pm) in *.
  destruct (manage_pipes_outline entropy gm s s' Hwfm Hrange Hs') as (g2 & Hpipes & Hwf2 & Hso).
  destruct (manage_collisions_returns g2 s' Hwf2) as (v & Hv).
  destruct s' as [|a' t']; [by destruct Hne|].
  pose proof (manage_score_well_formed g2 a' t' Hwf2 Hrange') as Hscore.
  unfold game_tick in Htick. rewrite Hmove, bind_Return in Htick. cbn beta iota zeta in Htick.
  fold gm in Htick. rewrite Hpipes, bind_Return, Hv, bind_Return, Hscore in Htick.
  injection Htick as <-.
  assert (Hobs : Game._obstacles (if Stream.x a' =? 10 then scored g2 else g2)
                 = Game._obstacles g2) by (by destruct (_ =? 10)).
  assert (Hcan : Game._canvas (if Stream.x a' =? 10 then scored g2 else g2)
                 = Game._canvas g2) by (by destruct (_ =? 10)).
  exists (a' :: t'). split; [done|].
  split; [destruct (_ =? 10); [by apply scored_well_formed|done]|].
  destruct (manage_pipes_order entropy gm g2 Hpipes)
    as (c1 & before & Hbefore & Hmoved & kept & new & Hl2 & Hkept & Hnew & Hnext2).
  pose proof (wf_distinct gm s Hwfm) as Hnd. apply NoDup_cons in Hnd as [_ Hnd].
  destruct (move_obstacles_represents _ _ _ (wf_stream gm s Hwfm) Hrange Hnd)
    as (c1' & before' & Hbefore' & Hrep1 & _).
  rewrite Hbefore in Hbefore'. injection Hbefore' as <- <-.
  assert (Htops_before : Obstacle._top_rectangle <$> before = tops g).
  { by rewrite (moved_tops _ _ Hmoved). }
  assert (Hnd_tops : NoDup (tops g)).
  { exact (sublist_NoDup _ _ Hnd (tops_sublist _)). }
  assert (Htops' : tops (if Stream.x a' =? 10 then scored g2 else g2)
                   = (Obstacle._top_rectangle <$> kept) ++ (Obstacle._top_rectangle <$> new)).
  { unfold tops. by rewrite Hobs, Hl2, fmap_app. }
  rewrite Htops', Hobs, Hcan, Hl2.
  change (Canvas.next_id (Game._canvas gm)) with (Canvas.next_id cm) in *.
  rewrite Hnextm in *.
  split; [done|]. split.
  - intros i Hi Hnot [Hin|Hin]%elem_of_app.
    + apply Hnot. rewrite <- Htops_before.
      eapply elem_of_sublist; [exact Hin|]. by apply fmap_sublist.
    + revert Hin. by eapply created_not_old.
  - intros o l a t Hl ->.
    change (Game._obstacles gm) with (Game._obstacles g) in *. rewrite Hl in *.
    apply Forall2_cons_inv_l in Hmoved as (o_b & rest & Ho_b & Hrest & ->).
    rewrite fmap_cons in Hrep1.
    apply Forall2_cons_inv_l in Hrep1 as (a_b & t_b & Hrep_b & _ & Hab).
    injection Hab as <- _.
    unfold tops in Htops_before, Hnd_tops. rewrite Hl, !fmap_cons in *.
    injection Htops_before as Htop_b Htops_rest.
    apply NoDup_cons in Hnd_tops as [Hnotin _].
    apply sublist_cons_r in Hkept as [Hkept|(kept' & -> & Hkept)].
    + right. intros [Hin|Hin]%elem_of_app.
      * apply Hnotin. rewrite <- Htops_rest.
        eapply elem_of_sublist; [exact Hin|]. by apply fmap_sublist.
      * revert Hin. eapply created_not_old; [exact Hnew|].
        apply (rectangles_below_next g (a :: t)); [done|].
        rewrite Hl, rectangles_cons. apply elem_of_cons. by left.
    + left. exists o_b, (kept' ++ new), a', t'.
      split; [done|]. split; [done|]. split; [done|].
      pose proof (wf_stream g2 _ Hwf2) as Hrep2. rewrite Hl2 in Hrep2. cbn [app] in Hrep2.
      apply Forall2_cons in Hrep2 as [Hrep2 _].
      apply Forall_cons in Hoff' as [Hoff' _].
      assert (Hflag : Stream.off_screen (Stream.move_pair a) = false).
      { destruct Hrep_b as (? & _ & _ & _ & _ & _ & _ & <-).
        destruct Hrep2 as (? & _ & _ & _ & _ & _ & _ & ->). done. }
      pose proof (head_moves_always n (a :: t) Hn) as Hhead.
      unfold head_moves in Hhead. rewrite Hs', Hflag in Hhead. cbn in Hhead.
      by apply Z.eqb_eq in Hhead.
Qed.

End Tracking.

Section TrackingSessions.
Context `{FindOverlapping}.

Lemma deliver_stream (events : list Event) (g : Game.t) :
  Game._obstacles (deliver events g) = Game._obstacles g ∧
  Game._canvas (deliver events g) = Game._canvas g.
Proof.
  revert g. induction events as [|ev events IH]; intros g; [done|].
  change (deliver (ev :: events) g) with (deliver events (Game._event_entered g ev)).
  destruct (IH (Game._event_entered g ev)) as [-> ->]. done.
Qed.

(** The same over the ticks of a session. *)
Lemma session_track (more : list (list Event * (nat -> Z))) :
  ∀ (g g2 : Game.t) (n : nat) (s : list Stream.pair),
    Stream.after n = Some s → well_formed g s → session_run more g = Return g2 →
    ∃ s2, Stream.after (n + length more) = Some s2 ∧ well_formed g2 s2 ∧
          (Canvas.next_id (Game._canvas g) ≤ Canvas.next_id (Game._canvas g2))%nat ∧
          (∀ i, (i < Canvas.next_id (Game._canvas g))%nat → i ∉ tops g → i ∉ tops g2) ∧
          (∀ o l a t, Game._obstacles g = o :: l → s = a :: t →
             (∃ o2 l2 a2 t2, Game._obstacles g2 = o2 :: l2 ∧ s2 = a2 :: t2 ∧
                             Obstacle._top_rectangle o2 = Obstacle._top_rectangle o ∧
                             Stream.x a2 = Stream.x a - 2 * Z.of_nat (length more))
             ∨ Obstacle._top_rectangle o ∉ tops g2).
Proof.
  induction more as [|[events entropy] more IH]; intros g g2 n s Hn Hwf Hrun.
  - injection Hrun as <-. exists s. rewrite Nat.add_0_r.
    split; [done|]. split; [done|]. split; [done|]. split; [done|].
    intros o l a t Hl ->. left. exists o, l, a, t. cbn [length]. repeat split; try done. lia.
  - cbn [session_run] in Hrun.
    destruct (game_tick entropy (deliver events g)) as [g1| |] eqn:Htick; [|done..].
    rewrite bind_Return in Hrun.
    pose proof (deliver_well_formed events g s Hwf) as Hwf0.
    destruct (deliver_stream events g) as [Hobs0 Hcan0].
    destruct (game_tick_track entropy _ g1 n s Hn Hwf0 Htick)
      as (s1 & Hn1 & Hwf1 & Hnext1 & Hids1 & Hhead1).
    unfold tops in Hids1, Hhead1. rewrite Hobs0, Hcan0 in *. fold (tops g) in Hids1.
    destruct (IH g1 g2 (S n) s1 Hn1 Hwf1 Hrun) as (s2 & Hn2 & Hwf2 & Hnext2 & Hids2 & Hhead2).
    exists s2. cbn [length].
    replace (n + S (length more))%nat with (S n + length more)%nat by lia.
    split; [done|]. split; [done|]. split; [lia|]. split.
    + intros i Hi Hnot. apply Hids2; [lia|]. by apply Hids1.
    + intros o l a t Hl ->.
      destruct (Hhead1 o l a t Hl eq_refl) as [(o1 & l1 & a1 & t1 & Hl1 & -> & Htop1 & Hx1)|Hgone].
      * destruct (Hhead2 o1 l1 a1 t1 Hl1 eq_refl)
          as [(o2 & l2 & a2 & t2 & Hl2 & -> & Htop2 & Hx2)|Hgone].
        -- left. exists o2, l2, a2, t2. split; [done|]. split; [done|].
           split; [congruence|lia].
        -- right. by rewrite <- Htop1.
      * right. apply Hids2; [|done].
        assert (Obstacle._top_rectangle o < Canvas.next_id (Game._canvas g))%nat; [|lia].
        apply (rectangles_below_next g (a :: t)); [done|].
        rewrite Hl, rectangles_cons. apply elem_of_cons. by left.
Qed.

(** In a session no pair scores twice: when a tick ends with the entity's
    right edge on the right edge of the nearest pair, no later tick of the
    session ends so with the same pair the nearest. *)
Theorem session_scores_once (inputs more : list (list Event * (nat -> Z)))
  (g1 g2 : Game.t) (o1 o2 : Obstacle.t) (l1 l2 : list Obstacle.t) (r1 r2 : Float.t) :
  session_run inputs (Game.__init__ Canvas.new) = Return g1 →
  more ≠ [] → session_run more g1 = Return g2 →
  Game._obstacles g1 = o1 :: l1 → Game._obstacles g2 = o2 :: l2 →
  Obstacle._top_rectangle o2 = Obstacle._top_rectangle o1 →
  Obstacle.bottom_obstacle_position o1 !! Obstacle.RIGHT_X = Some r1 →
  Obstacle.bottom_obstacle_position o2 !! Obstacle.RIGHT_X = Some r2 →
  Float.eqb (Float.of_int 80) r1 = true →
  Float.eqb (Float.of_int 80) r2 = false.
Proof.
  intros Hrun Hmore Hrun2 Hl1 Hl2 Htop Hr1 Hr2 Heq.
  destruct (session_reachable inputs g1 Hrun) as (s1 & Hs1 & Hwf1).
  destruct (outline_at (length inputs)) as (s & Hs & Hrange1 & _).
  rewrite Hs1 in Hs. injection Hs as <-.
  destruct (session_track more g1 g2 _ s1 Hs1 Hwf1 Hrun2) as (s2 & Hs2 & Hwf2 & _ & _ & Hhead).
  destruct (outline_at (length inputs + length more)) as (s & Hs & Hrange2 & _).
  rewrite Hs2 in Hs. injection Hs as <-.
  pose proof (wf_stream g1 s1 Hwf1) as Hrep1. rewrite Hl1 in Hrep1.
  apply Forall2_cons_inv_l in Hrep1 as (a1 & t1 & Hrep1 & _ & ->).
  destruct (represents_positions _ _ _ Hrep1) as (_ & _ & _ & Hright1).
  change Obstacle.RIGHT_X with 2%nat in Hr1, Hr2.
  rewrite Hr1 in Hright1. injection Hright1 as ->.
  apply Forall_cons in Hrange1 as [Ha1 _].
  rewrite eq_player_right in Heq by lia. apply Z.eqb_eq in Heq.
  destruct (Hhead o1 l1 a1 t1 Hl1 eq_refl)
    as [(o2' & l2' & a2 & t2 & Hl2' & -> & _ & Hx2)|Hgone].
  - rewrite Hl2 in Hl2'. injection Hl2' as <- <-.
    pose proof (wf_stream g2 _ Hwf2) as Hrep2. rewrite Hl2 in Hrep2.
    apply Forall2_cons in Hrep2 as [Hrep2 _].
    destruct (represents_positions _ _ _ Hrep2) as (_ & _ & _ & Hright2).
    rewrite Hr2 in Hright2. injection Hright2 as ->.
    apply Forall_cons in Hrange2 as [Ha2 _].
    rewrite eq_player_right by lia. apply Z.eqb_neq.
    destruct more; [done|]. cbn [length] in Hx2. lia.
  - exfalso. apply Hgone. unfold tops. rewrite Hl2, fmap_cons, Htop.
    apply elem_of_cons. by left.
Qed.

End TrackingSessions.

(** ** The first two pairs of a game *)

Lemma randrange_onto (y : Z) :
  200 ≤ y < 600 →
  ∃ e, Py.randrange Game._MIN_RANGE_OF_PIPES Game._MAX_RANGE_OF_PIPES e = Return y.
Proof.
  intros Hy. exists (y - 200).
  unfold Py.randrange, Game._MIN_RANGE_OF_PIPES, Game._MAX_RANGE_OF_PIPES.
  change (600 <=? 200) with false. change (600 - 200) with 400. cbv iota.
  rewrite Z.mod_small by lia. f_equal. lia.
Qed.

(** On an empty stream a stream tick creates one pair at 360, whose gap
    centre is the draw of [randrange]. *)
Lemma manage_pipes_first (entropy : nat -> Z) (g : Game.t) :
  Game._obstacles g = [] →
  ∃ y, y = 200 + entropy 0%nat mod 400 ∧ 200 ≤ y < 600 ∧
       Py.randrange Game._MIN_RANGE_OF_PIPES Game._MAX_RANGE_OF_PIPES (entropy 0%nat)
       = Return y ∧
       Game._manage_pipes entropy g
       = Return (Game.Make (Obstacle.__init__ (Game._canvas g) 360 y).1 (Game._player g)
                   [(Obstacle.__init__ (Game._canvas g) 360 y).2]
                   (Game._scoreboard g) (Game.score g)) ∧
       at_position (Obstacle.__init__ (Game._canvas g) 360 y).2 360 y ∧
       Obstacle.halfway (Obstacle.__init__ (Game._canvas g) 360 y).2 = false ∧
       Obstacle.off_screen (Obstacle.__init__ (Game._canvas g) 360 y).2 = false.
Proof.
  intros Hl. destruct (randrange_pipes (entropy 0%nat)) as (y & Hy & Hrand & Heq).
  exists y. split; [done|]. split; [done|]. split; [done|].
  rewrite (obstacle_init _ 360 y) by lia. cbn [fst snd]. split; [|done].
  unfold Game._manage_pipes. rewrite Hl. cbn [Game.move_obstacles]. rewrite bind_Return.
  cbn beta iota zeta. game_fields. cbn [length Nat.eqb]. rewrite Hrand, bind_Return.
  change Game._SCREEN_WIDTH with 360. rewrite (obstacle_init _ 360 y) by lia.
  rewrite bind_Return. cbn beta iota. game_fields. cbn [app length Nat.mul Nat.add].
  cbn [Game._manage_pipes_loop]. game_fields.
  cbn [lookup list_lookup Obstacle.halfway Obstacle.off_screen].
  rewrite !bind_Return. cbn [lookup list_lookup]. done.
Qed.

Lemma after_first_90 (n : nat) :
  (1 ≤ n ≤ 90)%nat →
  Stream.after n = Some [Stream.Pair (360 - 2 * (Z.of_nat n - 1)) false false].
Proof.
  intros Hn.
  assert (Hall : forallb (fun n => bool_decide
            (Stream.after n = Some [Stream.Pair (360 - 2 * (Z.of_nat n - 1)) false false]))
            (seq 1 90) = true) by (vm_compute; reflexivity).
  rewrite forallb_forall in Hall.
  assert (Hin : In n (seq 1 90)) by (apply in_seq; lia).
  apply Hall in Hin. by apply bool_decide_eq_true in Hin.
Qed.

Lemma after_91 :
  Stream.after 91 = Some [Stream.Pair 180 true false; Stream.Pair 440 false false].
Proof. by vm_compute. Qed.

Lemma represents_at_position (c : Canvas.t) (o : Obstacle.t) (a : Stream.pair) :
  represents c o a →
  ∃ y, 200 ≤ y < 600 ∧ at_position o (Stream.x a) y ∧
       Obstacle.halfway o = Stream.halfway a ∧ Obstacle.off_screen o = Stream.off_screen a.
Proof. intros (y & Hy & _ & _ & Hpt & Hpb & Hh & Hf). by exists y. Qed.

(** * The identity of the pairs *)

(** ** The outline with identities *)

Lemma ids_loop_stream (fuel : nat) :
  ∀ (i : nat) (s : list Stream.pair) (ids : list nat) (next : nat),
    fst <$> Ids.loop fuel i s ids next = Stream.loop fuel i s.
Proof.
  induction fuel as [|fuel IH]; intros i s ids next; [done|].
  cbn [Ids.loop Stream.loop]. destruct (s !! i) as [a|]; [|done].
  destruct (Stream.halfway a), (Stream.off_screen a); apply IH.
Qed.

Lemma ids_tick_stream (s : list Stream.pair) (ids : list nat) (next : nat) :
  fst <$> Ids.tick s ids next = Stream.tick s.
Proof.
  unfold Ids.tick, Stream.tick.
  destruct (length (Stream.move_pair <$> s) =? 0)%nat; apply ids_loop_stream.
Qed.

Lemma ids_after_stream (n : nat) : fst <$> Ids.after n = Stream.after n.
Proof.
  induction n as [|n IH]; [done|]. cbn [Ids.after Stream.after].
  rewrite <- IH. destruct (Ids.after n) as [[s [ids next]]|]; [|done].
  apply ids_tick_stream.
Qed.

Lemma fmap_delete_list {A B : Type} (f : A -> B) (i : nat) (l : list A) :
  f <$> delete i l = delete i (f <$> l).
Proof.
  revert i. induction l as [|x l IH]; intros [|i]; cbn; [done..|].
  f_equal. apply IH.
Qed.

Lemma ids_loop_shift (k fuel : nat) :
  ∀ (i : nat) (s : list Stream.pair) (ids : list nat) (next : nat),
    Ids.loop fuel i s ((fun i => (i + k)%nat) <$> ids) (next + k)
    = Ids.shift k <$> Ids.loop fuel i s ids next.
Proof.
  induction fuel as [|fuel IH]; intros i s ids next; [done|].
  cbn [Ids.loop]. destruct (s !! i) as [a|]; [|done].
  destruct (Stream.halfway a), (Stream.off_screen a);
    rewrite <- ?IH; repeat f_equal;
    by rewrite ?fmap_delete_list, ?fmap_app.
Qed.

Lemma ids_tick_shift (k : nat) (s : list Stream.pair) (ids : list nat) (next : nat) :
  Ids.tick s ((fun i => (i + k)%nat) <$> ids) (next + k)
  = Ids.shift k <$> Ids.tick s ids next.
Proof.
  unfold Ids.tick. destruct (length (Stream.move_pair <$> s) =? 0)%nat.
  - rewrite <- ids_loop_shift. by rewrite fmap_app.
  - apply ids_loop_shift.
Qed.

(** From tick 91 on, 130 ticks later the stream is the same and every
    identity is 2 higher. *)
Lemma ids_after_period (n : nat) :
  (91 ≤ n)%nat → Ids.after (n + 130) = Ids.shift 2 <$> Ids.after n.
Proof.
  induction 1 as [|n Hn IH]; [by vm_compute|].
  cbn [Nat.add Ids.after]. rewrite IH.
  destruct (Ids.after n) as [[s [ids next]]|]; [|done]. cbn.
  apply ids_tick_shift.
Qed.

Lemma ids_after_periods (q n : nat) :
  (91 ≤ n)%nat → Ids.after (n + q * 130) = Ids.shift (2 * q) <$> Ids.after n.
Proof.
  intros Hn. induction q as [|q IH].
  - rewrite Nat.add_0_r. destruct (Ids.after n) as [[s [ids next]]|]; [|done].
    cbn. unfold Ids.shift. cbn. rewrite Nat.add_0_r. do 3 f_equal.
    induction ids as [|i ids IHids]; [done|]. cbn. rewrite <- IHids. f_equal. lia.
  - replace (n + S q * 130)%nat with (n + q * 130 + 130)%nat by lia.
    rewrite ids_after_period by lia. rewrite IH.
    destruct (Ids.after n) as [[s [ids next]]|]; [|done].
    cbn. unfold Ids.shift. cbn. do 3 f_equal; [|lia].
    rewrite <- list_fmap_compose. apply list_fmap_ext. intros _ i _. cbn. lia.
Qed.

Lemma ids_shift (q r : nat) :
  (91 ≤ r)%nat → (r < 221)%nat →
  ids (r + q * 130) = (fun i => (i + 2 * q)%nat) <$> ids r ∧
  next_id_after (r + q * 130) = (next_id_after r + 2 * q)%nat.
Proof.
  intros Hr Hr'. unfold ids, next_id_after.
  destruct (Nat.eqb_spec (r + q * 130) 0), (Nat.eqb_spec r 0); try lia.
  destruct (Nat.ltb_spec (r + q * 130) 91), (Nat.ltb_spec r 91); try lia.
  replace (r + q * 130 - 91)%nat with (r - 91 + q * 130)%nat by lia.
  rewrite Nat.div_add, Nat.Div0.mod_add by lia.
  rewrite (Nat.div_small (r - 91) 130), (Nat.mod_small (r - 91) 130) by lia.
  split; [|lia]. cbn [Nat.add].
  destruct (r - 91 <? 125)%nat; cbn; repeat f_equal; lia.
Qed.

Lemma ids_match_always (n : nat) : ids_match n = true.
Proof.
  assert (Hall : forallb ids_match (seq 0 221) = true) by (vm_compute; reflexivity).
  rewrite forallb_forall in Hall.
  destruct (Nat.ltb_spec n 221) as [Hn|Hn]; [apply Hall, in_seq; lia|].
  pose proof (Nat.div_mod_eq (n - 91) 130) as Hdiv.
  pose proof (Nat.mod_upper_bound (n - 91) 130) as Hmod.
  set (q := ((n - 91) / 130)%nat) in *. set (r := (91 + (n - 91) mod 130)%nat).
  assert (Heq : n = (r + q * 130)%nat) by (unfold r; lia).
  assert (Hr : ids_match r = true) by (apply Hall, in_seq; unfold r; lia).
  unfold ids_match in *. apply bool_decide_eq_true_1 in Hr. apply bool_decide_eq_true_2.
  rewrite Heq, ids_after_periods by (unfold r; lia).
  destruct (ids_shift q r) as [-> ->]; [unfold r; lia..|].
  destruct (Ids.after r) as [[s [l next]]|]; [|done].
  cbn in Hr. injection Hr as -> ->. done.
Qed.

(** The outline with identities at tick [n]. *)
Lemma ids_at (n : nat) :
  ∃ s, Stream.after n = Some s ∧ Ids.after n = Some (s, (ids n, next_id_after n)).
Proof.
  pose proof (ids_match_always n) as Hn. unfold ids_match in Hn.
  apply bool_decide_eq_true_1 in Hn. pose proof (ids_after_stream n) as Hs.
  destruct (Ids.after n) as [[s [l next]]|]; [|done].
  cbn in Hn, Hs. injection Hn as -> ->. by exists s.
Qed.

(** ** The stream follows the outline with identities *)

Lemma tops_app (g : Game.t) (c : Canvas.t) (o : Obstacle.t) :
  tops (Game.set_obstacles (Game.set_canvas g c) (Game._obstacles g ++ [o]))
  = tops g ++ [Obstacle._top_rectangle o].
Proof. unfold tops. game_fields. by rewrite fmap_app. Qed.

Lemma manage_pipes_loop_ids (entropy : nat -> Z) (fuel : nat) :
  ∀ (n i : nat) (g : Game.t) (s : list Stream.pair) (r : Ids.t),
    well_formed g s →
    Ids.loop fuel i s (tops g) (Canvas.next_id (Game._canvas g)) = Some r →
    ∃ g', Game._manage_pipes_loop fuel entropy n i g = Return g' ∧
          well_formed g' r.1 ∧ tops g' = r.2.1 ∧
          Canvas.next_id (Game._canvas g') = r.2.2.
Proof.
  induction fuel as [|fuel IH]; intros n i g s r Hwf Hloop; [done|].
  cbn [Ids.loop] in Hloop. cbn [Game._manage_pipes_loop].
  destruct (s !! i) as [a|] eqn:Hs.
  - destruct (Forall2_lookup_r _ _ _ _ _ (wf_stream g s Hwf) Hs) as (o & Ho & Hrep).
    rewrite Ho.
    assert (Hflags : Obstacle.halfway o = Stream.halfway a ∧
                     Obstacle.off_screen o = Stream.off_screen a).
    { destruct Hrep as (y & _ & _ & _ & _ & _ & Hh & Hf). done. }
    destruct Hflags as [-> ->].
    assert (Hstep1 : ∃ n1 g1,
      (if Stream.halfway a then
         y ← Py.randrange Game._MIN_RANGE_OF_PIPES Game._MAX_RANGE_OF_PIPES (entropy n);
         let '(canvas, new_obstacle) :=
           Obstacle.__init__ (Game._canvas g)
             (Game._SCREEN_WIDTH + Game._DISTANCE_BETWEEN_OBSTACLES) y in
         Return (S n, Game.set_obstacles (Game.set_canvas g canvas)
                        (Game._obstacles g ++ [new_obstacle]))
       else Return (n, g)) = Return (n1, g1) ∧
      well_formed g1 (if Stream.halfway a then s ++ [Stream.Pair 440 false false] else s) ∧
      Game._obstacles g1 !! i = Some o ∧
      (if Stream.halfway a
       then (s ++ [Stream.Pair 440 false false],
             (tops g ++ [Canvas.next_id (Game._canvas g)],
              S (S (Canvas.next_id (Game._canvas g)))))
       else (s, (tops g, Canvas.next_id (Game._canvas g))))
      = ((if Stream.halfway a then s ++ [Stream.Pair 440 false false] else s),
         (tops g1, Canvas.next_id (Game._canvas g1)))).
    { destruct (Stream.halfway a).
      - destruct (randrange_pipes (entropy n)) as (y & Hy & -> & _).
        rewrite bind_Return.
        pose proof (obstacle_init_ids (Game._canvas g)
                      (Game._SCREEN_WIDTH + Game._DISTANCE_BETWEEN_OBSTACLES) y) as [Hid Hnext].
        destruct (Obstacle.__init__ (Game._canvas g)
                    (Game._SCREEN_WIDTH + Game._DISTANCE_BETWEEN_OBSTACLES) y)
          as [c' o'] eqn:Hinit.
        cbn [fst snd] in Hid, Hnext.
        destruct (well_formed_spawn g s 440 y Hwf ltac:(lia) Hy c' o' Hinit) as [Hwf1 _].
        eexists _, _. split; [reflexivity|]. split; [done|]. split.
        + cbn. rewrite lookup_app_l; [done|]. by apply lookup_lt_Some with o.
        + rewrite tops_app, Hid. game_fields. by rewrite Hnext.
      - by exists n, g. }
    destruct Hstep1 as (n1 & g1 & -> & Hwf1 & Ho1 & Hids1).
    rewrite Hids1 in Hloop. clear Hids1.
    rewrite bind_Return. cbn beta iota.
    set (s1 := if Stream.halfway a then s ++ [Stream.Pair 440 false false] else s) in *.
    assert (Hstep2 : ∃ g2,
      (if Stream.off_screen a then
         l ← Py.remove Obstacle.is_ o (Game._obstacles g1);
         Return (Game.set_obstacles
                   (Game.set_canvas g1 (Canvas.delete (Game._canvas g1) [])) l)
       else Return g1) = Return g2 ∧
      well_formed g2 (if Stream.off_screen a then delete i s1 else s1) ∧
      (if Stream.off_screen a then (delete i s1, delete i (tops g1)) else (s1, tops g1))
      = ((if Stream.off_screen a then delete i s1 else s1), tops g2) ∧
      Canvas.next_id (Game._canvas g2) = Canvas.next_id (Game._canvas g1)).
    { destruct (Stream.off_screen a).
      - destruct (well_formed_remove g1 s1 i o Hwf1 Ho1) as [-> Hwf2].
        eexists. split; [reflexivity|]. rewrite canvas_delete_nil.
        split; [by destruct g1|]. split; [|done].
        unfold tops. game_fields. by rewrite fmap_delete_list.
      - by exists g1. }
    destruct Hstep2 as (g2 & -> & Hwf2 & Hids2 & Hnext2).
    rewrite Hids2, <- Hnext2 in Hloop. rewrite bind_Return.
    by apply (IH n1 (S i) g2 _ r Hwf2).
  - injection Hloop as <-.
    assert (Hnone : Game._obstacles g !! i = None).
    { apply lookup_ge_None. rewrite (Forall2_length _ _ _ (wf_stream g s Hwf)).
      by apply lookup_ge_None. }
    rewrite Hnone. by exists g.
Qed.

Lemma manage_pipes_ids (entropy : nat -> Z) (g : Game.t) (s : list Stream.pair) (r : Ids.t) :
  well_formed g s → in_range s →
  Ids.tick s (tops g) (Canvas.next_id (Game._canvas g)) = Some r →
  ∃ g', Game._manage_pipes entropy g = Return g' ∧
        well_formed g' r.1 ∧ tops g' = r.2.1 ∧
        Canvas.next_id (Game._canvas g') = r.2.2.
Proof.
  intros Hwf Hrange Htick. unfold Game._manage_pipes.
  pose proof (wf_distinct g s Hwf) as Hnd. apply NoDup_cons in Hnd as [Hpr Hnd].
  destruct (move_obstacles_represents _ _ _ (wf_stream g s Hwf) Hrange Hnd)
    as (c1 & l1 & Hmove & Hrep1 & Hrect1 & Hnext1 & Hframe1 & Hdom1).
  rewrite Hmove, bind_Return. cbn beta iota zeta.
  destruct (move_obstacles_moved _ _ _ _ Hmove) as [Hmoved _].
  apply moved_tops in Hmoved.
  set (g1 := Game.set_obstacles (Game.set_canvas g c1) l1).
  assert (Hwf1 : well_formed g1 (Stream.move_pair <$> s)).
  { split; unfold g1; game_fields.
    - done.
    - rewrite Hrect1. apply Hwf.
    - intros i Hi. rewrite Hnext1. by apply Hwf, Hdom1.
    - rewrite Hframe1 by done. apply Hwf.
    - apply Hwf.
    - apply Hwf. }
  assert (Htops1 : tops g1 = tops g) by done.
  assert (Hn1 : Canvas.next_id (Game._canvas g1) = Canvas.next_id (Game._canvas g)) by done.
  unfold Ids.tick in Htick. rewrite <- Htops1, <- Hn1 in Htick.
  set (s1 := Stream.move_pair <$> s) in *.
  assert (Hlen1 : length (Game._obstacles g1) = length s1).
  { apply (Forall2_length _ _ _ (wf_stream _ _ Hwf1)). }
  rewrite Hlen1.
  assert (Hstep : ∃ n2 g2,
    (if (length s1 =? 0)%nat then
       y ← Py.randrange Game._MIN_RANGE_OF_PIPES Game._MAX_RANGE_OF_PIPES (entropy 0%nat);
       let '(canvas, obstacle) := Obstacle.__init__ (Game._canvas g1) Game._SCREEN_WIDTH y in
       Return (1%nat, Game.set_obstacles (Game.set_canvas g1 canvas)
                        (Game._obstacles g1 ++ [obstacle]))
     else Return (0%nat, g1)) = Return (n2, g2) ∧
    well_formed g2 (if (length s1 =? 0)%nat then s1 ++ [Stream.Pair 360 false false] else s1) ∧
    (if (length s1 =? 0)%nat
     then (s1 ++ [Stream.Pair 360 false false],
           (tops g1 ++ [Canvas.next_id (Game._canvas g1)],
            S (S (Canvas.next_id (Game._canvas g1)))))
     else (s1, (tops g1, Canvas.next_id (Game._canvas g1))))
    = ((if (length s1 =? 0)%nat then s1 ++ [Stream.Pair 360 false false] else s1),
       (tops g2, Canvas.next_id (Game._canvas g2)))).
  { destruct (length s1 =? 0)%nat.
    - destruct (randrange_pipes (entropy 0%nat)) as (y & Hy & -> & _).
      rewrite bind_Return.
      pose proof (obstacle_init_ids (Game._canvas g1) Game._SCREEN_WIDTH y) as [Hid Hnext].
      destruct (Obstacle.__init__ (Game._canvas g1) Game._SCREEN_WIDTH y)
        as [c' o'] eqn:Hinit.
      cbn [fst snd] in Hid, Hnext.
      destruct (well_formed_spawn g1 s1 360 y Hwf1 ltac:(lia) Hy c' o' Hinit) as [Hwf2 _].
      eexists _, _. split; [reflexivity|]. split; [done|].
      rewrite tops_app, Hid. game_fields. by rewrite Hnext.
    - by exists 0%nat, g1. }
  destruct Hstep as (n2 & g2 & -> & Hwf2 & Hids2).
  rewrite Hids2 in Htick. rewrite bind_Return. cbn beta iota.
  rewrite (Forall2_length _ _ _ (wf_stream _ _ Hwf2)).
  by apply (manage_pipes_loop_ids entropy _ n2 0 g2 _ r Hwf2).
Qed.

(** * The game in closed form *)

(** ** The outline as a function of the tick *)

Lemma fold_tick_ge (n : nat) : (221 ≤ n)%nat →
  (91 ≤ Stream.fold_tick n)%nat ∧
  ((Stream.fold_tick n - 91) mod 130 = (n - 91) mod 130)%nat.
Proof.
  intros Hn. unfold Stream.fold_tick.
  destruct (Nat.ltb_spec n 221) as [|_]; [lia|]. split; [lia|].
  replace (91 + (n - 91) mod 130 - 91)%nat with ((n - 91) mod 130)%nat by lia.
  by rewrite Nat.Div0.mod_mod.
Qed.

Lemma positions_fold (n : nat) : positions (Stream.fold_tick n) = positions n.
Proof.
  destruct (Nat.ltb_spec n 221) as [Hn|Hn].
  { unfold Stream.fold_tick. by destruct (Nat.ltb_spec n 221); [|lia]. }
  destruct (fold_tick_ge n Hn) as [Hge Hmod]. unfold positions. rewrite Hmod.
  destruct (Nat.eqb_spec (Stream.fold_tick n) 0), (Nat.eqb_spec n 0); try lia.
  by destruct (Nat.ltb_spec (Stream.fold_tick n) 91), (Nat.ltb_spec n 91); try lia.
Qed.

Lemma scoring_fold (n : nat) : scoring (Stream.fold_tick n) = scoring n.
Proof.
  destruct (Nat.ltb_spec n 221) as [Hn|Hn].
  { unfold Stream.fold_tick. by destruct (Nat.ltb_spec n 221); [|lia]. }
  unfold Stream.fold_tick. destruct (Nat.ltb_spec n 221) as [|_]; [lia|].
  pose proof (Nat.div_mod_eq (n - 91) 130) as Hdiv.
  pose proof (Nat.mod_upper_bound (n - 91) 130) as Hr.
  set (r := ((n - 91) mod 130)%nat) in *. set (q := ((n - 91) / 130)%nat) in *.
  assert (Hr' : (r < 130)%nat) by lia. clear Hr.
  unfold scoring.
  replace (91 + r - 46)%nat with (r + 45)%nat by lia.
  replace (n - 46)%nat with (r + 45 + q * 130)%nat by lia.
  rewrite Nat.Div0.mod_add.
  destruct (Nat.leb_spec 130 (r + 45)), (Nat.leb_spec 130 (r + 45 + q * 130));
    try lia; cbn [andb]; [done|].
  symmetry. apply Nat.eqb_neq. rewrite Nat.mod_small; lia.
Qed.

Lemma outline_matches_always (n : nat) : outline_matches n = true.
Proof.
  assert (Hall : forallb outline_matches (seq 0 221) = true) by (vm_compute; reflexivity).
  rewrite forallb_forall in Hall.
  assert (Hfold : outline_matches (Stream.fold_tick n) = true).
  { apply Hall, in_seq. pose proof (fold_tick_lt n). lia. }
  unfold outline_matches in *.
  by rewrite <- after_fold, positions_fold, scoring_fold in Hfold.
Qed.

(** At every tick the left edges of the outline are [positions], its
    [halfway] flags mark the pair at 180, and it awards a point exactly on
    the [scoring] ticks. *)
Lemma outline_positions (n : nat) (s : list Stream.pair) :
  Stream.after n = Some s →
  Stream.x <$> s = positions n ∧
  Forall (fun a => Stream.halfway a = (Stream.x a =? 180)) s ∧
  points s = (if scoring n then 1 else 0).
Proof.
  intros Hs. pose proof (outline_matches_always n) as Hn.
  unfold outline_matches in Hn. rewrite Hs in Hn.
  apply andb_prop in Hn as [Hn Hpoints]. apply andb_prop in Hn as [Hx Hhalf].
  apply bool_decide_eq_true_1 in Hx. apply Z.eqb_eq in Hpoints.
  split; [done|]. split; [|done].
  rewrite forallb_forall in Hhalf. apply Forall_forall.
  intros a Ha%list_elem_of_In. apply Hhalf in Ha.
  by destruct (Stream.halfway a), (Stream.x a =? 180).
Qed.

Lemma score_after_S (n : nat) :
  score_after (S n) = score_after n + (if scoring (S n) then 1 else 0).
Proof.
  unfold score_after, scoring.
  destruct (Nat.le_gt_cases 46 n) as [Hn|Hn].
  - replace (S n - 46)%nat with (S (n - 46)) by lia.
    set (a := (n - 46)%nat). clearbody a.
    pose proof (Nat.div_mod_eq a 130) as Ha.
    pose proof (Nat.mod_upper_bound a 130) as Hr.
    pose proof (Nat.div_mod_eq (S a) 130) as Ha'.
    pose proof (Nat.mod_upper_bound (S a) 130) as Hr'.
    destruct (Nat.eqb_spec (S a mod 130) 0) as [Hz|Hz].
    + assert (130 ≤ S a)%nat by lia.
      destruct (Nat.leb_spec 130 (S a)); [|lia]. cbn [andb]. lia.
    + rewrite andb_false_r. lia.
  - replace (S n - 46)%nat with 0%nat by lia. replace (n - 46)%nat with 0%nat by lia.
    done.
Qed.

(** ** What input events change *)

Lemma events_entered_fields (events : list Event) (p : Player.t) :
  Player.player_rectangle (foldl Player.event_entered p events) = Player.player_rectangle p ∧
  Player._control_key (foldl Player.event_entered p events) = Player._control_key p ∧
  Player._control_button (foldl Player.event_entered p events) = Player._control_button p ∧
  Player._y_velocity (foldl Player.event_entered p events) = Player._y_velocity p.
Proof.
  revert p. induction events as [|ev events IH]; intros p; [done|].
  cbn [foldl]. destruct (IH (Player.event_entered p ev)) as (-> & -> & -> & ->).
  unfold Player.event_entered. by destruct (_ || _).
Qed.

Lemma deliver_player (events : list Event) (g : Game.t) :
  Game._player (deliver events g) = foldl Player.event_entered (Game._player g) events.
Proof.
  revert g. induction events as [|ev events IH]; intros g; [done|].
  change (deliver (ev :: events) g) with (deliver events (Game._event_entered g ev)).
  by rewrite IH.
Qed.

(** ** A tick, step by step *)

Section Ticks.
Context `{FindOverlapping}.

(** One tick of a well-formed game at tick [n] of its outline, with its
    intermediate states: the entity moves, then the stream, which leaves
    the entity alone, and the tick awards the points of the outline. *)
Lemma game_tick_steps (entropy : nat -> Z) (g : Game.t) (n : nat) (s : list Stream.pair) :
  Stream.after n = Some s → well_formed g s →
  ∃ c1 p1 g2 s',
    Player.move (Game._canvas g) (Game._player g) = Return (c1, p1) ∧
    Game._manage_pipes entropy (Game.set_player (Game.set_canvas g c1) p1) = Return g2 ∧
    stream_only (Game.set_player (Game.set_canvas g c1) p1) g2 ∧
    Stream.after (S n) = Some s' ∧ well_formed g2 s' ∧ s' ≠ [] ∧
    game_tick entropy g = Return (if points s' =? 1 then scored g2 else g2).
Proof.
  intros Hn Hwf.
  destruct (outline_at n) as (s0 & Hn0 & Hrange & _ & _ & [s' Htick]).
  rewrite Hn in Hn0. injection Hn0 as <-.
  destruct (outline_at (S n)) as (s1 & Hn1 & Hrange' & _ & Hne & _).
  assert (s1 = s') as ->.
  { cbn [Stream.after] in Hn1. rewrite Hn in Hn1.
    change (Stream.tick s = Some s1) in Hn1. congruence. }
  destruct (player_move_well_formed g s Hwf) as (c1 & p1 & Hmove & Hwf1 & _).
  destruct (manage_pipes_outline entropy _ s s' Hwf1 Hrange Htick)
    as (g2 & Hpipes & Hwf2 & Hso).
  destruct (manage_collisions_returns g2 s' Hwf2) as (v & Hv).
  exists c1, p1, g2, s'. do 5 (split; [done|]). split; [by apply Hne|].
  destruct s' as [|a s']; [by destruct Hne|].
  unfold game_tick. rewrite Hmove, bind_Return. cbn beta iota zeta.
  rewrite Hpipes, bind_Return, Hv, bind_Return.
  rewrite (manage_score_well_formed g2 a s' Hwf2 Hrange').
  unfold points. by destruct (Stream.x a =? 10).
Qed.

Lemma deliver_score (events : list Event) (g : Game.t) :
  Game.score (deliver events g) = Game.score g ∧
  Game._scoreboard (deliver events g) = Game._scoreboard g.
Proof.
  revert g. induction events as [|ev events IH]; intros g; [done|].
  change (deliver (ev :: events) g) with (deliver events (Game._event_entered g ev)).
  destruct (IH (Game._event_entered g ev)) as [-> ->]. done.
Qed.

(** The score of a game that has reached tick [n] with the score of that
    tick has the score of the tick it reaches. *)
Lemma session_run_score (inputs : list (list Event * (nat -> Z))) :
  ∀ (g g' : Game.t) (n : nat) (s : list Stream.pair),
    Stream.after n = Some s → well_formed g s →
    Game.score g = score_after n →
    session_run inputs g = Return g' →
    Game.score g' = score_after (n + length inputs).
Proof.
  induction inputs as [|[events entropy] inputs IH]; intros g g' n s Hn Hwf Hsc Hrun.
  - injection Hrun as <-. by rewrite Nat.add_0_r.
  - cbn [session_run length] in *.
    pose proof (deliver_well_formed events g s Hwf) as Hwf0.
    destruct (game_tick_steps entropy _ n s Hn Hwf0)
      as (c1 & p1 & g2 & s' & _ & _ & Hso & Hn' & Hwf2 & _ & Htick).
    rewrite Htick, bind_Return in Hrun.
    destruct (outline_positions (S n) s' Hn') as (_ & _ & Hpoints).
    destruct Hso as (_ & Hsb & Hsc2 & _). cbn in Hsb, Hsc2.
    destruct (deliver_score events g) as [Hd Hdb].
    replace (n + S (length inputs))%nat with (S n + length inputs)%nat by lia.
    refine (IH _ g' (S n) s' Hn' _ _ Hrun).
    + destruct (points s' =? 1); [by apply scored_well_formed|done].
    + rewrite score_after_S, Hpoints.
      destruct (scoring (S n)); cbn [Z.eqb Pos.eqb].
      * cbn. rewrite Hsb, Hdb, <- (wf_score g s Hwf), Hsc.
        unfold Scoreboard._POINT_WORTH. done.
      * rewrite Hsc2, Hd, Hsc. lia.
Qed.

(** The pairs of the stream after the ticks of a session: their cached
    boxes are at [positions], with a gap centre of the range of
    [randrange], the pair at 180 is [halfway] and no pair is
    [off_screen]. *)
Lemma session_positions (inputs : list (list Event * (nat -> Z))) (g : Game.t) :
  session_run inputs (Game.__init__ Canvas.new) = Return g →
  Forall2 (fun o x => (∃ y, 200 ≤ y < 600 ∧ at_position o x y) ∧
                      Obstacle.halfway o = (x =? 180) ∧
                      Obstacle.off_screen o = false)
    (Game._obstacles g) (positions (length inputs)).
Proof.
  intros Hrun. destruct (session_reachable inputs g Hrun) as (s & Hs & Hwf).
  destruct (outline_at (length inputs)) as (s' & Hs' & _ & Hoff & _).
  rewrite Hs in Hs'. injection Hs' as <-.
  destruct (outline_positions _ s Hs) as (<- & Hhalf & _).
  pose proof (wf_stream g s Hwf) as Hrep. clear Hs Hwf Hrun.
  induction Hrep as [|o a l s' Ho _ IH]; [constructor|].
  apply Forall_cons in Hoff as [Ha Hoff]. apply Forall_cons in Hhalf as [Hh Hhalf].
  rewrite fmap_cons. constructor; [|by apply IH].
  destruct Ho as (y & Hy & _ & _ & Hpt & Hpb & Hc & Hf).
  split; [by exists y|]. split; congruence.
Qed.

(** The next tick of a game returns. *)
Lemma session_next_tick (inputs : list (list Event * (nat -> Z))) (g : Game.t)
  (events : list Event) (entropy : nat -> Z) :
  session_run inputs (Game.__init__ Canvas.new) = Return g →
  ∃ g', game_tick entropy (deliver events g) = Return g' ∧
        session_run (inputs ++ [(events, entropy)]) (Game.__init__ Canvas.new) = Return g'.
Proof.
  intros Hrun. destruct (session_reachable inputs g Hrun) as (s & Hs & Hwf).
  pose proof (deliver_well_formed events g s Hwf) as Hwf0.
  destruct (game_tick_steps entropy _ _ s Hs Hwf0)
    as (c1 & p1 & g2 & s' & _ & _ & _ & _ & _ & _ & Htick).
  eexists. split; [done|].
  rewrite session_run_app, Hrun, bind_Return. cbn [session_run].
  by rewrite Htick, bind_Return.
Qed.

End Ticks.

(** ** The identities along a game *)

Section Identities.
Context `{FindOverlapping}.

Lemma game_tick_ids (entropy : nat -> Z) (g : Game.t) (n : nat) (s : list Stream.pair) :
  Ids.after n = Some (s, (tops g, Canvas.next_id (Game._canvas g))) → well_formed g s →
  ∃ g' s', game_tick entropy g = Return g' ∧ well_formed g' s' ∧
           Ids.after (S n) = Some (s', (tops g', Canvas.next_id (Game._canvas g'))).
Proof.
  intros Hids Hwf.
  assert (Hs : Stream.after n = Some s) by (by rewrite <- ids_after_stream, Hids).
  destruct (game_tick_steps entropy g n s Hs Hwf)
    as (c1 & p1 & g2 & s' & Hmove & Hpipes & _ & Hs' & Hwf2 & _ & Htick).
  destruct (outline_at n) as (s0 & Hs0 & Hrange & _).
  rewrite Hs in Hs0. injection Hs0 as <-.
  destruct (player_move_well_formed g s Hwf) as (c1' & p1' & Hmove' & Hwf1 & Hnext1).
  rewrite Hmove in Hmove'. injection Hmove' as <- <-.
  assert (Hst : Stream.tick s = Some s').
  { cbn [Stream.after] in Hs'. by rewrite Hs in Hs'. }
  assert (Htick_ids : ∃ r, Ids.tick s (tops g) (Canvas.next_id (Game._canvas g)) = Some r
                           ∧ r.1 = s').
  { pose proof (ids_tick_stream s (tops g) (Canvas.next_id (Game._canvas g))) as Hfst.
    rewrite Hst in Hfst.
    destruct (Ids.tick _ _ _) as [r|]; [|done]. exists r. split; [done|].
    cbn in Hfst. congruence. }
  destruct Htick_ids as (r & Hr & Hr1).
  destruct (manage_pipes_ids entropy (Game.set_player (Game.set_canvas g c1) p1) s r Hwf1 Hrange)
    as (g2' & Hpipes' & Hwfr & Htops & Hnext).
  { unfold tops. game_fields. by rewrite Hnext1. }
  rewrite Hpipes in Hpipes'. injection Hpipes' as <-.
  exists (if points s' =? 1 then scored g2 else g2), s'. split; [done|]. split.
  - destruct (points s' =? 1); [by apply scored_well_formed|done].
  - cbn [Ids.after]. rewrite Hids. cbn. rewrite Hr. destruct r as [s'' [l next]].
    cbn in *. subst. by destruct (points s' =? 1).
Qed.

Lemma session_run_ids (inputs : list (list Event * (nat -> Z))) :
  ∀ (g g' : Game.t) (n : nat) (s : list Stream.pair),
    Ids.after n = Some (s, (tops g, Canvas.next_id (Game._canvas g))) → well_formed g s →
    session_run inputs g = Return g' →
    ∃ s', Ids.after (n + length inputs)
          = Some (s', (tops g', Canvas.next_id (Game._canvas g'))) ∧
          well_formed g' s'.
Proof.
  induction inputs as [|[events entropy] inputs IH]; intros g g' n s Hids Hwf Hrun.
  - injection Hrun as <-. exists s. by rewrite Nat.add_0_r.
  - cbn [session_run length] in *.
    pose proof (deliver_well_formed events g s Hwf) as Hwf0.
    destruct (deliver_stream events g) as [Hl Hc].
    destruct (game_tick_ids entropy (deliver events g) n s) as (g1 & s1 & Htick & Hwf1 & Hids1).
    { unfold tops. by rewrite Hl, Hc. }
    { done. }
    rewrite Htick, bind_Return in Hrun.
    replace (n + S (length inputs))%nat with (S n + length inputs)%nat by lia.
    by apply (IH g1 g' (S n) s1).
Qed.

(** After [n] ticks of a game, the pairs of its stream are [ids n], and
    the canvas hands out [next_id_after n] next. *)
Lemma session_ids (inputs : list (list Event * (nat -> Z))) (g : Game.t) :
  session_run inputs (Game.__init__ Canvas.new) = Return g →
  tops g = ids (length inputs) ∧
  Canvas.next_id (Game._canvas g) = next_id_after (length inputs).
Proof.
  intros Hrun.
  destruct (session_run_ids inputs (Game.__init__ Canvas.new) g 0 [])
    as (s' & Hids & _); [done|apply game_init_well_formed|done|].
  destruct (ids_at (length inputs)) as (s & _ & Hat). cbn [Nat.add] in Hids.
  rewrite Hat in Hids. by injection Hids as _ <- <-.
Qed.

End Identities.

(** ** What [manage_collisions] returns *)

Section CollisionValues.
Context `{FindOverlapping}.

(** Input events change nothing that [manage_collisions] reads. *)
Lemma deliver_collisions (events : list Event) (g : Game.t) :
  Game.manage_collisions (deliver events g) = Game.manage_collisions g.
Proof.
  destruct (deliver_stream events g) as [Hl Hc].
  destruct (events_entered_fields events (Game._player g)) as (Hr & _).
  unfold Game.manage_collisions, Player.get_coordinates.
  by rewrite Hl, Hc, deliver_player, Hr.
Qed.

(** With a pair in the stream and well-shaped coordinates,
    [manage_collisions] returns [True] or falls off its end. *)
Lemma manage_collisions_values (g : Game.t) (s : list Stream.pair) :
  well_formed g s → s ≠ [] →
  Game.manage_collisions g = Return (Some true) ∨ Game.manage_collisions g = Return None.
Proof.
  intros Hwf Hne. pose proof (wf_stream g s Hwf) as Hrep.
  destruct s as [|a s]; [done|].
  apply Forall2_cons_inv_r in Hrep as (o & l & Ho & _ & Hl).
  destruct (represents_positions _ _ _ Ho) as (Hb & Ht & _).
  destruct (player_coordinates g _ Hwf) as (t & b & Hp).
  unfold Game.manage_collisions, Game.overlapping.
  rewrite Hl, Hp. cbn -[Float.geb Float.leb Float.of_int].
  destruct (Obstacle.bottom_obstacle_position o) as [|a1 [|a2 [|a3 [|a4 [|]]]]]; try done.
  destruct (Obstacle.top_obstacle_position o) as [|b1 [|b2 [|b3 [|b4 [|]]]]]; try done.
  cbn -[Float.geb Float.leb Float.of_int].
  match goal with |- context [bool_decide ?P] => destruct (bool_decide P) end;
    cbn -[Float.geb Float.leb Float.of_int]; [by left|].
  match goal with |- context [bool_decide ?P] => destruct (bool_decide P) end;
    cbn -[Float.geb Float.leb Float.of_int]; [by left|].
  destruct (Float.geb b (Float.of_int Game._SCREEN_HEIGHT));
    cbn -[Float.leb Float.of_int]; [by left|].
  destruct (Float.leb t (Float.of_int 0)); [by left|by right].
Qed.

(** A game that has ticked has a pair in its stream. *)
Lemma session_not_empty (inputs : list (list Event * (nat -> Z))) (g : Game.t) :
  inputs ≠ [] → session_run inputs (Game.__init__ Canvas.new) = Return g →
  ∃ s, well_formed g s ∧ s ≠ [].
Proof.
  intros Hne Hrun. destruct (session_reachable inputs g Hrun) as (s & Hs & Hwf).
  exists s. split; [done|].
  destruct (outline_at (length inputs)) as (s' & Hs' & _ & _ & Hn & _).
  rewrite Hs in Hs'. injection Hs' as <-. apply Hn. by destruct inputs.
Qed.

(** A game that has ticked, with the entity out of the vertical bounds. *)
Lemma session_boundary (inputs : list (list Event * (nat -> Z))) (g : Game.t)
  (x1 y1 x2 y2 : Float.t) :
  inputs ≠ [] → session_run inputs (Game.__init__ Canvas.new) = Return g →
  Player.get_coordinates (Game._canvas g) (Game._player g) = [x1; y1; x2; y2] →
  Float.geb y2 (Float.of_int 640) = true ∨ Float.leb y1 (Float.of_int 0) = true →
  Game.manage_collisions g = Return (Some true).
Proof.
  intros Hne Hrun Hp Hout.
  destruct (session_not_empty inputs g Hne Hrun) as (s & Hwf & Hs).
  pose proof (wf_stream g s Hwf) as Hrep. destruct s as [|a s]; [done|].
  apply Forall2_cons_inv_r in Hrep as (o & l & Ho & _ & Hl).
  destruct (represents_positions _ _ _ Ho) as (Hb & Ht & _).
  by apply (manage_collisions_boundary g o l x1 y1 x2 y2).
Qed.

End CollisionValues.

(** * The claims about the evaluation *)

(** ** C1: the vertical bounds *)

Section Boundary.
Context `{FindOverlapping}.

Lemma deliver_coordinates (events : list Event) (g : Game.t) :
  Player.get_coordinates (Game._canvas (deliver events g)) (Game._player (deliver events g))
  = Player.get_coordinates (Game._canvas g) (Game._player g).
Proof.
  destruct (deliver_stream events g) as [_ Hc].
  destruct (events_entered_fields events (Game._player g)) as (Hr & _).
  unfold Player.get_coordinates. by rewrite Hc, deliver_player, Hr.
Qed.

(** In every state that a game reaches, an entity out of the vertical
    bounds is a collision.  Before the first tick, when the stream is
    empty, the entity is where [Game.__init__] has put it, within the
    bounds. *)
Lemma reachable_boundary (inputs : list (list Event * (nat -> Z))) (g : Game.t)
  (x1 y1 x2 y2 : Float.t) :
  session_run inputs (Game.__init__ Canvas.new) = Return g →
  Player.get_coordinates (Game._canvas g) (Game._player g) = [x1; y1; x2; y2] →
  Float.geb y2 (Float.of_int 640) = true ∨ Float.leb y1 (Float.of_int 0) = true →
  Game.manage_collisions g = Return (Some true).
Proof.
  intros Hrun Hp Hout. destruct inputs as [|input inputs].
  - injection Hrun as <-. exfalso.
    assert (Hnew : Player.get_coordinates (Game._canvas (Game.__init__ Canvas.new))
                     (Game._player (Game.__init__ Canvas.new))
                   = [Float.of_int 40; Float.of_int 300; Float.of_int 80; Float.of_int 340])
      by (by vm_compute).
    rewrite Hnew in Hp. injection Hp as _ <- _ <-.
    destruct Hout as [Hout|Hout]; vm_compute in Hout; discriminate.
  - by apply (session_boundary (input :: inputs) g x1 y1 x2 y2).
Qed.

End Boundary.

(** C1.  On every tick on which the entity's bottom edge is at or below
    the play-area height (640), or its top edge at or above 0, the
    collision evaluation of that tick reports a collision and the session
    ends: [manage_collisions] returns [True], and [check_restart], which
    [run_game] calls at the end of the tick, unpacks the game, packs the
    menu with the score and makes a new game.  This holds for every tick
    of every game, whatever the inputs, the random gaps and the overlap
    test, so whatever the state of the obstacle stream: a tick evaluates
    collisions after [_manage_pipes], with a pair in the stream.  It holds
    as well between the ticks, for [check_restart] called on a game in any
    state that it reaches, events delivered or not; the stream is empty
    only before the game's first tick, where the entity is within the
    bounds. *)
Theorem C1_boundary_terminates `{FindOverlapping} (inputs : list (list Event * (nat -> Z)))
  (events : list Event) (entropy : nat -> Z) (a : Application.t) (g : Game.t) :
  session_run inputs (Game.__init__ Canvas.new) = Return g →
  (∀ x1 y1 x2 y2,
     Player.get_coordinates (Game._canvas (deliver events g)) (Game._player (deliver events g))
     = [x1; y1; x2; y2] →
     Float.geb y2 (Float.of_int 640) = true ∨ Float.leb y1 (Float.of_int 0) = true →
     Game.manage_collisions (deliver events g) = Return (Some true) ∧
     Application.check_restart (Application.set_game a (deliver events g))
     = Return (terminated (Game.score (deliver events g)))) ∧
  ∃ g' x1 y1 x2 y2,
    game_tick entropy (deliver events g) = Return g' ∧
    Game._obstacles g' ≠ [] ∧
    Player.get_coordinates (Game._canvas g') (Game._player g') = [x1; y1; x2; y2] ∧
    (Float.geb y2 (Float.of_int 640) = true ∨ Float.leb y1 (Float.of_int 0) = true →
     Game.manage_collisions g' = Return (Some true) ∧
     run_game entropy (Application.set_game a (deliver events g))
     = Return (g', terminated (Game.score g'))).
Proof.
  intros Hrun. split.
  - intros x1 y1 x2 y2 Hp Hout. rewrite deliver_coordinates in Hp.
    assert (Hc : Game.manage_collisions (deliver events g) = Return (Some true)).
    { rewrite deliver_collisions. by apply (reachable_boundary inputs g x1 y1 x2 y2). }
    split; [done|]. by apply check_restart_collision.
  - destruct (session_next_tick inputs g events entropy Hrun) as (g' & Htick & Hrun').
    assert (Hne0 : inputs ++ [(events, entropy)] ≠ []) by (by destruct inputs).
    destruct (session_not_empty _ g' Hne0 Hrun') as (s' & Hwf' & Hne).
    destruct (player_coordinates g' s' Hwf') as (t & b & Hp).
    exists g', (Float.of_int 40), t, (Float.of_int 80), b.
    split; [done|]. split.
    { intros Hl. pose proof (wf_stream g' s' Hwf') as Hrep. rewrite Hl in Hrep.
      by apply Forall2_nil_inv_l in Hrep. }
    split; [done|]. intros Hout.
    assert (Hc : Game.manage_collisions g' = Return (Some true)).
    { by apply (reachable_boundary _ g' (Float.of_int 40) t (Float.of_int 80) b Hrun'). }
    split; [done|].
    rewrite run_game_tick. cbn [Application.game_object Application.set_game].
    rewrite Htick, bind_Return. by rewrite check_restart_collision.
Qed.

(** Left alone, the entity of a new game is below the play area after 35
    ticks: its bottom edge is at 655, and the 35th tick ends the session
    with the score 0. *)
Lemma C1_witness :
  ∃ g g',
    @session_run rectangle_overlap (replicate 34 quiet_tick) (Game.__init__ Canvas.new)
    = Return g ∧
    @game_tick rectangle_overlap (fun _ => 0) g = Return g' ∧
    Player.get_coordinates (Game._canvas g') (Game._player g')
    = [Float.of_int 40; Float.of_int 615; Float.of_int 80; Float.of_int 655] ∧
    Float.geb (Float.of_int 655) (Float.of_int 640) = true ∧
    @Game.manage_collisions rectangle_overlap g' = Return (Some true) ∧
    @run_game rectangle_overlap (fun _ => 0) (Application.set_game Application.__init__ g)
    = Return (g', terminated 0).
Proof.
  eexists _, _. split; [vm_compute; reflexivity|].
  split; [vm_compute; reflexivity|]. split; [vm_compute; reflexivity|].
  split; [vm_compute; reflexivity|].
  match goal with
  | |- Game.manage_collisions ?g' = _ ∧ run_game _ (Application.set_game _ ?g) = _ =>
      destruct (@C1_boundary_terminates rectangle_overlap (replicate 34 quiet_tick) []
                  (fun _ => 0) Application.__init__ g)
        as (_ & g1 & x1 & y1 & x2 & y2 & Htick & _ & Hp & Hout);
        [vm_compute; reflexivity|];
      assert (Hg1 : g1 = g');
        [assert (Htick' : @game_tick rectangle_overlap (fun _ => 0) g = Return g')
           by (vm_compute; reflexivity);
         change (deliver [] g) with g in Htick; rewrite Htick' in Htick;
         by injection Htick|]
  end.
  subst g1. vm_compute in Hp. injection Hp as <- <- <- <-.
  destruct Hout as [Hc Hrun].
  - left. vm_compute. reflexivity.
  - split; [exact Hc|exact Hrun].
Defined.

(** ** C3: the evaluation and the empty stream *)

Section EmptyStream.
Context `{FindOverlapping}.

(** The evaluation of a tick: when [run_game] comes to it, [_manage_pipes]
    has left a pair in the stream, [manage_collisions] returns [True] or
    [None], and [_manage_score] returns. *)
Lemma game_tick_evaluation (entropy : nat -> Z) (g : Game.t) (n : nat) (s : list Stream.pair) :
  Stream.after n = Some s → well_formed g s →
  ∃ c p g1 v g',
    Player.move (Game._canvas g) (Game._player g) = Return (c, p) ∧
    Game._manage_pipes entropy (Game.set_player (Game.set_canvas g c) p) = Return g1 ∧
    Game._obstacles g1 ≠ [] ∧
    Game.manage_collisions g1 = Return v ∧ v ≠ Some false ∧
    Game._manage_score g1 = Return g' ∧
    Game._obstacles g' = Game._obstacles g1 ∧
    game_tick entropy g = Return g'.
Proof.
  intros Hn Hwf.
  destruct (game_tick_steps entropy g n s Hn Hwf)
    as (c & p & g1 & s' & Hmove & Hpipes & _ & Hn' & Hwf1 & Hne & Htick).
  destruct (outline_at (S n)) as (s1 & Hs1 & Hrange & _).
  rewrite Hn' in Hs1. injection Hs1 as <-.
  assert (Hl : Game._obstacles g1 ≠ []).
  { intros Hl. pose proof (wf_stream g1 s' Hwf1) as Hrep. rewrite Hl in Hrep.
    by apply Forall2_nil_inv_l in Hrep. }
  assert (Hv : ∃ v, Game.manage_collisions g1 = Return v ∧ v ≠ Some false).
  { destruct (manage_collisions_values g1 s' Hwf1 Hne) as [Hv|Hv]; eauto. }
  destruct Hv as (v & Hv & Hvf).
  exists c, p, g1, v, (if points s' =? 1 then scored g1 else g1).
  do 5 (split; [done|]). split; [|split; [|done]].
  - destruct s' as [|a s']; [done|].
    rewrite (manage_score_well_formed g1 a s' Hwf1 Hrange).
    unfold points. by destruct (Stream.x a =? 10).
  - by destruct (points s' =? 1).
Qed.

End EmptyStream.

(** C3.  The evaluation on an empty stream.  The stream of a game is empty
    before the game's first tick and at no later time.  An evaluation that
    comes then is [check_restart] with its [manage_collisions], called on
    the new game: [self._obstacles[0]] raises [IndexError], the [except]
    clause returns [False], and [check_restart] leaves the application as
    it is, the game's score with it: no collision, no score, no
    termination, no fault.  The evaluation of a tick never comes on an
    empty stream.  [run_game] calls [manage_collisions], [_manage_score]
    and [check_restart] after [_manage_pipes], which has left a pair in the
    stream: there [manage_collisions] returns [True] or [None], not the
    [False] of the empty stream, and [_manage_score], whose
    [self._obstacles[0]] has no guard, returns. *)
Theorem C3_empty_stream `{FindOverlapping} (inputs : list (list Event * (nat -> Z)))
  (events : list Event) (entropy : nat -> Z) (a : Application.t) (g : Game.t) :
  session_run inputs (Game.__init__ Canvas.new) = Return g →
  (Game._obstacles (deliver events g) = [] ↔ inputs = []) ∧
  (Game._obstacles (deliver events g) = [] →
   Game.manage_collisions (deliver events g) = Return (Some false) ∧
   Application.check_restart (Application.set_game a (deliver events g))
   = Return (Application.set_game a (deliver events g))) ∧
  ∃ c p g1 v g' a',
    Player.move (Game._canvas (deliver events g)) (Game._player (deliver events g))
    = Return (c, p) ∧
    Game._manage_pipes entropy (Game.set_player (Game.set_canvas (deliver events g) c) p)
    = Return g1 ∧
    Game._obstacles g1 ≠ [] ∧
    Game.manage_collisions g1 = Return v ∧ v ≠ Some false ∧
    Game._manage_score g1 = Return g' ∧
    Game._obstacles g' ≠ [] ∧
    Application.check_restart (Application.set_game a g') = Return a' ∧
    run_game entropy (Application.set_game a (deliver events g)) = Return (g', a').
Proof.
  intros Hrun. destruct (deliver_stream events g) as [Hl _]. split; [|split].
  - rewrite Hl. split.
    + intros Hnil. destruct inputs as [|input inputs]; [done|].
      destruct (session_not_empty (input :: inputs) g ltac:(done) Hrun) as (s & Hwf & Hne).
      pose proof (wf_stream g s Hwf) as Hrep. rewrite Hnil in Hrep.
      by apply Forall2_nil_inv_l in Hrep.
    + intros ->. by injection Hrun as <-.
  - intros Hnil. split; [by apply manage_collisions_empty|].
    apply (check_restart_no_collision _ (Some false)); [|done].
    by apply manage_collisions_empty.
  - destruct (session_reachable inputs g Hrun) as (s & Hs & Hwf).
    pose proof (deliver_well_formed events g s Hwf) as Hwf0.
    destruct (game_tick_evaluation entropy _ _ s Hs Hwf0)
      as (c & p & g1 & v & g' & Hmove & Hpipes & Hne & Hv & Hvf & Hscore & Hl' & Htick).
    destruct (session_next_tick inputs g events entropy Hrun) as (g'' & Htick' & Hrun').
    rewrite Htick in Htick'. injection Htick' as <-.
    destruct (session_reachable _ g' Hrun') as (s' & _ & Hwf').
    destruct (manage_collisions_returns g' s' Hwf') as (v' & Hv').
    assert (Hcheck : ∃ a', Application.check_restart (Application.set_game a g') = Return a').
    { unfold Application.check_restart. cbn [Application.game_object Application.set_game].
      rewrite Hv', bind_Return. destruct (truthy v'); eauto. }
    destruct Hcheck as (a' & Hcheck).
    exists c, p, g1, v, g', a'. do 6 (split; [done|]).
    split; [by rewrite Hl'|]. split; [done|].
    rewrite run_game_tick. cbn [Application.game_object Application.set_game].
    rewrite Htick, bind_Return.
    change (Application.set_game (Application.set_game a (deliver events g)) g')
      with (Application.set_game a g').
    by rewrite Hcheck, bind_Return.
Qed.

(** The new game before its first tick, a key pressed or not: its stream
    is empty, the evaluation reports no collision and leaves the
    application as it is; its first tick evaluates with the first pair in
    the stream. *)
Lemma C3_witness :
  Game._obstacles (deliver [space_key] (Game.__init__ Canvas.new)) = [] ∧
  @Game.manage_collisions rectangle_overlap (deliver [space_key] (Game.__init__ Canvas.new))
  = Return (Some false) ∧
  @Application.check_restart rectangle_overlap
    (Application.set_game Application.__init__ (deliver [space_key] (Game.__init__ Canvas.new)))
  = Return (Application.set_game Application.__init__
              (deliver [space_key] (Game.__init__ Canvas.new))) ∧
  ∃ c p g1 g',
    Player.move (Game._canvas (deliver [space_key] (Game.__init__ Canvas.new)))
      (Game._player (deliver [space_key] (Game.__init__ Canvas.new))) = Return (c, p) ∧
    Game._manage_pipes (fun _ => 0)
      (Game.set_player (Game.set_canvas (deliver [space_key] (Game.__init__ Canvas.new)) c) p)
    = Return g1 ∧
    Game._obstacles g1 ≠ [] ∧
    Game._manage_score g1 = Return g'.
Proof.
  destruct (@C3_empty_stream rectangle_overlap [] [space_key] (fun _ => 0)
              Application.__init__ (Game.__init__ Canvas.new))
    as (Hempty & Hguard & c & p & g1 & v & g' & a' & Hmove & Hpipes & Hne & _ & _ & Hscore & _);
    [reflexivity|].
  assert (Hnil : Game._obstacles (deliver [space_key] (Game.__init__ Canvas.new)) = [])
    by (by apply Hempty).
  split; [exact Hnil|]. destruct (Hguard Hnil) as [Hc Hr].
  split; [exact Hc|]. split; [exact Hr|]. by exists c, p, g1, g'.
Defined.

(** ** C4: the score *)

Section ScoreEvents.
Context `{FindOverlapping}.

(** The score event of a tick: the tick adds one point when it leaves the
    nearest pair with its right edge on the entity's, at 80, and no point
    otherwise. *)
Lemma game_tick_score (entropy : nat -> Z) (g : Game.t) (n : nat) (s : list Stream.pair) :
  Stream.after n = Some s → well_formed g s →
  ∃ g' o l q,
    game_tick entropy g = Return g' ∧
    Game._obstacles g' = o :: l ∧
    Obstacle.bottom_obstacle_position o !! Obstacle.RIGHT_X = Some q ∧
    Game.score g' = Game.score g + (if Float.eqb (Float.of_int 80) q then 1 else 0).
Proof.
  intros Hn Hwf.
  destruct (game_tick_steps entropy g n s Hn Hwf)
    as (c & p & g1 & s' & _ & _ & Hso & Hn' & Hwf1 & Hne & Htick).
  destruct (outline_at (S n)) as (s1 & Hs1 & Hrange & _).
  rewrite Hn' in Hs1. injection Hs1 as <-.
  pose proof (wf_stream g1 s' Hwf1) as Hrep. destruct s' as [|a s']; [done|].
  apply Forall2_cons_inv_r in Hrep as (o & l & Ho & _ & Hl).
  destruct (represents_positions _ _ _ Ho) as (_ & _ & _ & Hq).
  apply Forall_cons in Hrange as [Ha _].
  exists (if points (a :: s') =? 1 then scored g1 else g1), o, l,
         (Float.of_int (Stream.x a + 70)).
  split; [done|]. split; [by destruct (points (a :: s') =? 1)|]. split; [done|].
  rewrite eq_player_right by lia.
  destruct Hso as (_ & Hsb & Hsc & _). cbn in Hsb, Hsc.
  unfold points.
  destruct (Z.eqb_spec (Stream.x a) 10) as [Hx|Hx], (Z.eqb_spec 80 (Stream.x a + 70));
    try lia; cbn [Z.eqb Pos.eqb].
  - cbn. rewrite Hsb, <- (wf_score g s Hwf). unfold Scoreboard._POINT_WORTH. done.
  - rewrite Hsc. lia.
Qed.

End ScoreEvents.

(** C4.  The score of a game never goes down: between any two of its
    states, however many ticks and pairs apart, the score has grown or is
    the same, and the game's score is the scoreboard's.  The score event:
    [_manage_score] adds a point exactly when the entity's right edge
    equals the right edge of the nearest pair, and then exactly one, to the
    scoreboard's score, its label and the game's score, and otherwise
    leaves the game as it is.  So does every tick of the game: the entity's
    right edge being at 80 throughout, the tick adds 1 to the score when it
    leaves the nearest pair's right edge at 80, and 0 otherwise.  No pair
    scores twice: when a tick ends with the nearest pair's right edge at
    80, no later tick ends so with the same pair, the same [Obstacle]
    object, the nearest. *)
Theorem C4_score_events `{FindOverlapping} (inputs more : list (list Event * (nat -> Z)))
  (g1 g2 : Game.t) :
  session_run inputs (Game.__init__ Canvas.new) = Return g1 →
  session_run more g1 = Return g2 →
  Game.score g1 ≤ Game.score g2 ∧
  Game.score g1 = Scoreboard.score (Game._scoreboard g1) ∧
  Player.get_coordinates (Game._canvas g1) (Game._player g1) !! Player.RIGHT_X
  = Some (Float.of_int 80) ∧
  (∀ (g : Game.t) (o : Obstacle.t) (l : list Obstacle.t) (p q : Float.t),
     Game._obstacles g = o :: l →
     Player.get_coordinates (Game._canvas g) (Game._player g) !! Player.RIGHT_X = Some p →
     Obstacle.bottom_obstacle_position o !! Obstacle.RIGHT_X = Some q →
     Game._manage_score g
     = Return (if Float.eqb p q
               then Game.Make (Game._canvas g) (Game._player g) (Game._obstacles g)
                      (Scoreboard.Make (Scoreboard.score (Game._scoreboard g) + 1)
                         (Scoreboard.score (Game._scoreboard g) + 1))
                      (Scoreboard.score (Game._scoreboard g) + 1)
               else g)) ∧
  (∀ (events : list Event) (entropy : nat -> Z),
     ∃ g' o l q,
       game_tick entropy (deliver events g1) = Return g' ∧
       Game._obstacles g' = o :: l ∧
       Obstacle.bottom_obstacle_position o !! Obstacle.RIGHT_X = Some q ∧
       Game.score g' = Game.score g1 + (if Float.eqb (Float.of_int 80) q then 1 else 0)) ∧
  (∀ (o1 o2 : Obstacle.t) (l1 l2 : list Obstacle.t) (r1 r2 : Float.t),
     more ≠ [] →
     Game._obstacles g1 = o1 :: l1 → Game._obstacles g2 = o2 :: l2 →
     Obstacle._top_rectangle o2 = Obstacle._top_rectangle o1 →
     Obstacle.bottom_obstacle_position o1 !! Obstacle.RIGHT_X = Some r1 →
     Obstacle.bottom_obstacle_position o2 !! Obstacle.RIGHT_X = Some r2 →
     Float.eqb (Float.of_int 80) r1 = true → Float.eqb (Float.of_int 80) r2 = false).
Proof.
  intros Hrun Hrun2. destruct (session_reachable inputs g1 Hrun) as (s & Hs & Hwf).
  split; [by apply (session_score_monotone inputs more)|].
  split; [apply Hwf|].
  split; [by destruct (session_stream inputs g1 Hrun) as [_ Hright]|].
  split; [|split].
  - intros g o l p q Hl Hp Hq. by rewrite (manage_score_nearest g o l p q Hl Hp Hq).
  - intros events entropy.
    pose proof (deliver_well_formed events g1 s Hwf) as Hwf0.
    destruct (game_tick_score entropy _ _ s Hs Hwf0) as (g' & o & l & q & Ht & Hl & Hq & Hsc).
    exists g', o, l, q. do 3 (split; [done|]).
    destruct (deliver_score events g1) as [Hd _]. by rewrite Hsc, Hd.
  - intros o1 o2 l1 l2 r1 r2 Hmore Hl1 Hl2 Htop Hr1 Hr2.
    by apply (session_scores_once inputs more g1 g2 o1 o2 l1 l2).
Qed.

(** The first point of a game comes on tick 176: the tick finds the first
    pair's right edge at 82 and leaves it at 80.  The score is 0 before it,
    1 after it, and still 1 after 300 ticks, when the first pair has left
    the stream. *)
Lemma C4_witness :
  ∃ g1 g2 g',
    @session_run rectangle_overlap (replicate 175 quiet_tick) (Game.__init__ Canvas.new)
    = Return g1 ∧
    @session_run rectangle_overlap (replicate 125 quiet_tick) g1 = Return g2 ∧
    @game_tick rectangle_overlap (fun _ => 0) g1 = Return g' ∧
    Game.score g1 = 0 ∧ Game.score g' = 1 ∧ Game.score g2 = 1 ∧
    Game.score g1 ≤ Game.score g2.
Proof.
  eexists _, _, _. split; [vm_compute; reflexivity|].
  split; [vm_compute; reflexivity|]. split; [vm_compute; reflexivity|].
  split; [vm_compute; reflexivity|]. split; [vm_compute; reflexivity|].
  split; [vm_compute; reflexivity|].
  refine (proj1 (@C4_score_events rectangle_overlap (replicate 175 quiet_tick)
                   (replicate 125 quiet_tick) _ _ _ _)).
  - vm_compute. reflexivity.
  - vm_compute. reflexivity.
Defined.

(** ** C6: the first two pairs *)

Lemma randrange_one_to_one (e e' : Z) :
  0 ≤ e < 400 → 0 ≤ e' < 400 →
  Py.randrange 200 600 e = Py.randrange 200 600 e' → e = e'.
Proof.
  intros He He'. unfold Py.randrange. change (600 <=? 200) with false.
  change (600 - 200) with 400. cbv iota. rewrite !Z.mod_small by lia.
  intros [= Heq]. lia.
Qed.

(** C6.  On an empty stream the stream tick creates exactly one pair, at
    360.  Its gap centre is the draw of [randrange(200, 600)],
    [200 + k] for the [k] that the generator chooses among the 400 values
    from 0 on: it is in [[200, 600)], every value of that range is the
    centre for one choice of the generator, and for one only, so that the
    centre is as uniform as the generator's choice.  In a game this is the
    first tick.  For the next 89 ticks that pair, with the rectangles 2 and
    3, is alone in the stream, two to the left each tick and not [halfway],
    and the canvas has made no other pair; on tick 91 it is at 180 and
    [halfway], and the stream has exactly one more pair, at 440, with the
    rectangles 4 and 5, the only ones created since. *)
Theorem C6_first_pairs `{FindOverlapping} (entropy : nat -> Z) (g : Game.t)
  (inputs : list (list Event * (nat -> Z))) :
  Game._obstacles g = [] → length inputs = 91%nat →
  (∃ g' o y,
      Game._manage_pipes entropy g = Return g' ∧ Game._obstacles g' = [o] ∧
      y = 200 + entropy 0%nat mod 400 ∧
      Py.randrange 200 600 (entropy 0%nat) = Return y ∧ 200 ≤ y < 600 ∧
      o = (Obstacle.__init__ (Game._canvas g) 360 y).2 ∧ at_position o 360 y ∧
      Obstacle.halfway o = false ∧ Obstacle.off_screen o = false) ∧
  (∀ y, 200 ≤ y < 600 →
        ∃ g', Py.randrange 200 600 (y - 200) = Return y ∧
              Game._manage_pipes (fun _ => y - 200) g = Return g' ∧
              Game._obstacles g' = [(Obstacle.__init__ (Game._canvas g) 360 y).2] ∧
              at_position (Obstacle.__init__ (Game._canvas g) 360 y).2 360 y) ∧
  (∀ e e', 0 ≤ e < 400 → 0 ≤ e' < 400 →
           Py.randrange 200 600 e = Py.randrange 200 600 e' → e = e') ∧
  (∀ (events : list Event) (first : nat -> Z) (rest : list (list Event * (nat -> Z))),
     inputs = (events, first) :: rest →
     ∃ g_1 o,
       session_run [(events, first)] (Game.__init__ Canvas.new) = Return g_1 ∧
       Game._obstacles g_1 = [o] ∧ at_position o 360 (200 + first 0%nat mod 400)) ∧
  (∀ n, (1 ≤ n ≤ 90)%nat →
        ∃ g_n o y,
          session_run (take n inputs) (Game.__init__ Canvas.new) = Return g_n ∧
          Game._obstacles g_n = [o] ∧ Obstacle._top_rectangle o = 2%nat ∧
          Canvas.next_id (Game._canvas g_n) = 4%nat ∧ 200 ≤ y < 600 ∧
          at_position o (360 - 2 * (Z.of_nat n - 1)) y ∧ Obstacle.halfway o = false) ∧
  (∃ g_91 o1 o2 y1 y2,
      session_run inputs (Game.__init__ Canvas.new) = Return g_91 ∧
      Game._obstacles g_91 = [o1; o2] ∧
      Obstacle._top_rectangle o1 = 2%nat ∧ Obstacle._top_rectangle o2 = 4%nat ∧
      Canvas.next_id (Game._canvas g_91) = 6%nat ∧
      200 ≤ y1 < 600 ∧ 200 ≤ y2 < 600 ∧
      at_position o1 180 y1 ∧ Obstacle.halfway o1 = true ∧
      at_position o2 440 y2 ∧ Obstacle.halfway o2 = false).
Proof.
  intros Hl Hlen. split; [|split; [|split; [|split; [|split]]]].
  - destruct (manage_pipes_first entropy g Hl) as (y & Heq & Hy & Hrand & Hpipes & Hpos & Hh & Hf).
    eexists _, _, y. split; [exact Hpipes|]. split; [reflexivity|].
    split; [exact Heq|]. split; [exact Hrand|]. split; [exact Hy|]. split; [reflexivity|].
    split; [exact Hpos|]. split; [exact Hh|exact Hf].
  - intros y Hy.
    destruct (manage_pipes_first (fun _ => y - 200) g Hl)
      as (y' & Heq & _ & Hrand & Hpipes & Hpos & _).
    assert (y' = y) as -> by (rewrite Heq, Z.mod_small; lia).
    eexists. split; [exact Hrand|]. split; [exact Hpipes|]. split; [reflexivity|exact Hpos].
  - apply randrange_one_to_one.
  - intros events first rest _.
    destruct (session_reachable [] (Game.__init__ Canvas.new) eq_refl) as (s & Hs & Hwf).
    cbn in Hs. injection Hs as <-.
    pose proof (deliver_well_formed events _ [] Hwf) as Hwf0.
    destruct (game_tick_evaluation first _ 0 [] eq_refl Hwf0)
      as (c & p & g1 & v & g' & Hmove & Hpipes & _ & _ & _ & _ & Hl' & Htick).
    destruct (manage_pipes_first first
                (Game.set_player (Game.set_canvas (deliver events (Game.__init__ Canvas.new)) c) p))
      as (y & Heq & _ & _ & Hpipes' & Hpos & _).
    { game_fields. by destruct (deliver_stream events (Game.__init__ Canvas.new)) as [-> _]. }
    rewrite Hpipes in Hpipes'. injection Hpipes' as ->.
    eexists g', _. cbn [session_run]. rewrite Htick, bind_Return.
    split; [done|]. split; [by rewrite Hl'|]. by rewrite <- Heq.
  - intros n Hn. destruct (session_returns (take n inputs)) as (g_n & Hrun).
    destruct (session_reachable _ _ Hrun) as (s & Hs & Hwf).
    destruct (session_ids _ _ Hrun) as [Htops Hnext].
    rewrite length_take, Hlen, Nat.min_l in Hs, Htops, Hnext by lia.
    rewrite after_first_90 in Hs by lia.
    injection Hs as <-. pose proof (wf_stream _ _ Hwf) as Hrep.
    apply Forall2_cons_inv_r in Hrep as (o & l & Ho & Hnil & Hobs).
    apply Forall2_nil_inv_r in Hnil as ->.
    destruct (represents_at_position _ _ _ Ho) as (y & Hy & Hpos & Hh & _).
    exists g_n, o, y. split; [done|]. split; [done|].
    unfold tops in Htops. rewrite Hobs in Htops. unfold ids, next_id_after in *.
    destruct (Nat.eqb_spec n 0); [lia|]. destruct (Nat.ltb_spec n 91); [|lia].
    injection Htops as Htop. done.
  - destruct (session_returns inputs) as (g_91 & Hrun).
    destruct (session_reachable _ _ Hrun) as (s & Hs & Hwf).
    destruct (session_ids _ _ Hrun) as [Htops Hnext].
    rewrite Hlen in Hs, Htops, Hnext. rewrite after_91 in Hs. injection Hs as <-.
    pose proof (wf_stream _ _ Hwf) as Hrep.
    apply Forall2_cons_inv_r in Hrep as (o1 & l & Ho1 & Hrep & Hobs).
    apply Forall2_cons_inv_r in Hrep as (o2 & l' & Ho2 & Hnil & ->).
    apply Forall2_nil_inv_r in Hnil as ->.
    destruct (represents_at_position _ _ _ Ho1) as (y1 & Hy1 & Hpos1 & Hh1 & _).
    destruct (represents_at_position _ _ _ Ho2) as (y2 & Hy2 & Hpos2 & Hh2 & _).
    unfold tops in Htops. rewrite Hobs in Htops. injection Htops as Ht1 Ht2.
    by exists g_91, o1, o2, y1, y2.
Qed.

(** With a generator that chooses 123 on the first tick, the first pair of
    the game has its gap centre at 323; the stream after 91 ticks. *)
Lemma C6_witness :
  (∃ g_1 o,
      @session_run rectangle_overlap [([], fun _ => 123)] (Game.__init__ Canvas.new)
      = Return g_1 ∧
      Game._obstacles g_1 = [o] ∧ at_position o 360 323) ∧
  ∃ g_91 o1 o2 y1 y2,
    @session_run rectangle_overlap (([], fun _ => 123) :: replicate 90 quiet_tick)
      (Game.__init__ Canvas.new) = Return g_91 ∧
    Game._obstacles g_91 = [o1; o2] ∧
    Obstacle._top_rectangle o1 = 2%nat ∧ Obstacle._top_rectangle o2 = 4%nat ∧
    Canvas.next_id (Game._canvas g_91) = 6%nat ∧
    200 ≤ y1 < 600 ∧ 200 ≤ y2 < 600 ∧
    at_position o1 180 y1 ∧ Obstacle.halfway o1 = true ∧
    at_position o2 440 y2 ∧ Obstacle.halfway o2 = false.
Proof.
  destruct (@C6_first_pairs rectangle_overlap (fun _ => 0) (Game.__init__ Canvas.new)
              (([], fun _ => 123) :: replicate 90 quiet_tick))
    as (_ & _ & _ & Hfirst & _ & Hlast); [reflexivity|reflexivity|].
  split; [|exact Hlast].
  exact (Hfirst [] (fun _ => 123) (replicate 90 quiet_tick) eq_refl).
Defined.

(** ** The life of a pair, in closed form *)

Lemma lifetime_values (j : nat) :
  lifetime j = (if (j =? 0)%nat then 215 else 255)%nat.
Proof. unfold lifetime, spawn_x. by destruct (j =? 0)%nat. Qed.

(** The regime of a tick from 91 on: [q] pairs have been created before
    the latest one, which was created [m] ticks ago. *)
Lemma tick_regime (n : nat) :
  (91 ≤ n)%nat →
  ∃ q m, n = (91 + 130 * q + m)%nat ∧ (m < 130)%nat ∧
         ((n - 91) / 130 = q)%nat ∧ ((n - 91) mod 130 = m)%nat.
Proof.
  intros Hn. exists ((n - 91) / 130)%nat, ((n - 91) mod 130)%nat.
  pose proof (Nat.div_mod_eq (n - 91) 130). pose proof (Nat.mod_upper_bound (n - 91) 130).
  lia.
Qed.

(** The pairs of the stream after tick [n] are the pairs that are alive. *)
Lemma ids_alive (n j : nat) : pair_id j ∈ ids n ↔ alive j n.
Proof.
  unfold alive, ids, pair_id, spawn_tick. rewrite lifetime_values.
  destruct (Nat.eqb_spec n 0) as [->|Hn0].
  { rewrite elem_of_nil. destruct (Nat.eqb_spec j 0); lia. }
  destruct (Nat.ltb_spec n 91) as [Hlt|Hge].
  { rewrite list_elem_of_singleton. destruct (Nat.eqb_spec j 0); lia. }
  destruct (tick_regime n Hge) as (q & m & -> & Hm & -> & ->).
  destruct (Nat.ltb_spec m 125); cbn [app];
    rewrite ?elem_of_cons, ?elem_of_nil; destruct (Nat.eqb_spec j 0); lia.
Qed.

(** The pairs of the stream after tick [n], each at its place. *)
Lemma ids_positions (n : nat) :
  Forall2 (fun i x => ∃ j, i = pair_id j ∧ alive j n ∧ x = pair_at j n) (ids n) (positions n).
Proof.
  unfold ids, positions.
  destruct (Nat.eqb_spec n 0) as [->|Hn0]; [constructor|].
  destruct (Nat.ltb_spec n 91) as [Hlt|Hge].
  { constructor; [|constructor]. exists 0%nat.
    unfold alive, pair_at, pair_id, spawn_tick, spawn_x. rewrite lifetime_values. cbn. lia. }
  destruct (tick_regime n Hge) as (q & m & -> & Hm & -> & ->).
  assert (Hlast : ∃ j, (2 * q + 4)%nat = pair_id j ∧ alive j (91 + 130 * q + m) ∧
                       440 - 2 * Z.of_nat m = pair_at j (91 + 130 * q + m)).
  { exists (S q). unfold alive, pair_at, pair_id, spawn_tick, spawn_x.
    rewrite lifetime_values. cbn [Nat.eqb]. lia. }
  destruct (Nat.ltb_spec m 125) as [Hm'|Hm'], (Z.ltb_spec (Z.of_nat m) 125); try lia;
    cbn [app]; [|by repeat constructor].
  constructor; [|by repeat constructor].
  exists q. unfold alive, pair_at, pair_id, spawn_tick, spawn_x. rewrite lifetime_values.
  destruct (Nat.eqb_spec q 0); lia.
Qed.

(** The tick that ends the life of pair [j]. *)
Lemma ids_last_tick (n j : nat) :
  S n = (spawn_tick j + lifetime j)%nat →
  ids n = [pair_id j; pair_id (S j)] ∧ positions n = [-68; 192] ∧
  ids (S n) = [pair_id (S j)] ∧ (pair_id (S j) < next_id_after n)%nat.
Proof.
  unfold spawn_tick. rewrite lifetime_values. intros Hn.
  assert (Hnj : n = (91 + 130 * j + 124)%nat) by (destruct (Nat.eqb_spec j 0); lia).
  clear Hn. subst n. unfold ids, positions, next_id_after, pair_id.
  destruct (Nat.eqb_spec (91 + 130 * j + 124) 0) as [|_]; [lia|].
  destruct (Nat.ltb_spec (91 + 130 * j + 124) 91) as [|_]; [lia|].
  destruct (Nat.eqb_spec (S (91 + 130 * j + 124)) 0) as [|_]; [lia|].
  destruct (Nat.ltb_spec (S (91 + 130 * j + 124)) 91) as [|_]; [lia|].
  replace (91 + 130 * j + 124 - 91)%nat with (124 + j * 130)%nat by lia.
  replace (S (91 + 130 * j + 124) - 91)%nat with (125 + j * 130)%nat by lia.
  rewrite !Nat.div_add, !Nat.Div0.mod_add by lia.
  change (124 / 130)%nat with 0%nat. change (125 / 130)%nat with 0%nat.
  change (124 mod 130)%nat with 124%nat. change (125 mod 130)%nat with 125%nat.
  cbn. repeat split; try lia; repeat f_equal; lia.
Qed.

(** ** C8: off screen, removal and order *)

Section Removal.
Context `{FindOverlapping}.

(** Every pair of the stream is a pair that is alive, at its place and not
    flagged. *)
Lemma session_pairs (inputs : list (list Event * (nat -> Z))) (g : Game.t) (o : Obstacle.t) :
  session_run inputs (Game.__init__ Canvas.new) = Return g →
  o ∈ Game._obstacles g →
  ∃ j y, Obstacle._top_rectangle o = pair_id j ∧ alive j (length inputs) ∧
         200 ≤ y < 600 ∧ at_position o (pair_at j (length inputs)) y ∧
         Obstacle.off_screen o = false.
Proof.
  intros Hrun [i Hi]%list_elem_of_lookup.
  destruct (session_ids inputs g Hrun) as [Htops _].
  pose proof (session_positions inputs g Hrun) as Hpos.
  destruct (Forall2_lookup_l _ _ _ _ _ Hpos Hi) as (x & Hx & (y & Hy & Hat) & _ & Hoff).
  assert (Hid : ids (length inputs) !! i = Some (Obstacle._top_rectangle o)).
  { rewrite <- Htops. unfold tops. by rewrite list_lookup_fmap, Hi. }
  destruct (Forall2_lookup_l _ _ _ _ _ (ids_positions (length inputs)) Hid)
    as (x' & Hx' & j & Hj & Halive & Hxj).
  rewrite Hx in Hx'. injection Hx' as <-. subst x.
  by exists j, y.
Qed.

(** The tick that ends the life of pair [j]: the first loop of
    [_manage_pipes] moves the pair to -70 and sets its flag, and the second
    loop removes it and nothing else. *)
Lemma session_last_tick (inputs : list (list Event * (nat -> Z))) (g : Game.t) (j : nat)
  (events : list Event) (entropy : nat -> Z) :
  session_run inputs (Game.__init__ Canvas.new) = Return g →
  S (length inputs) = (spawn_tick j + lifetime j)%nat →
  ∃ c p c1 o' rest g1,
    Player.move (Game._canvas (deliver events g)) (Game._player (deliver events g))
    = Return (c, p) ∧
    Game.move_obstacles c (Game._obstacles g) = Return (c1, o' :: rest) ∧
    Obstacle._top_rectangle o' = pair_id j ∧
    Obstacle.bottom_obstacle_position o' !! Obstacle.RIGHT_X = Some (Float.of_int 0) ∧
    Obstacle.off_screen o' = true ∧
    Forall (fun o => Obstacle.off_screen o = false) rest ∧
    Game._manage_pipes entropy
      (Game.set_player (Game.set_canvas (deliver events g) c) p) = Return g1 ∧
    Game._obstacles g1 = rest ∧ pair_id j ∉ tops g1.
Proof.
  intros Hrun Hlast.
  destruct (ids_last_tick _ j Hlast) as (Hids & Hposn & Hids' & Hlt).
  destruct (session_reachable inputs g Hrun) as (s & Hs & Hwf).
  destruct (session_ids inputs g Hrun) as [Htops Hnext].
  destruct (outline_positions _ s Hs) as (Hxs & _).
  destruct (outline_at (length inputs)) as (s0 & Hs0 & Hrange & _).
  rewrite Hs in Hs0. injection Hs0 as <-.
  rewrite Hposn in Hxs.
  destruct s as [|a1 [|a2 [|a3 s]]]; try done. injection Hxs as Hx1 Hx2.
  pose proof (deliver_well_formed events g _ Hwf) as Hwf0.
  destruct (deliver_stream events g) as [Hdl Hdc].
  destruct (game_tick_evaluation entropy _ _ _ Hs Hwf0)
    as (c & p & g1 & v & g' & Hmove & Hpipes & _ & _ & _ & _ & Hl' & Htick).
  destruct (player_move_well_formed _ _ Hwf0) as (c' & p' & Hmove' & Hwfp & Hnextp).
  rewrite Hmove in Hmove'. injection Hmove' as <- <-.
  set (gp := Game.set_player (Game.set_canvas (deliver events g) c) p) in *.
  pose proof (wf_distinct gp _ Hwfp) as Hnd. apply NoDup_cons in Hnd as [_ Hnd].
  destruct (move_obstacles_represents _ _ _ (wf_stream gp _ Hwfp) Hrange Hnd)
    as (c1 & before & Hmv & Hrep & _).
  unfold gp in Hmv.
  cbn [Game._canvas Game._obstacles Game.set_canvas Game.set_player] in Hmv.
  rewrite Hdl in Hmv.
  destruct (move_obstacles_moved _ _ _ _ Hmv) as [Hmoved _].
  apply moved_tops in Hmoved. fold (tops g) in Hmoved. rewrite Htops, Hids in Hmoved.
  cbn [fmap list_fmap] in Hrep.
  apply Forall2_cons_inv_r in Hrep as (o' & l & Ho' & Hrep & ->).
  apply Forall2_cons_inv_r in Hrep as (o2 & l' & Ho2 & Hnil & ->).
  apply Forall2_nil_inv_r in Hnil as ->.
  injection Hmoved as Ht' Ht2.
  assert (Hflag : Stream.move_pair a1 = Stream.Pair (-70) false true).
  { unfold Stream.move_pair. rewrite Hx1. done. }
  assert (Hflag2 : Stream.off_screen (Stream.move_pair a2) = false).
  { unfold Stream.move_pair. rewrite Hx2. cbn.
    apply Forall_cons in Hrange as [_ Hrange]. apply Forall_cons in Hrange as [_ _].
    destruct (outline_at (length inputs)) as (s0 & Hs0 & _ & Hoff & _).
    rewrite Hs in Hs0. injection Hs0 as <-.
    apply Forall_cons in Hoff as [_ Hoff]. by apply Forall_cons in Hoff as [-> _]. }
  rewrite Hflag in Ho'.
  destruct (represents_positions _ _ _ Ho') as (_ & _ & _ & Hright).
  assert (Hoff' : Obstacle.off_screen o' = true).
  { by destruct Ho' as (y & _ & _ & _ & _ & _ & _ & ->). }
  assert (Hoff2 : Obstacle.off_screen o2 = false).
  { destruct Ho2 as (y & _ & _ & _ & _ & _ & _ & ->). done. }
  destruct (manage_pipes_order entropy gp g1 Hpipes)
    as (c1' & before' & Hmv' & _ & kept & new & Hobs & Hkept & Hnew & _).
  unfold gp in Hmv'.
  cbn [Game._canvas Game._obstacles Game.set_canvas Game.set_player] in Hmv'.
  rewrite Hdl, Hmv in Hmv'. injection Hmv' as <- <-.
  destruct (session_next_tick inputs g events entropy Hrun) as (g'' & Htick' & Hrun').
  rewrite Htick in Htick'. injection Htick' as <-.
  destruct (session_ids _ g' Hrun') as [Htops' _].
  rewrite length_app in Htops'. cbn [length] in Htops'. rewrite Nat.add_1_r, Hids' in Htops'.
  unfold tops in Htops'. rewrite Hl', Hobs in Htops'.
  assert (Hgp : Canvas.next_id (Game._canvas gp) = next_id_after (length inputs)).
  { unfold gp. game_fields. by rewrite Hnextp, Hdc. }
  rewrite Hgp in Hnew.
  assert (Hrest : kept = [o2] ∧ new = []).
  { destruct kept as [|k kept].
    - destruct new as [|z [|z' new]]; try done. exfalso.
      apply Forall_cons in Hnew as [[_ Hz] _]. injection Htops' as Hz'. lia.
    - destruct kept; [|destruct kept; done]. destruct new; [|done].
      split; [|done]. injection Htops' as Hk.
      assert (Hin : k ∈ [o'; o2]).
      { apply (elem_of_sublist [k]); [apply elem_of_cons; by left|done]. }
      apply elem_of_cons in Hin as [->|Hin].
      + unfold pair_id in *. lia.
      + apply list_elem_of_singleton in Hin as ->. done. }
  destruct Hrest as [-> ->].
  exists c, p, c1, o', [o2], g1. split; [done|]. split; [done|]. split; [done|].
  split; [done|]. split; [done|]. split; [by constructor|]. split; [done|].
  split; [done|]. unfold tops. rewrite Hobs. cbn. rewrite list_elem_of_singleton.
  unfold pair_id in *. lia.
Qed.

End Removal.

(** C8, as amended.  The pairs of a game, numbered from 0 in the order of
    their creation: pair [j] is created on tick [spawn_tick j] (tick 1 for
    the first pair, then tick 91 and every 130 ticks) with its left edge at
    [spawn_x j] (360 for the first pair, 440 for the others), and
    [lifetime j] is [(spawn_x j + 70) / 2]: 215 for the first pair and 255
    for the others, not 180 or less.  After every tick of the game the
    stream holds, in the order of their creation, exactly the pairs that
    have been created and have not yet made their move number
    [lifetime j]; each of them is two to the left for every tick since its
    creation, its right edge is to the right of 0 and its flag
    [off_screen] is not set.  The tick of move number [lifetime j] is the
    one that ends the pair's life: the first loop of [_manage_pipes] puts
    the pair's right edge at 0 and sets its flag, and the second loop of
    the same call removes it from the stream, and leaves the other pairs
    as they are and in their order.  No stream tick, on any game, changes
    the order of the pairs that it keeps, and the pairs that it creates
    come behind them. *)
Theorem C8_off_screen_and_removal `{FindOverlapping}
  (inputs : list (list Event * (nat -> Z))) (g : Game.t) :
  session_run inputs (Game.__init__ Canvas.new) = Return g →
  tops g = ids (length inputs) ∧
  (∀ j, pair_id j ∈ tops g ↔ alive j (length inputs)) ∧
  (∀ o, o ∈ Game._obstacles g →
        ∃ j y, Obstacle._top_rectangle o = pair_id j ∧ alive j (length inputs) ∧
               200 ≤ y < 600 ∧ at_position o (pair_at j (length inputs)) y ∧
               Obstacle.bottom_obstacle_position o !! Obstacle.RIGHT_X
               = Some (Float.of_int (pair_at j (length inputs) + 70)) ∧
               0 < pair_at j (length inputs) + 70 ∧
               Obstacle.off_screen o = false) ∧
  (∀ (j : nat) (events : list Event) (entropy : nat -> Z),
     S (length inputs) = (spawn_tick j + lifetime j)%nat →
     ∃ c p c1 o' rest g1,
       Player.move (Game._canvas (deliver events g)) (Game._player (deliver events g))
       = Return (c, p) ∧
       Game.move_obstacles c (Game._obstacles g) = Return (c1, o' :: rest) ∧
       Obstacle._top_rectangle o' = pair_id j ∧
       Obstacle.bottom_obstacle_position o' !! Obstacle.RIGHT_X = Some (Float.of_int 0) ∧
       Obstacle.off_screen o' = true ∧
       Forall (fun o => Obstacle.off_screen o = false) rest ∧
       Game._manage_pipes entropy
         (Game.set_player (Game.set_canvas (deliver events g) c) p) = Return g1 ∧
       Game._obstacles g1 = rest ∧ pair_id j ∉ tops g1) ∧
  (lifetime 0 = 215%nat ∧ ∀ j, j ≠ 0%nat → lifetime j = 255%nat) ∧
  (∀ (entropy : nat -> Z) (g0 g0' : Game.t),
     Game._manage_pipes entropy g0 = Return g0' →
     ∃ before kept new,
       Forall2 moved (Game._obstacles g0) before ∧
       Game._obstacles g0' = kept ++ new ∧
       kept `sublist_of` before ∧
       Forall (created (Canvas.next_id (Game._canvas g0))) new).
Proof.
  intros Hrun. destruct (session_ids inputs g Hrun) as [Htops _].
  split; [done|]. split; [|split; [|split; [|split]]].
  - intros j. rewrite Htops. apply ids_alive.
  - intros o Ho.
    destruct (session_pairs inputs g o Hrun Ho) as (j & y & Hid & Halive & Hy & Hat & Hoff).
    exists j, y. do 4 (split; [done|]). split; [|split; [|done]].
    + destruct Hat as [_ ->]. done.
    + unfold alive, pair_at, spawn_x in *. rewrite lifetime_values in Halive.
      destruct (Nat.eqb_spec j 0); lia.
  - intros j events entropy Hlast. by apply (session_last_tick inputs).
  - split; [done|]. intros j Hj. rewrite lifetime_values.
    by destruct (Nat.eqb_spec j 0).
  - intros entropy g0 g0' Hpipes.
    destruct (manage_pipes_order entropy g0 g0' Hpipes)
      as (c1 & before & _ & Hmoved & kept & new & Hl' & Hkept & Hnew & _).
    by exists before, kept, new.
Qed.

(** After 215 ticks the stream holds the first two pairs, and tick 216
    ends the life of the first: its move puts the right edge at 0 and sets
    the flag, and [_manage_pipes] leaves the second pair alone in the
    stream. *)
Lemma C8_witness :
  ∃ g,
    @session_run rectangle_overlap (replicate 215 quiet_tick) (Game.__init__ Canvas.new)
    = Return g ∧
    tops g = [2%nat; 4%nat] ∧
    ∃ c p c1 o' rest g1,
      Player.move (Game._canvas g) (Game._player g) = Return (c, p) ∧
      Game.move_obstacles c (Game._obstacles g) = Return (c1, o' :: rest) ∧
      Obstacle._top_rectangle o' = 2%nat ∧
      Obstacle.bottom_obstacle_position o' !! Obstacle.RIGHT_X = Some (Float.of_int 0) ∧
      Obstacle.off_screen o' = true ∧
      Forall (fun o => Obstacle.off_screen o = false) rest ∧
      Game._manage_pipes (fun _ => 0) (Game.set_player (Game.set_canvas g c) p) = Return g1 ∧
      Game._obstacles g1 = rest ∧ 2%nat ∉ tops g1.
Proof.
  eexists. split; [vm_compute; reflexivity|].
  match goal with
  | |- tops ?g = _ ∧ _ =>
      destruct (@C8_off_screen_and_removal rectangle_overlap (replicate 215 quiet_tick) g)
        as (Htops & _ & _ & Hlast & _)
  end.
  - vm_compute. reflexivity.
  - split; [exact Htops|]. exact (Hlast 0%nat [] (fun _ => 0) eq_refl).
Defined.

(** C8, as stated, fails: 180 ticks (play width over scroll speed) after
    tick 1, which created it, the first pair is in the stream with its
    right edge at 70 and its flag not set; so it is after 215 ticks, with
    its right edge at 2; after tick 216 it is gone. *)
Lemma C8_counterexample :
  (∃ g o l,
      @session_run rectangle_overlap (replicate 181 quiet_tick) (Game.__init__ Canvas.new)
      = Return g ∧
      Game._obstacles g = o :: l ∧ Obstacle._top_rectangle o = 2%nat ∧
      Obstacle.bottom_obstacle_position o !! Obstacle.RIGHT_X = Some (Float.of_int 70) ∧
      Float.leb (Float.of_int 70) (Float.of_int 0) = false ∧
      Obstacle.off_screen o = false) ∧
  (∃ g o l,
      @session_run rectangle_overlap (replicate 215 quiet_tick) (Game.__init__ Canvas.new)
      = Return g ∧
      Game._obstacles g = o :: l ∧ Obstacle._top_rectangle o = 2%nat ∧
      Obstacle.bottom_obstacle_position o !! Obstacle.RIGHT_X = Some (Float.of_int 2) ∧
      Obstacle.off_screen o = false) ∧
  (∃ g o,
      @session_run rectangle_overlap (replicate 216 quiet_tick) (Game.__init__ Canvas.new)
      = Return g ∧
      Game._obstacles g = [o] ∧ Obstacle._top_rectangle o = 4%nat).
Proof.
  split; [|split].
  - eexists _, _, _. split; [vm_compute; reflexivity|]. repeat split; vm_compute; reflexivity.
  - eexists _, _, _. split; [vm_compute; reflexivity|]. repeat split; vm_compute; reflexivity.
  - eexists _, _. split; [vm_compute; reflexivity|]. repeat split; vm_compute; reflexivity.
Qed.

(** ** The entity does not depend on the stream *)

Lemma canvas_move_lookup (c1 c2 : Canvas.t) (i : nat) (dx dy : Float.t) :
  Canvas.items c1 !! i = Canvas.items c2 !! i →
  Canvas.items (Canvas.move c1 i dx dy) !! i = Canvas.items (Canvas.move c2 i dx dy) !! i.
Proof.
  intros Heq. unfold Canvas.move. rewrite <- Heq.
  destruct (Canvas.items c1 !! i) as [r|] eqn:Hi; [|by rewrite Hi].
  cbn [Canvas.items]. by rewrite !lookup_insert_eq.
Qed.

(** [Player.move] with a stack of boosts: the new player is the same on
    every canvas, and the entity's new rectangle depends on nothing but its
    old one. *)
Lemma move_on_any_canvas (p : Player.t) (m : nat) :
  Player._movement_stack p = replicate m "True"%string →
  ∃ (f : Canvas.t -> Canvas.t) (p' : Player.t),
    (∀ c, Player.move c p = Return (f c, p')) ∧
    Player.player_rectangle p' = Player.player_rectangle p ∧
    Player._control_key p' = Player._control_key p ∧
    Player._control_button p' = Player._control_button p ∧
    (∀ c1 c2,
       Canvas.items c1 !! Player.player_rectangle p
       = Canvas.items c2 !! Player.player_rectangle p →
       Canvas.items (f c1) !! Player.player_rectangle p
       = Canvas.items (f c2) !! Player.player_rectangle p).
Proof.
  intros Hm. destruct m as [|[|m]].
  - eexists (fun c => (Player._fall c p).1), (Player._fall Canvas.new p).2.
    split; [|split; [done|split; [done|split; [done|]]]].
    + intros c. by rewrite move_fall.
    + intros c1 c2. apply canvas_move_lookup.
  - exists (fun c => Canvas.move c (Player.player_rectangle p) (Float.of_int 0)
                       (Float.mul (Float.of_int (- Player._ACCELERATION)) Player._JUMP_TIME)),
           (Player.Make (Player.player_rectangle p) (Player._control_key p)
              (Player._control_button p)
              (Float.mul (Float.of_int (- Player._ACCELERATION)) Player._JUMP_TIME) []).
    split; [|split; [done|split; [done|split; [done|]]]].
    + intros c. by rewrite move_flap.
    + intros c1 c2. apply canvas_move_lookup.
  - rewrite replicate_snoc_True in Hm.
    exists (fun c => c), (Player.set_stack p (replicate (S m) "True"%string)).
    split; [|done]. intros c. by rewrite (move_discard _ _ _ _ Hm).
Qed.

Section Independence.
Context `{FindOverlapping}.

Lemma session_run_player (inputs : list (list Event * (nat -> Z))) :
  ∀ (g g' : Game.t) (n : nat) (s : list Stream.pair) (c : Canvas.t),
    Stream.after n = Some s → well_formed g s →
    Canvas.items (Game._canvas g) !! Player.player_rectangle (Game._player g)
    = Canvas.items c !! Player.player_rectangle (Game._player g) →
    session_run inputs g = Return g' →
    ∃ c', player_session inputs.*1 c (Game._player g) = Return (c', Game._player g') ∧
          Canvas.items (Game._canvas g') !! Player.player_rectangle (Game._player g')
          = Canvas.items c' !! Player.player_rectangle (Game._player g').
Proof.
  induction inputs as [|[events entropy] inputs IH]; intros g g' n s c Hn Hwf Hc Hrun.
  - injection Hrun as <-. by exists c.
  - cbn [session_run fmap list_fmap fst player_session] in *.
    pose proof (deliver_well_formed events g s Hwf) as Hwf0.
    destruct (game_tick_steps entropy _ n s Hn Hwf0)
      as (c1 & p1 & g2 & s' & Hmove & _ & Hso & Hn' & Hwf2 & _ & Htick).
    rewrite Htick, bind_Return in Hrun.
    destruct (wf_stack _ _ Hwf0) as (m & Hm).
    destruct (move_on_any_canvas _ m Hm) as (f & p' & Hf & Hrect & _ & _ & Hlocal).
    rewrite Hf in Hmove. injection Hmove as <- <-.
    destruct (deliver_stream events g) as [_ Hdc].
    rewrite deliver_player in *. rewrite Hdc in *.
    destruct (events_entered_fields events (Game._player g)) as (Hr & _).
    rewrite Hf, bind_Return.
    destruct Hso as (Hp2 & _ & _ & Hitem). cbn in Hp2, Hitem.
    set (g1 := if points s' =? 1 then scored g2 else g2) in *.
    assert (Hg1 : Game._player g1 = p' ∧ Game._canvas g1 = Game._canvas g2).
    { unfold g1. by destruct (points s' =? 1). }
    destruct Hg1 as [Hp1 Hc1].
    destruct (IH g1 g' (S n) s' (f c) Hn') as (c' & Hps & Hitems); [| |done|].
    + unfold g1. destruct (points s' =? 1); [by apply scored_well_formed|done].
    + rewrite Hp1, Hc1, Hitem, Hrect. apply Hlocal. by rewrite Hr.
    + exists c'. by rewrite <- Hp1.
Qed.

(** The entity of a game is the entity on its own under the same events:
    the stream, the random gaps and the score have no part in it. *)
Lemma session_player (inputs : list (list Event * (nat -> Z))) (g : Game.t) :
  session_run inputs (Game.__init__ Canvas.new) = Return g →
  ∃ c, player_session inputs.*1 new_player.1 new_player.2 = Return (c, Game._player g) ∧
       Player.get_coordinates (Game._canvas g) (Game._player g)
       = Player.get_coordinates c (Game._player g).
Proof.
  intros Hrun.
  destruct (session_run_player inputs _ g 0 [] new_player.1 eq_refl game_init_well_formed
              eq_refl Hrun) as (c & Hps & Hitems).
  exists c. split; [done|].
  unfold Player.get_coordinates, Canvas.coords. by rewrite Hitems.
Qed.

End Independence.

(** ** The entity without input, and with a boost before every tick *)

Lemma ignored_event (p : Player.t) (event : Event) :
  Player._control_key p = "space"%string → Player._control_button p = 1 →
  ignored event → Player.event_entered p event = p.
Proof.
  intros Hk Hb [Hkey Hnum]. unfold Player.event_entered. rewrite Hk, Hb.
  by rewrite (bool_decide_eq_false_2 _ Hkey), (bool_decide_eq_false_2 _ Hnum).
Qed.

Lemma ignored_events (events : list Event) (p : Player.t) :
  Player._control_key p = "space"%string → Player._control_button p = 1 →
  Forall ignored events → foldl Player.event_entered p events = p.
Proof.
  intros Hk Hb Hall. induction Hall as [|ev events Hev _ IH]; [done|].
  cbn [foldl]. by rewrite ignored_event.
Qed.

Lemma control_event (p : Player.t) (event : Event) :
  Player._control_key p = "space"%string → Player._control_button p = 1 →
  control event →
  Player.event_entered p event = Player.event_entered p space_key.
Proof.
  intros Hk Hb Hev.
  rewrite (event_entered_boost p event); [|by rewrite Hk, Hb].
  rewrite (event_entered_boost p space_key); [done|]. left. by rewrite Hk.
Qed.

(** Without input the entity alone is the entity under [player_run]. *)
Lemma player_session_idle (inputs : list (list Event)) :
  ∀ (c : Canvas.t) (p : Player.t),
    Player._control_key p = "space"%string → Player._control_button p = 1 →
    Player._movement_stack p = [] →
    Forall (Forall ignored) inputs →
    player_session inputs c p = player_run (length inputs) c p.
Proof.
  induction inputs as [|events inputs IH]; intros c p Hk Hb Hs Hall; [done|].
  apply Forall_cons in Hall as [Hev Hall]. cbn [player_session length player_run].
  rewrite ignored_events by done. rewrite (move_fall c p Hs).
  unfold Player._fall. rewrite !bind_Return. by apply IH.
Qed.

(** One boost before every tick, whichever of the two controls gives it, is
    the space bar before every tick. *)
Lemma player_session_boosts (inputs : list (list Event)) :
  ∀ (c : Canvas.t) (p : Player.t),
    Player._control_key p = "space"%string → Player._control_button p = 1 →
    Player._movement_stack p = [] →
    Forall (fun events => ∃ event, events = [event] ∧ control event) inputs →
    player_session inputs c p = player_session (replicate (length inputs) [space_key]) c p.
Proof.
  induction inputs as [|events inputs IH]; intros c p Hk Hb Hs Hall; [done|].
  apply Forall_cons in Hall as [(ev & -> & Hev) Hall].
  cbn [player_session length replicate foldl].
  rewrite (control_event p ev Hk Hb Hev).
  rewrite (event_entered_boost p space_key); [|left; by rewrite Hk].
  rewrite Hs. cbn [app].
  rewrite move_flap by done. rewrite !bind_Return. by apply IH.
Qed.

Lemma fallen_always (n : nat) : (n ≤ 35)%nat → fallen n = true.
Proof.
  intros Hn.
  assert (Hall : forallb fallen (seq 0 36) = true) by (vm_compute; reflexivity).
  rewrite forallb_forall in Hall. apply Hall, in_seq. lia.
Qed.

Lemma risen_always (n : nat) : (n ≤ 38)%nat → risen n = true.
Proof.
  intros Hn.
  assert (Hall : forallb risen (seq 0 39) = true) by (vm_compute; reflexivity).
  rewrite forallb_forall in Hall. apply Hall, in_seq. lia.
Qed.

(** ** The canvas never loses an item *)

Lemma keeps_refl (c : Canvas.t) : keeps c c.
Proof. split; [done|]. intros i. split; [by left|]. intros [Hi|Hi]; [done|lia]. Qed.

Lemma keeps_trans (c1 c2 c3 : Canvas.t) : keeps c1 c2 → keeps c2 c3 → keeps c1 c3.
Proof.
  intros (Hn1 & H1) (Hn2 & H2). split; [lia|]. intros i. rewrite H2, H1. split.
  - intros [[Hi|Hi]|Hi]; [by left|right; lia|right; lia].
  - intros [Hi|Hi]; [by left; left|].
    destruct (decide (i < Canvas.next_id c2)%nat); [left; right; lia|right; lia].
Qed.

Lemma create_rectangle_keeps (c : Canvas.t) (a b a' b' : Z) :
  keeps c (Canvas.create_rectangle c a b a' b').2.
Proof.
  split; cbn; [lia|]. intros i.
  destruct (decide (i = Canvas.next_id c)) as [->|Hne].
  - rewrite lookup_insert_eq. split; [right; lia|done].
  - rewrite lookup_insert_ne by done. split; [by left|]. intros [Hi|Hi]; [done|lia].
Qed.

Lemma canvas_move_keeps (c : Canvas.t) (i : nat) (dx dy : Float.t) :
  keeps c (Canvas.move c i dx dy).
Proof.
  unfold Canvas.move. destruct (Canvas.items c !! i) as [r|] eqn:Hi; [|apply keeps_refl].
  split; cbn; [lia|]. intros j.
  destruct (decide (j = i)) as [->|Hne].
  - rewrite lookup_insert_eq, Hi. split; [by left|done].
  - rewrite lookup_insert_ne by done. split; [by left|]. intros [Hj|Hj]; [done|lia].
Qed.

Lemma player_move_keeps (c c' : Canvas.t) (p p' : Player.t) :
  Player.move c p = Return (c', p') → keeps c c'.
Proof.
  destruct p as [r key button v [|a [|b l]]]; unfold Player.move, Player._fall, Player._flap.
  - cbn -[Canvas.move Float.add Float.mul Float.of_int].
    intros [= <- _]. apply canvas_move_keeps.
  - cbn -[Canvas.move Float.add Float.mul Float.of_int String.eqb].
    destruct (String.eqb "True" a); cbn -[Canvas.move Float.add Float.mul Float.of_int];
      [|done].
    intros [= <- _]. apply canvas_move_keeps.
  - cbn -[Canvas.move Float.add Float.mul Float.of_int Py.pop].
    destruct (Py.pop (a :: b :: l)) as [[x s]| |];
      cbn -[Canvas.move Float.add Float.mul Float.of_int]; [|done..].
    intros [= <- _]. apply keeps_refl.
Qed.

Lemma obstacle_init_keeps (c : Canvas.t) (x y : Z) : keeps c (Obstacle.__init__ c x y).1.
Proof.
  unfold Obstacle.__init__.
  destruct (Canvas.create_rectangle c x _ _ _) as [r1 c1] eqn:H1.
  destruct (Canvas.create_rectangle c1 x y _ _) as [r2 c2] eqn:H2.
  cbn [fst]. apply (keeps_trans _ c1).
  - pose proof (create_rectangle_keeps c x (y - Obstacle._OBSTACLE_GAP)
                  (x + Obstacle._OBSTACLE_WIDTH) (y - Obstacle._SCREEN_HEIGHT)) as Hk.
    by rewrite H1 in Hk.
  - pose proof (create_rectangle_keeps c1 x y (x + Obstacle._OBSTACLE_WIDTH)
                  (y + Obstacle._SCREEN_HEIGHT)) as Hk.
    by rewrite H2 in Hk.
Qed.

Lemma move_obstacle_keeps (c c' : Canvas.t) (o o' : Obstacle.t) :
  Obstacle.move_obstacle c o = Return (c', o') → keeps c c'.
Proof.
  unfold Obstacle.move_obstacle.
  destruct (Obstacle._check_obstacle_positions _) as [o1| |]; [|done..].
  rewrite bind_Return. intros [= <- _].
  eapply keeps_trans; apply canvas_move_keeps.
Qed.

Lemma move_obstacles_keeps (l : list Obstacle.t) :
  ∀ (c c' : Canvas.t) (l' : list Obstacle.t),
    Game.move_obstacles c l = Return (c', l') → keeps c c'.
Proof.
  induction l as [|o l IH]; intros c c' l' Hrun.
  - injection Hrun as <- _. apply keeps_refl.
  - cbn [Game.move_obstacles] in Hrun.
    destruct (Obstacle.move_obstacle c o) as [[c1 o1]| |] eqn:Hmove; [|done..].
    rewrite bind_Return in Hrun.
    destruct (Game.move_obstacles c1 l) as [[c2 l2]| |] eqn:Hrest; [|done..].
    rewrite bind_Return in Hrun. injection Hrun as <- _.
    apply (keeps_trans _ c1); [by apply (move_obstacle_keeps _ _ o o1)|by apply (IH _ _ l2)].
Qed.

Lemma manage_pipes_loop_keeps (entropy : nat -> Z) (fuel : nat) :
  ∀ (n i : nat) (g g' : Game.t),
    Game._manage_pipes_loop fuel entropy n i g = Return g' →
    keeps (Game._canvas g) (Game._canvas g').
Proof.
  induction fuel as [|fuel IH]; intros n i g g' Hrun; [done|].
  cbn [Game._manage_pipes_loop] in Hrun.
  destruct (Game._obstacles g !! i) as [o|]; [|injection Hrun as <-; apply keeps_refl].
  set (spawn := if Obstacle.halfway o then _ else _) in Hrun.
  assert (Hspawn : match spawn with
                   | Return (_, g1) => keeps (Game._canvas g) (Game._canvas g1)
                   | _ => True
                   end).
  { unfold spawn. destruct (Obstacle.halfway o); [|apply keeps_refl].
    destruct (Py.randrange _ _ _) as [y| |]; [|done..]. rewrite bind_Return.
    pose proof (obstacle_init_keeps (Game._canvas g)
                  (Game._SCREEN_WIDTH + Game._DISTANCE_BETWEEN_OBSTACLES) y) as Hk.
    by destruct (Obstacle.__init__ _ _ _) as [c1 o1]. }
  destruct spawn as [[n1 g1]| |]; [|done..]. rewrite bind_Return in Hrun.
  set (remove := if Obstacle.off_screen o then _ else _) in Hrun.
  assert (Hremove : match remove with
                    | Return g2 => keeps (Game._canvas g1) (Game._canvas g2)
                    | _ => True
                    end).
  { unfold remove. destruct (Obstacle.off_screen o); [|apply keeps_refl].
    destruct (Py.remove _ _ _) as [l| |]; [|done..]. rewrite bind_Return.
    game_fields. rewrite canvas_delete_nil. apply keeps_refl. }
  destruct remove as [g2| |]; [|done..]. rewrite bind_Return in Hrun.
  apply (keeps_trans _ (Game._canvas g1)); [done|].
  apply (keeps_trans _ (Game._canvas g2)); [done|]. by apply (IH n1 (S i)).
Qed.

Lemma manage_pipes_keeps (entropy : nat -> Z) (g g' : Game.t) :
  Game._manage_pipes entropy g = Return g' → keeps (Game._canvas g) (Game._canvas g').
Proof.
  unfold Game._manage_pipes.
  destruct (Game.move_obstacles _ _) as [[c1 l1]| |] eqn:Hmove; [|done..].
  rewrite bind_Return. cbn beta iota zeta.
  pose proof (move_obstacles_keeps _ _ _ _ Hmove) as Hk1.
  set (first := if (_ =? 0)%nat then _ else _).
  assert (Hfirst : match first with
                   | Return (_, g1) => keeps c1 (Game._canvas g1)
                   | _ => True
                   end).
  { unfold first. game_fields. destruct (length l1 =? 0)%nat; [|apply keeps_refl].
    destruct (Py.randrange _ _ _) as [y| |]; [|done..]. rewrite bind_Return.
    pose proof (obstacle_init_keeps c1 Game._SCREEN_WIDTH y) as Hk.
    by destruct (Obstacle.__init__ _ _ _) as [c2 o2]. }
  destruct first as [[n1 g1]| |]; [|done..]. rewrite bind_Return.
  intros Hloop%manage_pipes_loop_keeps.
  apply (keeps_trans _ c1); [done|]. by apply (keeps_trans _ (Game._canvas g1)).
Qed.

Lemma manage_score_canvas (g g' : Game.t) :
  Game._manage_score g = Return g' → Game._canvas g' = Game._canvas g.
Proof.
  unfold Game._manage_score.
  destruct (Py.index (Game._obstacles g) 0) as [o| |]; [|done..]. rewrite bind_Return.
  destruct (Py.index _ Player.RIGHT_X) as [p| |]; [|done..]. rewrite bind_Return.
  destruct (Py.index _ Obstacle.RIGHT_X) as [q| |]; [|done..]. rewrite bind_Return.
  destruct (Float.eqb p q); by intros [= <-].
Qed.

Section Keeping.
Context `{FindOverlapping}.

Lemma game_tick_keeps (entropy : nat -> Z) (g g' : Game.t) :
  game_tick entropy g = Return g' → keeps (Game._canvas g) (Game._canvas g').
Proof.
  unfold game_tick.
  destruct (Player.move _ _) as [[c1 p1]| |] eqn:Hmove; [|done..].
  rewrite bind_Return. cbn beta iota zeta.
  destruct (Game._manage_pipes _ _) as [g2| |] eqn:Hpipes; [|done..].
  rewrite bind_Return.
  destruct (Game.manage_collisions g2) as [v| |]; [|done..]. rewrite bind_Return.
  intros Hscore%manage_score_canvas. rewrite Hscore.
  apply (keeps_trans _ c1); [by apply (player_move_keeps _ _ _ _ Hmove)|].
  by apply manage_pipes_keeps in Hpipes.
Qed.

Lemma session_run_keeps (inputs : list (list Event * (nat -> Z))) :
  ∀ g g' : Game.t,
    session_run inputs g = Return g' → keeps (Game._canvas g) (Game._canvas g').
Proof.
  induction inputs as [|[events entropy] inputs IH]; intros g g' Hrun.
  - injection Hrun as <-. apply keeps_refl.
  - cbn [session_run] in Hrun.
    destruct (game_tick entropy (deliver events g)) as [g1| |] eqn:Htick; [|done..].
    rewrite bind_Return in Hrun. apply game_tick_keeps in Htick.
    destruct (deliver_stream events g) as [_ Hc]. rewrite Hc in Htick.
    apply (keeps_trans _ (Game._canvas g1)); [done|]. by apply IH.
Qed.

End Keeping.

(** ** The label of the scoreboard and the cached coordinates *)

Section Coherence.
Context `{FindOverlapping}.

(** The label of the scoreboard shows the score. *)
Lemma session_run_label (inputs : list (list Event * (nat -> Z))) :
  ∀ (g g' : Game.t) (n : nat) (s : list Stream.pair),
    Stream.after n = Some s → well_formed g s →
    Scoreboard._text (Game._scoreboard g) = Scoreboard.score (Game._scoreboard g) →
    session_run inputs g = Return g' →
    Scoreboard._text (Game._scoreboard g') = Scoreboard.score (Game._scoreboard g').
Proof.
  induction inputs as [|[events entropy] inputs IH]; intros g g' n s Hn Hwf Hsb Hrun.
  - by injection Hrun as <-.
  - cbn [session_run] in Hrun.
    pose proof (deliver_well_formed events g s Hwf) as Hwf0.
    destruct (game_tick_steps entropy _ n s Hn Hwf0)
      as (c1 & p1 & g2 & s' & _ & _ & Hso & Hn' & Hwf2 & _ & Htick).
    rewrite Htick, bind_Return in Hrun.
    destruct Hso as (_ & Hsb2 & _ & _). cbn in Hsb2.
    destruct (deliver_score events g) as [_ Hdb].
    refine (IH _ g' (S n) s' Hn' _ _ Hrun).
    + destruct (points s' =? 1); [by apply scored_well_formed|done].
    + destruct (points s' =? 1); [done|]. by rewrite Hsb2, Hdb.
Qed.

(** The coordinates that an obstacle has cached are those of its
    rectangles on the canvas. *)
Lemma represents_cache (c : Canvas.t) (o : Obstacle.t) (a : Stream.pair) :
  represents c o a →
  Obstacle.top_obstacle_position o = Canvas.coords c (Obstacle._top_rectangle o) ∧
  Obstacle.bottom_obstacle_position o = Canvas.coords c (Obstacle._bottom_rectangle o).
Proof.
  intros (y & _ & Ht & Hb & -> & -> & _). unfold Canvas.coords. by rewrite Ht, Hb.
Qed.

Lemma session_cache (inputs : list (list Event * (nat -> Z))) (g : Game.t) :
  session_run inputs (Game.__init__ Canvas.new) = Return g →
  Forall (fun o =>
            Obstacle.top_obstacle_position o
            = Canvas.coords (Game._canvas g) (Obstacle._top_rectangle o) ∧
            Obstacle.bottom_obstacle_position o
            = Canvas.coords (Game._canvas g) (Obstacle._bottom_rectangle o))
    (Game._obstacles g).
Proof.
  intros Hrun. destruct (session_reachable inputs g Hrun) as (s & _ & Hwf).
  pose proof (wf_stream g s Hwf) as Hrep.
  apply Forall_forall. intros o [i Hi]%list_elem_of_lookup.
  destruct (Forall2_lookup_l _ _ _ _ _ Hrep Hi) as (a & _ & Ha).
  by apply (represents_cache _ _ a).
Qed.

End Coherence.

(** ** What a move leaves alone *)

Lemma canvas_move_frame (c : Canvas.t) (i j : nat) (dx dy : Float.t) :
  j ≠ i →
  Canvas.items (Canvas.move c i dx dy) !! j = Canvas.items c !! j.
Proof.
  intros Hne. unfold Canvas.move. destruct (Canvas.items c !! i); [|done].
  cbn [Canvas.items]. by rewrite lookup_insert_ne.
Qed.

Lemma canvas_move_next_id (c : Canvas.t) (i : nat) (dx dy : Float.t) :
  Canvas.next_id (Canvas.move c i dx dy) = Canvas.next_id c.
Proof. unfold Canvas.move. by destruct (Canvas.items c !! i). Qed.

Lemma player_move_frame (c c' : Canvas.t) (p p' : Player.t) :
  Player.move c p = Return (c', p') →
  (∀ j, j ≠ Player.player_rectangle p → Canvas.items c' !! j = Canvas.items c !! j) ∧
  Canvas.next_id c' = Canvas.next_id c ∧
  Player.player_rectangle p' = Player.player_rectangle p ∧
  Player._control_key p' = Player._control_key p ∧
  Player._control_button p' = Player._control_button p.
Proof.
  destruct p as [r key button v [|a [|b l]]]; unfold Player.move, Player._fall, Player._flap.
  - cbn -[Canvas.move Float.add Float.mul Float.of_int].
    intros [= <- <-]. split; [|by rewrite canvas_move_next_id].
    intros j Hj. by apply canvas_move_frame.
  - cbn -[Canvas.move Float.add Float.mul Float.of_int String.eqb].
    destruct (String.eqb "True" a); cbn -[Canvas.move Float.add Float.mul Float.of_int];
      [|done].
    intros [= <- <-]. split; [|by rewrite canvas_move_next_id].
    intros j Hj. by apply canvas_move_frame.
  - cbn -[Canvas.move Float.add Float.mul Float.of_int Py.pop].
    destruct (Py.pop (a :: b :: l)) as [[x s]| |];
      cbn -[Canvas.move Float.add Float.mul Float.of_int]; [|done..].
    by intros [= <- <-].
Qed.
(** ** The items of the canvas *)

Lemma game_init_items (i : nat) :
  is_Some (Canvas.items (Game._canvas (Game.__init__ Canvas.new)) !! i) ↔ i = 1%nat.
Proof.
  cbn -[Float.of_int Canvas.normalize]. destruct (decide (i = 1%nat)) as [->|Hne].
  - by rewrite lookup_insert_eq.
  - rewrite lookup_insert_ne by done. rewrite lookup_empty. split; [by intros [? ?]|done].
Qed.

(** Pair [j] has been created by tick [n] exactly when the canvas has
    handed out its two ids. *)
Lemma spawned_ids (j n : nat) :
  (spawn_tick j ≤ n)%nat ↔ (S (pair_id j) < next_id_after n)%nat.
Proof.
  unfold spawn_tick, pair_id, next_id_after.
  destruct (Nat.eqb_spec n 0) as [->|Hn0].
  - destruct (Nat.eqb_spec j 0); lia.
  - destruct (Nat.ltb_spec n 91) as [Hlt|Hge].
    + destruct (Nat.eqb_spec j 0); lia.
    + pose proof (Nat.div_mod_eq (n - 91) 130) as Hdm.
      pose proof (Nat.mod_upper_bound (n - 91) 130 ltac:(lia)) as Hm.
      destruct (Nat.eqb_spec j 0); lia.
Qed.

Section Items.
Context `{FindOverlapping}.

(** The canvas of a game after [n] ticks holds the rectangle of the entity
    and the two rectangles of every pair created so far, and nothing
    else. *)
Lemma session_items (inputs : list (list Event * (nat -> Z))) (g : Game.t) :
  session_run inputs (Game.__init__ Canvas.new) = Return g →
  ∀ i, is_Some (Canvas.items (Game._canvas g) !! i)
       ↔ (1 ≤ i < next_id_after (length inputs))%nat.
Proof.
  intros Hrun i. destruct (session_ids inputs g Hrun) as [_ Hnext].
  destruct (session_run_keeps inputs _ g Hrun) as [Hle Hdom].
  rewrite Hdom, game_init_items, Hnext.
  change (Canvas.next_id (Game._canvas (Game.__init__ Canvas.new))) with 2%nat.
  assert (2 ≤ next_id_after (length inputs))%nat.
  { rewrite <- Hnext. exact Hle. }
  lia.
Qed.

End Items.

(** ** The bounds on the way down and on the way up *)

Lemma fall_bounds (n : nat) :
  (n ≤ 35)%nat →
  Float.geb (of_halves (680 + triangle n)) (Float.of_int 640) = (35 <=? n)%nat ∧
  Float.leb (of_halves (600 + triangle n)) (Float.of_int 0) = false.
Proof.
  intros Hn.
  assert (Hall : forallb (fun n =>
            Bool.eqb (Float.geb (of_halves (680 + triangle n)) (Float.of_int 640))
                     (35 <=? n)%nat
            && negb (Float.leb (of_halves (600 + triangle n)) (Float.of_int 0)))
            (seq 0 36) = true) by (vm_compute; reflexivity).
  rewrite forallb_forall in Hall.
  assert (Hin : In n (seq 0 36)) by (apply in_seq; lia).
  apply Hall in Hin. apply andb_prop in Hin as [Ha Hb].
  apply Bool.eqb_prop in Ha. by apply negb_true_iff in Hb.
Qed.

Lemma rise_bounds (n : nat) :
  (n ≤ 38)%nat →
  Float.leb (Float.of_int (300 - 8 * Z.of_nat n)) (Float.of_int 0) = (38 <=? n)%nat ∧
  Float.geb (Float.of_int (340 - 8 * Z.of_nat n)) (Float.of_int 640) = false.
Proof.
  intros Hn.
  assert (Hall : forallb (fun n =>
            Bool.eqb (Float.leb (Float.of_int (300 - 8 * Z.of_nat n)) (Float.of_int 0))
                     (38 <=? n)%nat
            && negb (Float.geb (Float.of_int (340 - 8 * Z.of_nat n)) (Float.of_int 640)))
            (seq 0 39) = true) by (vm_compute; reflexivity).
  rewrite forallb_forall in Hall.
  assert (Hin : In n (seq 0 39)) by (apply in_seq; lia).
  apply Hall in Hin. apply andb_prop in Hin as [Ha Hb].
  apply Bool.eqb_prop in Ha. by apply negb_true_iff in Hb.
Qed.

Section Trajectories.
Context `{FindOverlapping}.

(** A game without a boost: the entity after [n ≤ 35] ticks. *)
Lemma session_idle (inputs : list (list Event * (nat -> Z))) (g : Game.t) :
  Forall (fun i => Forall ignored i.1) inputs →
  (length inputs ≤ 35)%nat →
  session_run inputs (Game.__init__ Canvas.new) = Return g →
  Player.get_coordinates (Game._canvas g) (Game._player g)
  = [Float.of_int 40; of_halves (600 + triangle (length inputs));
     Float.of_int 80; of_halves (680 + triangle (length inputs))] ∧
  Player._y_velocity (Game._player g) = of_halves (Z.of_nat (length inputs)).
Proof.
  intros Hall Hn Hrun. destruct (session_player inputs g Hrun) as (c & Hps & Hco).
  rewrite player_session_idle in Hps; [|done..|by apply Forall_fmap].
  rewrite length_fmap in Hps. pose proof (fallen_always _ Hn) as Hf.
  unfold fallen in Hf. rewrite Hps in Hf.
  apply andb_prop in Hf as [[Hc Hv]%andb_prop _].
  apply bool_decide_eq_true_1 in Hc, Hv. by rewrite Hco.
Qed.

(** A game with one boost before every tick: the entity after [n ≤ 38]
    ticks. *)
Lemma session_boosts (inputs : list (list Event * (nat -> Z))) (g : Game.t) :
  Forall (fun i => ∃ event, i.1 = [event] ∧ control event) inputs →
  (length inputs ≤ 38)%nat →
  session_run inputs (Game.__init__ Canvas.new) = Return g →
  Player.get_coordinates (Game._canvas g) (Game._player g)
  = [Float.of_int 40; Float.of_int (300 - 8 * Z.of_nat (length inputs));
     Float.of_int 80; Float.of_int (340 - 8 * Z.of_nat (length inputs))] ∧
  Player._y_velocity (Game._player g)
  = Float.of_int (if (length inputs =? 0)%nat then 0 else -8).
Proof.
  intros Hall Hn Hrun. destruct (session_player inputs g Hrun) as (c & Hps & Hco).
  rewrite player_session_boosts in Hps; [|done..|by apply Forall_fmap].
  rewrite length_fmap in Hps. pose proof (risen_always _ Hn) as Hf.
  unfold risen in Hf. rewrite Hps in Hf.
  apply andb_prop in Hf as [[Hc Hv]%andb_prop _].
  apply bool_decide_eq_true_1 in Hc, Hv. by rewrite Hco.
Qed.

End Trajectories.

Section Scores.
Context `{FindOverlapping}.

Lemma session_score (inputs : list (list Event * (nat -> Z))) (g : Game.t) :
  session_run inputs (Game.__init__ Canvas.new) = Return g →
  Game.score g = score_after (length inputs).
Proof.
  intros Hrun.
  apply (session_run_score inputs _ g 0 [] eq_refl game_init_well_formed eq_refl Hrun).
Qed.

End Scores.

(** * Further properties of the game *)

(** ** No exception, and every loop ends *)

(** X1.  A game raises nothing.  Whatever the overlap test, the input
    events and the values that [random.randrange] returns, every tick of a
    game returns: [run_game], called on the application's game after any
    number of earlier ticks and with any events delivered since, raises
    neither the [IndexError] of the unguarded [self._obstacles[0]] in
    [_manage_score], nor the [ValueError] of [remove("True")] in [_flap], nor
    any other exception, and its loops end. *)
Theorem X1_game_raises_nothing `{FindOverlapping} (inputs : list (list Event * (nat -> Z))) :
  ∃ g, session_run inputs (Game.__init__ Canvas.new) = Return g ∧
       ∀ (events : list Event) (entropy : nat -> Z) (a : Application.t),
         ∃ g' a', run_game entropy (Application.set_game a (deliver events g))
                  = Return (g', a').
Proof.
  destruct (session_returns inputs) as (g & Hrun). exists g. split; [done|].
  intros events entropy a.
  destruct (session_next_tick inputs g events entropy Hrun) as (g' & Htick & Hrun').
  destruct (session_reachable _ g' Hrun') as (s' & _ & Hwf').
  rewrite run_game_tick. cbn [Application.game_object Application.set_game].
  rewrite Htick, bind_Return. unfold Application.check_restart.
  cbn [Application.game_object Application.set_game].
  destruct (manage_collisions_returns g' s' Hwf') as (v & ->). rewrite bind_Return.
  destruct (truthy v); rewrite bind_Return; eauto.
Qed.

(** X2.  The second loop of [_manage_pipes] iterates over the list
    [_obstacles] while it appends to it and removes from it.  On every game
    state, also on one that no game reaches, it ends within the
    [2 * len + 1] rounds that [_manage_pipes] gives it here, [len] being
    the length of the list when the loop starts: the call returns or raises,
    and never uses up its rounds. *)
Theorem X2_manage_pipes_loop_ends (entropy : nat -> Z) (g : Game.t) :
  Game._manage_pipes entropy g ≠ OutOfFuel.
Proof. apply manage_pipes_ends. Qed.

(** ** The stream and the score in closed form *)

(** X3.  The obstacle stream depends on nothing but the number of ticks.
    After [n] ticks of a game, whatever the input events, the overlap test
    and the random gaps, the pairs of [_obstacles] have their left edges at
    [positions n], nearest pair first: [362 - 2 n] up to tick 90, and from
    tick 91 on, with [m = (n - 91) mod 130], [180 - 2 m] (while [m < 125])
    and [440 - 2 m].  Each pair's cached boxes are those of a gap centre in
    [[200, 600)], its flag [halfway] is set exactly at 180, and no pair of
    the list is [off_screen]. *)
Theorem X3_stream_positions `{FindOverlapping} (inputs : list (list Event * (nat -> Z)))
  (g : Game.t) :
  session_run inputs (Game.__init__ Canvas.new) = Return g →
  Forall2 (fun o x => (∃ y, 200 ≤ y < 600 ∧ at_position o x y) ∧
                      Obstacle.halfway o = (x =? 180) ∧
                      Obstacle.off_screen o = false)
    (Game._obstacles g) (positions (length inputs)).
Proof. apply session_positions. Qed.

Lemma X3_witness :
  ∃ g, @session_run rectangle_overlap (replicate 100 quiet_tick) (Game.__init__ Canvas.new)
       = Return g ∧
       Forall2 (fun o x => (∃ y, 200 ≤ y < 600 ∧ at_position o x y) ∧
                           Obstacle.halfway o = (x =? 180) ∧
                           Obstacle.off_screen o = false)
         (Game._obstacles g) [162; 422].
Proof.
  eexists. split; [vm_compute; reflexivity|].
  apply (@X3_stream_positions rectangle_overlap (replicate 100 quiet_tick)).
  vm_compute. reflexivity.
Defined.

(** X4.  Once its first tick has run, a game always has one or two pairs in
    [_obstacles], nearest first: each pair's left edge is between -68 and
    440, and when there are two, the second is exactly 260 behind the
    first. *)
Theorem X4_stream_shape `{FindOverlapping} (inputs : list (list Event * (nat -> Z)))
  (g : Game.t) :
  inputs ≠ [] →
  session_run inputs (Game.__init__ Canvas.new) = Return g →
  (1 ≤ length (Game._obstacles g) ≤ 2)%nat ∧
  Forall (fun o => ∃ x, -68 ≤ x ≤ 440 ∧
                        Obstacle.bottom_obstacle_position o !! Obstacle._LEFT_X
                        = Some (Float.of_int x) ∧
                        Obstacle.top_obstacle_position o !! Obstacle._LEFT_X
                        = Some (Float.of_int x))
    (Game._obstacles g) ∧
  ∀ o1 o2 l, Game._obstacles g = o1 :: o2 :: l →
             ∃ x, Obstacle.bottom_obstacle_position o1 !! Obstacle._LEFT_X
                  = Some (Float.of_int x) ∧
                  Obstacle.bottom_obstacle_position o2 !! Obstacle._LEFT_X
                  = Some (Float.of_int (x + 260)).
Proof.
  intros Hne Hrun. pose proof (session_positions inputs g Hrun) as Hpos.
  assert (Hn : (1 ≤ length inputs)%nat) by (destruct inputs; [done|cbn; lia]).
  assert (Hcases : (∃ x, -68 ≤ x ≤ 440 ∧ positions (length inputs) = [x])
                   ∨ (∃ x, -68 ≤ x ≤ 180 ∧ positions (length inputs) = [x; x + 260])).
  { unfold positions. destruct (Nat.eqb_spec (length inputs) 0) as [|_]; [lia|].
    destruct (Nat.ltb_spec (length inputs) 91) as [Hlt|Hge].
    - left. eexists. split; [|done]. lia.
    - pose proof (Nat.mod_upper_bound (length inputs - 91) 130) as Hm.
      set (m := ((length inputs - 91) mod 130)%nat) in *.
      destruct (Z.ltb_spec (Z.of_nat m) 125).
      + right. exists (180 - 2 * Z.of_nat m). split; [lia|]. cbn [app].
        do 2 f_equal. lia.
      + left. eexists. split; [|done]. lia. }
  assert (Hleft : ∀ o x, (∃ y, 200 ≤ y < 600 ∧ at_position o x y) →
            Obstacle.bottom_obstacle_position o !! Obstacle._LEFT_X = Some (Float.of_int x) ∧
            Obstacle.top_obstacle_position o !! Obstacle._LEFT_X = Some (Float.of_int x)).
  { intros o x (y & _ & -> & ->). done. }
  destruct Hcases as [(x & Hx & Heq)|(x & Hx & Heq)]; rewrite Heq in Hpos.
  - apply Forall2_cons_inv_r in Hpos as (o & l & (Ho & _) & Hl & Hg).
    apply Forall2_nil_inv_r in Hl as ->. rewrite Hg. cbn [length].
    split; [lia|]. split; [|done].
    constructor; [|done]. exists x. split; [done|]. by apply Hleft.
  - apply Forall2_cons_inv_r in Hpos as (o & l & (Ho & _) & Hl & Hg).
    apply Forall2_cons_inv_r in Hl as (o' & l' & (Ho' & _) & Hl' & ->).
    apply Forall2_nil_inv_r in Hl' as ->. rewrite Hg. cbn [length].
    split; [lia|]. split.
    + constructor; [|constructor; [|done]].
      * exists x. split; [lia|]. by apply Hleft.
      * exists (x + 260). split; [lia|]. by apply Hleft.
    + intros o1 o2 l [= <- <- <-]. exists x.
      split; [by apply Hleft|by apply Hleft].
Qed.

Lemma X4_witness :
  ∃ g o1 o2,
    @session_run rectangle_overlap (replicate 100 quiet_tick) (Game.__init__ Canvas.new)
    = Return g ∧
    Game._obstacles g = [o1; o2] ∧
    Obstacle.bottom_obstacle_position o1 !! Obstacle._LEFT_X = Some (Float.of_int 162) ∧
    Obstacle.bottom_obstacle_position o2 !! Obstacle._LEFT_X = Some (Float.of_int 422) ∧
    (1 ≤ length (Game._obstacles g) ≤ 2)%nat.
Proof.
  eexists _, _, _. split; [vm_compute; reflexivity|].
  split; [vm_compute; reflexivity|]. split; [vm_compute; reflexivity|].
  split; [vm_compute; reflexivity|].
  refine (proj1 (@X4_stream_shape rectangle_overlap (replicate 100 quiet_tick) _ _ _)).
  - discriminate.
  - vm_compute. reflexivity.
Defined.

(** X5.  The score counts ticks.  After [n] ticks of a game, whatever the
    input events, the overlap test and the random gaps, the score of the
    game, the score of its scoreboard and the number on the scoreboard's
    label are all [(n - 46) / 130], rounded down and 0 up to tick 46: the
    first point comes on tick 176 and one more every 130 ticks.  So when
    the next tick ends the game, the label of the menu shows the score of
    tick [n + 1]. *)
Theorem X5_score_counts_ticks `{FindOverlapping} (inputs : list (list Event * (nat -> Z)))
  (g : Game.t) :
  session_run inputs (Game.__init__ Canvas.new) = Return g →
  Game.score g = score_after (length inputs) ∧
  Scoreboard.score (Game._scoreboard g) = score_after (length inputs) ∧
  Scoreboard._text (Game._scoreboard g) = score_after (length inputs) ∧
  ∀ (events : list Event) (entropy : nat -> Z) (a : Application.t),
    ∃ g', game_tick entropy (deliver events g) = Return g' ∧
          (Game.manage_collisions g' = Return (Some true) →
           run_game entropy (Application.set_game a (deliver events g))
           = Return (g', terminated (score_after (S (length inputs))))).
Proof.
  intros Hrun. destruct (session_reachable inputs g Hrun) as (s & Hs & Hwf).
  assert (Hscore : ∀ inputs g, session_run inputs (Game.__init__ Canvas.new) = Return g →
                               Game.score g = score_after (length inputs)).
  { intros inputs' g' Hrun'.
    apply (session_run_score inputs' _ g' 0 [] eq_refl game_init_well_formed eq_refl Hrun'). }
  pose proof (Hscore inputs g Hrun) as Hsc.
  split; [done|]. split; [by rewrite <- (wf_score g s Hwf)|]. split.
  - rewrite (session_run_label inputs _ g 0 [] eq_refl game_init_well_formed eq_refl Hrun).
    by rewrite <- (wf_score g s Hwf).
  - intros events entropy a.
    destruct (session_next_tick inputs g events entropy Hrun) as (g' & Htick & Hrun').
    exists g'. split; [done|]. intros Hc.
    rewrite run_game_tick. cbn [Application.game_object Application.set_game].
    rewrite Htick, bind_Return.
    rewrite check_restart_collision by done. rewrite bind_Return.
    cbn [Application.game_object Application.set_game].
    rewrite (Hscore _ g' Hrun').
    rewrite length_app. cbn [length]. by rewrite Nat.add_1_r.
Qed.

Lemma X5_witness :
  ∃ g, @session_run rectangle_overlap (replicate 176 quiet_tick) (Game.__init__ Canvas.new)
       = Return g ∧
       Game.score g = 1 ∧ Scoreboard._text (Game._scoreboard g) = 1.
Proof.
  eexists. split; [vm_compute; reflexivity|].
  match goal with
  | |- Game.score ?g = _ ∧ _ =>
      destruct (@X5_score_counts_ticks rectangle_overlap (replicate 176 quiet_tick) g)
        as (Hscore & _ & Htext & _)
  end.
  - vm_compute. reflexivity.
  - split; [exact Hscore|exact Htext].
Defined.

(** ** The entity *)

(** X6.  The entity does not depend on the stream.  The [Player] of a game
    after any number of ticks, and its rectangle on the canvas, are those of
    a [Player] alone on a canvas of its own that is given the same events
    before the same ticks.  So two games that receive the same events have
    the same entity at the same place, whatever their overlap tests and
    whatever [random.randrange] returns in each. *)
Theorem X6_entity_ignores_stream (overlap1 overlap2 : FindOverlapping)
  (inputs1 inputs2 : list (list Event * (nat -> Z))) (g1 g2 : Game.t) :
  @session_run overlap1 inputs1 (Game.__init__ Canvas.new) = Return g1 →
  @session_run overlap2 inputs2 (Game.__init__ Canvas.new) = Return g2 →
  inputs1.*1 = inputs2.*1 →
  (∃ c, player_session inputs1.*1 new_player.1 new_player.2 = Return (c, Game._player g1) ∧
        Player.get_coordinates (Game._canvas g1) (Game._player g1)
        = Player.get_coordinates c (Game._player g1)) ∧
  Game._player g1 = Game._player g2 ∧
  Player.get_coordinates (Game._canvas g1) (Game._player g1)
  = Player.get_coordinates (Game._canvas g2) (Game._player g2).
Proof.
  intros Hrun1 Hrun2 Heq.
  destruct (@session_player overlap1 inputs1 g1 Hrun1) as (c1 & Hps1 & Hco1).
  destruct (@session_player overlap2 inputs2 g2 Hrun2) as (c2 & Hps2 & Hco2).
  split; [by exists c1|].
  rewrite <- Heq, Hps1 in Hps2. injection Hps2 as -> Hp. split; [done|].
  by rewrite Hco1, Hco2, Hp.
Qed.

Lemma X6_witness :
  ∃ g1 g2,
    @session_run rectangle_overlap (replicate 3 ([space_key], fun _ => 0))
      (Game.__init__ Canvas.new) = Return g1 ∧
    @session_run (fun _ _ _ _ _ => []) (replicate 3 ([space_key], fun _ => 399))
      (Game.__init__ Canvas.new) = Return g2 ∧
    Game._player g1 = Game._player g2.
Proof.
  eexists _, _. split; [vm_compute; reflexivity|]. split; [vm_compute; reflexivity|].
  refine (proj1 (proj2 (X6_entity_ignores_stream rectangle_overlap (fun _ _ _ _ _ => [])
                          (replicate 3 ([space_key], fun _ => 0))
                          (replicate 3 ([space_key], fun _ => 399)) _ _ _ _ _)));
    vm_compute; reflexivity.
Defined.

(** X7.  A game without a boost.  When no event before the first [n ≤ 35]
    ticks of a game is the space bar or the left mouse button, the entity
    has fallen [n (n + 1) / 4] after tick [n]: its box is
    [40, 300 + n (n + 1) / 4, 80, 340 + n (n + 1) / 4] and its velocity is
    [n / 2].  Up to tick 34 it is inside the vertical bounds, so that only
    the overlap test can end the game; tick 35 puts its bottom edge at 655,
    below the screen height 640: [manage_collisions] returns [True], and
    [check_restart] ends the game with the score 0. *)
Theorem X7_idle_game_falls `{FindOverlapping} (inputs : list (list Event * (nat -> Z)))
  (g : Game.t) :
  Forall (fun i => Forall ignored i.1) inputs →
  (length inputs ≤ 35)%nat →
  session_run inputs (Game.__init__ Canvas.new) = Return g →
  Player.get_coordinates (Game._canvas g) (Game._player g)
  = [Float.of_int 40; of_halves (600 + triangle (length inputs));
     Float.of_int 80; of_halves (680 + triangle (length inputs))] ∧
  Player._y_velocity (Game._player g) = of_halves (Z.of_nat (length inputs)) ∧
  Float.geb (of_halves (680 + triangle (length inputs))) (Float.of_int Game._SCREEN_HEIGHT)
  = (35 <=? length inputs)%nat ∧
  Float.leb (of_halves (600 + triangle (length inputs))) (Float.of_int 0) = false ∧
  (length inputs = 35%nat →
   of_halves (680 + triangle (length inputs)) = Float.of_int 655 ∧
   Game.manage_collisions g = Return (Some true) ∧
   ∀ a : Application.t,
     Application.check_restart (Application.set_game a g) = Return (terminated 0)).
Proof.
  intros Hall Hn Hrun. destruct (session_idle inputs g Hall Hn Hrun) as [Hco Hv].
  destruct (fall_bounds _ Hn) as [Hb Ht].
  split; [done|]. split; [done|]. split; [done|]. split; [done|]. intros H35.
  assert (Hc : Game.manage_collisions g = Return (Some true)).
  { apply (session_boundary inputs g _ _ _ _ ltac:(by destruct inputs) Hrun Hco).
    left. rewrite Hb, H35. done. }
  split; [rewrite H35; vm_compute; reflexivity|]. split; [done|]. intros a.
  rewrite check_restart_collision by done.
  cbn [Application.game_object Application.set_game].
  rewrite (session_score inputs g Hrun), H35. done.
Qed.

Lemma X7_witness :
  ∃ g, @session_run rectangle_overlap (replicate 35 quiet_tick) (Game.__init__ Canvas.new)
       = Return g ∧
       Player.get_coordinates (Game._canvas g) (Game._player g)
       = [Float.of_int 40; Float.of_int 615; Float.of_int 80; Float.of_int 655] ∧
       @Game.manage_collisions rectangle_overlap g = Return (Some true).
Proof.
  eexists. split; [vm_compute; reflexivity|].
  match goal with
  | |- Player.get_coordinates (Game._canvas ?g) _ = _ ∧ _ =>
      destruct (@X7_idle_game_falls rectangle_overlap (replicate 35 quiet_tick) g)
        as (Hco & _ & _ & _ & Hend)
  end.
  - apply Forall_replicate. constructor.
  - vm_compute. lia.
  - vm_compute. reflexivity.
  - split; [vm_compute; reflexivity|]. apply Hend. reflexivity.
Defined.

(** X8.  A game with one boost before every tick.  When exactly one event
    arrives before each of the first [n ≤ 38] ticks of a game, and it is the
    space bar or the left mouse button, every tick is a flap: after tick
    [n] the entity's box is [40, 300 - 8 n, 80, 340 - 8 n] and its velocity
    is -8.  Up to tick 37 it is inside the vertical bounds; tick 38 puts its
    top edge at -4: [manage_collisions] returns [True], and [check_restart]
    ends the game with the score 0. *)
Theorem X8_boosted_game_rises `{FindOverlapping} (inputs : list (list Event * (nat -> Z)))
  (g : Game.t) :
  Forall (fun i => ∃ event, i.1 = [event] ∧ control event) inputs →
  (length inputs ≤ 38)%nat →
  session_run inputs (Game.__init__ Canvas.new) = Return g →
  Player.get_coordinates (Game._canvas g) (Game._player g)
  = [Float.of_int 40; Float.of_int (300 - 8 * Z.of_nat (length inputs));
     Float.of_int 80; Float.of_int (340 - 8 * Z.of_nat (length inputs))] ∧
  Player._y_velocity (Game._player g)
  = Float.of_int (if (length inputs =? 0)%nat then 0 else -8) ∧
  Float.leb (Float.of_int (300 - 8 * Z.of_nat (length inputs))) (Float.of_int 0)
  = (38 <=? length inputs)%nat ∧
  Float.geb (Float.of_int (340 - 8 * Z.of_nat (length inputs)))
    (Float.of_int Game._SCREEN_HEIGHT) = false ∧
  (length inputs = 38%nat →
   Game.manage_collisions g = Return (Some true) ∧
   ∀ a : Application.t,
     Application.check_restart (Application.set_game a g) = Return (terminated 0)).
Proof.
  intros Hall Hn Hrun. destruct (session_boosts inputs g Hall Hn Hrun) as [Hco Hv].
  destruct (rise_bounds _ Hn) as [Ht Hb].
  split; [done|]. split; [done|]. split; [done|]. split; [done|]. intros H38.
  assert (Hc : Game.manage_collisions g = Return (Some true)).
  { apply (session_boundary inputs g _ _ _ _ ltac:(by destruct inputs) Hrun Hco).
    right. rewrite Ht, H38. done. }
  split; [done|]. intros a.
  rewrite check_restart_collision by done.
  cbn [Application.game_object Application.set_game].
  rewrite (session_score inputs g Hrun), H38. done.
Qed.

Lemma X8_witness :
  ∃ g, @session_run rectangle_overlap (replicate 38 ([left_click], fun _ => 0))
         (Game.__init__ Canvas.new) = Return g ∧
       Player.get_coordinates (Game._canvas g) (Game._player g)
       = [Float.of_int 40; Float.of_int (-4); Float.of_int 80; Float.of_int 36] ∧
       @Game.manage_collisions rectangle_overlap g = Return (Some true).
Proof.
  eexists. split; [vm_compute; reflexivity|].
  match goal with
  | |- Player.get_coordinates (Game._canvas ?g) _ = _ ∧ _ =>
      destruct (@X8_boosted_game_rises rectangle_overlap
                  (replicate 38 ([left_click], fun _ => 0)) g)
        as (Hco & _ & _ & _ & Hend)
  end.
  - apply Forall_replicate. exists left_click. split; [reflexivity|]. right. reflexivity.
  - vm_compute. lia.
  - vm_compute. reflexivity.
  - split; [exact Hco|]. apply Hend. reflexivity.
Defined.

(** ** The canvas *)

(** X9.  The canvas keeps every rectangle.  [canvas.delete(obstacle)] in
    [_manage_pipes] deletes nothing, so a pair that has left [_obstacles]
    stays on the canvas.  After [n] ticks of a game the items of its canvas
    are exactly those with the ids from 1 to [next_id_after n - 1]: the
    entity and both rectangles of every pair created so far, also of the
    pairs that are no longer [alive]; and at most two of these pairs are in
    [_obstacles]. *)
Theorem X9_canvas_keeps_every_rectangle `{FindOverlapping}
  (inputs : list (list Event * (nat -> Z))) (g : Game.t) :
  session_run inputs (Game.__init__ Canvas.new) = Return g →
  Canvas.next_id (Game._canvas g) = next_id_after (length inputs) ∧
  (∀ i, is_Some (Canvas.items (Game._canvas g) !! i)
        ↔ (1 ≤ i < next_id_after (length inputs))%nat) ∧
  (∀ j, (spawn_tick j ≤ length inputs)%nat
        ↔ is_Some (Canvas.items (Game._canvas g) !! pair_id j) ∧
          is_Some (Canvas.items (Game._canvas g) !! S (pair_id j))) ∧
  (length (Game._obstacles g) ≤ 2)%nat.
Proof.
  intros Hrun. destruct (session_ids inputs g Hrun) as [Htops Hnext].
  pose proof (session_items inputs g Hrun) as Hitems.
  split; [done|]. split; [done|]. split.
  - intros j. rewrite !Hitems, spawned_ids. unfold pair_id. lia.
  - pose proof (f_equal length Htops) as Hlen. unfold tops in Hlen.
    rewrite length_fmap in Hlen. rewrite Hlen. unfold ids.
    destruct (length inputs =? 0)%nat; [cbn; lia|].
    destruct (length inputs <? 91)%nat; [cbn; lia|].
    destruct (_ <? 125)%nat; cbn; lia.
Qed.

Lemma X9_witness :
  ∃ g, @session_run rectangle_overlap (replicate 400 quiet_tick) (Game.__init__ Canvas.new)
       = Return g ∧
       Canvas.next_id (Game._canvas g) = 10%nat ∧
       is_Some (Canvas.items (Game._canvas g) !! pair_id 0) ∧
       (length (Game._obstacles g) ≤ 2)%nat.
Proof.
  eexists. split; [vm_compute; reflexivity|].
  match goal with
  | |- Canvas.next_id (Game._canvas ?g) = _ ∧ _ =>
      destruct (@X9_canvas_keeps_every_rectangle rectangle_overlap
                  (replicate 400 quiet_tick) g) as (Hnext & _ & Hpairs & Hlen)
  end.
  - vm_compute. reflexivity.
  - split; [exact Hnext|]. split; [|exact Hlen].
    apply (proj1 (Hpairs 0%nat)). vm_compute. lia.
Defined.

(** X10.  The cached coordinates are current, and no two objects share a
    rectangle.  After any number of ticks of a game, the lists
    [top_obstacle_position] and [bottom_obstacle_position] of every obstacle
    of [_obstacles] are what [canvas.coords] returns for its rectangles on
    the game's canvas, so that [manage_collisions] and [_manage_score] read
    the places where the rectangles are drawn; the entity's rectangle is
    item 1, and it and the rectangles of the obstacles are pairwise
    different items. *)
Theorem X10_cached_positions_are_current `{FindOverlapping}
  (inputs : list (list Event * (nat -> Z))) (g : Game.t) :
  session_run inputs (Game.__init__ Canvas.new) = Return g →
  Forall (fun o =>
            Obstacle.top_obstacle_position o
            = Canvas.coords (Game._canvas g) (Obstacle._top_rectangle o) ∧
            Obstacle.bottom_obstacle_position o
            = Canvas.coords (Game._canvas g) (Obstacle._bottom_rectangle o))
    (Game._obstacles g) ∧
  Player.player_rectangle (Game._player g) = 1%nat ∧
  NoDup (Player.player_rectangle (Game._player g) :: rectangles (Game._obstacles g)).
Proof.
  intros Hrun. destruct (session_reachable inputs g Hrun) as (s & _ & Hwf).
  split; [by apply (session_cache inputs)|]. split; [|by apply (wf_distinct g s)].
  destruct (session_player inputs g Hrun) as (c & Hps & _).
  clear Hrun Hwf. revert Hps. generalize (Game._player g). generalize (inputs.*1).
  intros l p. change 1%nat with (Player.player_rectangle new_player.2).
  generalize new_player.1, new_player.2. revert p.
  induction l as [|events l IH]; intros p c0 p0 Hps.
  - by injection Hps as _ <-.
  - cbn [player_session] in Hps.
    destruct (Player.move c0 _) as [[c1 p1]| |] eqn:Hmove; [|done..].
    rewrite bind_Return in Hps. rewrite (IH _ _ _ Hps).
    destruct (player_move_frame _ _ _ _ Hmove) as (_ & _ & -> & _).
    by destruct (events_entered_fields events p0) as (-> & _).
Qed.

Lemma X10_witness :
  ∃ g o1 o2,
    @session_run rectangle_overlap (replicate 100 quiet_tick) (Game.__init__ Canvas.new)
    = Return g ∧
    Game._obstacles g = [o1; o2] ∧
    Obstacle.bottom_obstacle_position o1
    = Canvas.coords (Game._canvas g) (Obstacle._bottom_rectangle o1) ∧
    NoDup (Player.player_rectangle (Game._player g) :: rectangles (Game._obstacles g)).
Proof.
  eexists _, _, _. split; [vm_compute; reflexivity|]. split; [vm_compute; reflexivity|].
  match goal with
  | |- _ ∧ NoDup (Player.player_rectangle (Game._player ?g) :: _) =>
      destruct (@X10_cached_positions_are_current rectangle_overlap
                  (replicate 100 quiet_tick) g) as (Hcache & _ & Hnd)
  end.
  - vm_compute. reflexivity.
  - split; [|exact Hnd]. vm_compute. reflexivity.
Defined.

(** ** A game that has been replaced *)

(** X11.  The loop of a replaced game changes nothing.  [run_game] re-arms
    itself with [window.after] also when [check_restart] has just replaced
    the game, so the loop of an ended game goes on beside the loop of the
    game on screen, and each of its ticks calls [check_restart] on the
    application.  Such a tick raises nothing, and it leaves the application
    as it is: after any tick of the game on screen, and whatever events have
    arrived since, [check_restart] called from a replaced game finds no
    collision, because a collision of the game on screen was dealt with in
    that game's own tick, and the new game that replaced it has no pair
    yet. *)
Theorem X11_replaced_game_changes_nothing `{FindOverlapping}
  (inputs inputs0 : list (list Event * (nat -> Z))) (g self : Game.t)
  (events events0 events' : list Event) (entropy entropy0 : nat -> Z)
  (a a' : Application.t) (g' : Game.t) :
  session_run inputs (Game.__init__ Canvas.new) = Return g →
  session_run inputs0 (Game.__init__ Canvas.new) = Return self →
  run_game entropy (Application.set_game a (deliver events g)) = Return (g', a') →
  ∃ self',
    game_tick entropy0 (deliver events0 self) = Return self' ∧
    run_game_of entropy0 (deliver events0 self)
      (Application.set_game a' (deliver events' (Application.game_object a')))
    = Return (self', Application.set_game a' (deliver events' (Application.game_object a'))).
Proof.
  intros Hrun Hrun0 Htick.
  destruct (session_next_tick inputs0 self events0 entropy0 Hrun0) as (self' & Htick0 & _).
  exists self'. split; [done|].
  rewrite run_game_of_tick, Htick0, bind_Return.
  assert (Hquiet : ∃ v, Game.manage_collisions (Application.game_object a') = Return v
                        ∧ truthy v = false).
  { rewrite run_game_tick in Htick.
    cbn [Application.game_object Application.set_game] in Htick.
    destruct (game_tick entropy (deliver events g)) as [g1| |]; [|done..].
    rewrite bind_Return in Htick. unfold Application.check_restart in Htick.
    cbn [Application.game_object Application.set_game] in Htick.
    destruct (Game.manage_collisions g1) as [v| |] eqn:Hv; [|done..].
    rewrite bind_Return in Htick. destruct (truthy v) eqn:Ht.
    - rewrite bind_Return in Htick. injection Htick as _ <-.
      exists (Some false). split; [|done]. by apply manage_collisions_empty.
    - rewrite bind_Return in Htick. injection Htick as <- <-. by exists v. }
  destruct Hquiet as (v & Hv & Ht).
  rewrite (check_restart_no_collision _ v); [done| |done].
  cbn [Application.game_object Application.set_game]. by rewrite deliver_collisions.
Qed.

Lemma X11_witness :
  ∃ g34 g35,
    @session_run rectangle_overlap (replicate 34 quiet_tick) (Game.__init__ Canvas.new)
    = Return g34 ∧
    @session_run rectangle_overlap (replicate 35 quiet_tick) (Game.__init__ Canvas.new)
    = Return g35 ∧
    @run_game rectangle_overlap (fun _ => 0)
      (Application.set_game Application.__init__ (deliver [] g34))
    = Return (g35, terminated 0) ∧
    ∃ self',
      @run_game_of rectangle_overlap (fun _ => 0) (deliver [] g35)
        (Application.set_game (terminated 0)
           (deliver [left_click] (Application.game_object (terminated 0))))
      = Return (self', Application.set_game (terminated 0)
                         (deliver [left_click] (Application.game_object (terminated 0)))).
Proof.
  eexists _, _. split; [vm_compute; reflexivity|]. split; [vm_compute; reflexivity|].
  match goal with
  | |- run_game _ (Application.set_game _ (deliver [] ?g34)) = Return (?g35, _) ∧ _ =>
      assert (H34 : @session_run rectangle_overlap (replicate 34 quiet_tick)
                      (Game.__init__ Canvas.new) = Return g34)
        by (vm_compute; reflexivity);
      assert (H35 : @session_run rectangle_overlap (replicate 35 quiet_tick)
                      (Game.__init__ Canvas.new) = Return g35)
        by (vm_compute; reflexivity);
      assert (Ht : @run_game rectangle_overlap (fun _ => 0)
                     (Application.set_game Application.__init__ (deliver [] g34))
                   = Return (g35, terminated 0))
        by (vm_compute; reflexivity);
      destruct (@X11_replaced_game_changes_nothing rectangle_overlap
                  (replicate 34 quiet_tick) (replicate 35 quiet_tick) g34 g35
                  [] [] [left_click] (fun _ => 0) (fun _ => 0)
                  Application.__init__ (terminated 0) g35 H34 H35 Ht)
        as (self' & _ & Hof)
  end.
  split; [exact Ht|]. exists self'. exact Hof.
Defined.

(** ** What a move leaves alone *)

(** X12.  [Player.move] touches nothing but the entity's rectangle.  On
    every canvas and for every player, also one that no game reaches, a
    call of [move] that returns leaves every other item of the canvas as it
    was, creates no item, and changes neither the id of the entity's
    rectangle nor its control key and button. *)
Theorem X12_player_move_frame (c c' : Canvas.t) (p p' : Player.t) :
  Player.move c p = Return (c', p') →
  (∀ j, j ≠ Player.player_rectangle p → Canvas.items c' !! j = Canvas.items c !! j) ∧
  Canvas.next_id c' = Canvas.next_id c ∧
  Player.player_rectangle p' = Player.player_rectangle p ∧
  Player._control_key p' = Player._control_key p ∧
  Player._control_button p' = Player._control_button p.
Proof. apply player_move_frame. Qed.

Lemma X12_witness :
  ∃ c' p', Player.move new_player.1 (Player.event_entered new_player.2 space_key)
           = Return (c', p') ∧
           Canvas.next_id c' = 2%nat ∧ Player.player_rectangle p' = 1%nat.
Proof.
  eexists _, _. split; [vm_compute; reflexivity|].
  match goal with
  | |- Canvas.next_id ?c' = _ ∧ Player.player_rectangle ?p' = _ =>
      destruct (X12_player_move_frame new_player.1 c'
                  (Player.event_entered new_player.2 space_key) p')
        as (_ & Hnext & Hrect & _)
  end.
  - vm_compute. reflexivity.
  - split; [exact Hnext|exact Hrect].
Defined.

(** X13.  [move_obstacle] touches nothing but the obstacle's two
    rectangles.  On every canvas and for every obstacle, also one that no
    game reaches, a call of [move_obstacle] that returns leaves every other
    item of the canvas as it was, creates no item, keeps the ids of the two
    rectangles, and leaves in the two position lists what [canvas.coords]
    returns for them on the canvas after the move. *)
Theorem X13_move_obstacle_frame (c c' : Canvas.t) (o o' : Obstacle.t) :
  Obstacle.move_obstacle c o = Return (c', o') →
  (∀ j, j ≠ Obstacle._top_rectangle o → j ≠ Obstacle._bottom_rectangle o →
        Canvas.items c' !! j = Canvas.items c !! j) ∧
  Canvas.next_id c' = Canvas.next_id c ∧
  Obstacle._top_rectangle o' = Obstacle._top_rectangle o ∧
  Obstacle._bottom_rectangle o' = Obstacle._bottom_rectangle o ∧
  Obstacle.top_obstacle_position o' = Canvas.coords c' (Obstacle._top_rectangle o) ∧
  Obstacle.bottom_obstacle_position o' = Canvas.coords c' (Obstacle._bottom_rectangle o).
Proof.
  unfold Obstacle.move_obstacle, Obstacle._check_obstacle_positions.
  cbn [Obstacle.bottom_obstacle_position Obstacle.top_obstacle_position
       Obstacle._top_rectangle Obstacle._bottom_rectangle Obstacle.off_screen].
  destruct (Py.index _ Obstacle.RIGHT_X) as [x| |]; [|done..]. rewrite bind_Return.
  destruct (Py.index _ Obstacle._LEFT_X) as [x'| |]; [|done..]. rewrite !bind_Return.
  intros [= <- <-]. split; [|by rewrite !canvas_move_next_id].
  intros j Ht Hb. by rewrite !canvas_move_frame.
Qed.

Lemma X13_witness :
  ∃ c' o', Obstacle.move_obstacle (Obstacle.__init__ new_player.1 360 400).1
             (Obstacle.__init__ new_player.1 360 400).2 = Return (c', o') ∧
           Obstacle.bottom_obstacle_position o'
           = [Float.of_int 358; Float.of_int 400; Float.of_int 428; Float.of_int 1040] ∧
           Canvas.items c' !! 1%nat = Canvas.items new_player.1 !! 1%nat ∧
           Canvas.next_id c' = 4%nat.
Proof.
  eexists _, _. split; [vm_compute; reflexivity|].
  match goal with
  | |- Obstacle.bottom_obstacle_position ?o' = _ ∧ Canvas.items ?c' !! _ = _ ∧ _ =>
      destruct (X13_move_obstacle_frame (Obstacle.__init__ new_player.1 360 400).1 c'
                  (Obstacle.__init__ new_player.1 360 400).2 o')
        as (Hframe & Hnext & _)
  end.
  - vm_compute. reflexivity.
  - split; [vm_compute; reflexivity|]. split.
    + rewrite Hframe by (vm_compute; lia). vm_compute. reflexivity.
    + rewrite Hnext. vm_compute. reflexivity.
Defined.

(** ** The Play button *)

Section Playing.
Context `{FindOverlapping}.

(** The first tick of a game creates the first pair. *)
Lemma session_first_tick (events : list Event) (entropy : nat -> Z) :
  ∃ g o,
    game_tick entropy (deliver events (Game.__init__ Canvas.new)) = Return g ∧
    session_run [(events, entropy)] (Game.__init__ Canvas.new) = Return g ∧
    Game._obstacles g = [o] ∧ at_position o 360 (200 + entropy 0%nat mod 400).
Proof.
  destruct (session_reachable [] (Game.__init__ Canvas.new) eq_refl) as (s & Hs & Hwf).
  cbn in Hs. injection Hs as <-.
  pose proof (deliver_well_formed events _ [] Hwf) as Hwf0.
  destruct (game_tick_evaluation entropy _ 0 [] eq_refl Hwf0)
    as (c & p & g1 & v & g' & Hmove & Hpipes & _ & _ & _ & _ & Hl' & Htick).
  destruct (manage_pipes_first entropy
              (Game.set_player (Game.set_canvas (deliver events (Game.__init__ Canvas.new)) c) p))
    as (y & Heq & _ & _ & Hpipes' & Hpos & _).
  { game_fields. by destruct (deliver_stream events (Game.__init__ Canvas.new)) as [-> _]. }
  rewrite Hpipes in Hpipes'. injection Hpipes' as ->.
  eexists g', _. cbn [session_run]. rewrite Htick, bind_Return.
  split; [done|]. split; [done|]. split; [by rewrite Hl'|]. by rewrite <- Heq.
Qed.

End Playing.

(** X14.  The Play button starts a game with a tick.  [_play_game] calls
    [run_game] itself.  On an application whose game is new, as
    [Application.__init__] and [check_restart] leave it, and has been given
    the events that the window delivered while the menu was shown, the call
    returns with the game after its first tick: the score is 0 and the
    stream has its first pair at 360, with the gap centre that [randrange]
    drew.  That tick is a fall, to [40, 300.5, 80, 340.5], when none of the
    events was the space bar or the left mouse button, and a flap, to
    [40, 292, 80, 332], when one was and no other event came with it.
    Unless the overlap test reports the entity in the new pair, the menu is
    unpacked, the canvas is packed and the score label of the menu is left
    as it was; if it does, the game is over at once with the score 0. *)
Theorem X14_play_starts_with_a_tick `{FindOverlapping} (events : list Event)
  (entropy : nat -> Z) (a : Application.t) :
  Application.game_object a = deliver events (Game.__init__ Canvas.new) →
  ∃ g' o,
    session_run [(events, entropy)] (Game.__init__ Canvas.new) = Return g' ∧
    Game.score g' = 0 ∧
    Game._obstacles g' = [o] ∧ at_position o 360 (200 + entropy 0%nat mod 400) ∧
    (Forall ignored events →
     Player.get_coordinates (Game._canvas g') (Game._player g')
     = [Float.of_int 40; of_halves 601; Float.of_int 80; of_halves 681]) ∧
    ((∃ event, events = [event] ∧ control event) →
     Player.get_coordinates (Game._canvas g') (Game._player g')
     = [Float.of_int 40; Float.of_int 292; Float.of_int 80; Float.of_int 332]) ∧
    ((Game.manage_collisions g' = Return None ∧
      _play_game entropy a
      = Return (g', Application.Make g' false true (Application._score a)))
     ∨ (Game.manage_collisions g' = Return (Some true) ∧
        _play_game entropy a = Return (g', terminated 0))).
Proof.
  intros Hnew.
  destruct (session_first_tick events entropy) as (g' & o & Htick & Hrun & Hl & Hpos).
  exists g', o. split; [done|].
  pose proof (session_score _ g' Hrun) as Hscore.
  split; [exact Hscore|]. split; [done|]. split; [done|]. split; [|split].
  - intros Hall.
    destruct (session_idle [(events, entropy)] g') as [Hco _];
      [by repeat constructor|cbn; lia|done|]. exact Hco.
  - intros Hone.
    destruct (session_boosts [(events, entropy)] g') as [Hco _];
      [by repeat constructor|cbn; lia|done|]. exact Hco.
  - destruct (session_not_empty [(events, entropy)] g' ltac:(done) Hrun) as (s & Hwf & Hs).
    unfold _play_game. rewrite run_game_tick.
    cbn [Application.game_object Application.set_game Application.menu_packed
         Application.canvas_packed Application._score].
    rewrite Hnew, Htick, bind_Return.
    destruct (manage_collisions_values g' s Hwf Hs) as [Hv|Hv].
    + right. split; [done|]. rewrite check_restart_collision by done.
      cbn [Application.game_object Application.set_game]. by rewrite Hscore, bind_Return.
    + left. split; [done|].
      by rewrite (check_restart_no_collision _ None) by done.
Qed.

Lemma X14_witness :
  ∃ g' o,
    @session_run rectangle_overlap [([left_click], fun _ => 123)] (Game.__init__ Canvas.new)
    = Return g' ∧
    Game._obstacles g' = [o] ∧ at_position o 360 323 ∧
    Player.get_coordinates (Game._canvas g') (Game._player g')
    = [Float.of_int 40; Float.of_int 292; Float.of_int 80; Float.of_int 332] ∧
    @_play_game rectangle_overlap (fun _ => 123)
      (Application.set_game (terminated 7) (deliver [left_click] (Game.__init__ Canvas.new)))
    = Return (g', Application.Make g' false true "Score: 7").
Proof.
  destruct (@X14_play_starts_with_a_tick rectangle_overlap [left_click] (fun _ => 123)
              (Application.set_game (terminated 7)
                 (deliver [left_click] (Game.__init__ Canvas.new))))
    as (g' & o & Hrun & _ & Hl & Hpos & _ & Hflap & Hplay); [reflexivity|].
  exists g', o. split; [exact Hrun|]. split; [exact Hl|]. split; [exact Hpos|].
  split.
  { apply Hflap. exists left_click. split; [reflexivity|]. right. reflexivity. }
  destruct Hplay as [[_ Hplay]|[Hc _]]; [exact Hplay|].
  exfalso. revert Hc.
  assert (Hg : @session_run rectangle_overlap [([left_click], fun _ => 123)]
                 (Game.__init__ Canvas.new) = Return g') by exact Hrun.
  vm_compute in Hg. injection Hg as <-. vm_compute. discriminate.
Defined.
